(** * reprotest: the variation pipeline and the comparison orchestrator

    A shallow embedding of [reprotest/__init__.py]: the eleven variations,
    the registry [VARIATIONS], [build], [check], the options with [config]
    and [command_line], and [main], followed by the properties of the
    natural-language specification that concern them and by further
    properties of the code.

    Conventions of the embedding.
    - Python dictionaries that are mutated in place ([os.environ] and its
      copies [env1], [env2]) live in a heap of objects and are passed around
      by reference.
    - Every action on the outside world (file system, subprocesses) is
      answered by a [World], which sees the events that happened so far, and
      is appended to the trace of events.
    - An exception is a [Raise] result; [sys.exit n] raises [SystemExit n],
      which [except Exception] does not catch, so that the result of
      [check] is the exit status of the process or an uncaught exception. *)

From Stdlib Require Import ZArith Ascii String List Lia.
From stdpp Require Import base option list strings gmap.

Local Open Scope string_scope.
Local Open Scope list_scope.

(** ** Strings and paths of the Python standard library *)

(** [sep.join(l)] *)
Definition join (sep : string) (l : list string) : string := String.concat sep l.

(** [s.split(sep)] for a one-character separator. *)
Fixpoint split (sep : ascii) (s : string) : list string :=
  match s with
  | EmptyString => [""]
  | String a s' =>
      if Ascii.eqb a sep then "" :: split sep s'
      else match split sep s' with
           | [] => [String a ""]
           | w :: ws => String a w :: ws
           end
  end.

(** [s.lstrip('/')] *)
Fixpoint lstrip_slash (s : string) : string :=
  match s with
  | String a s' => if Ascii.eqb a "/" then lstrip_slash s' else s
  | EmptyString => s
  end.

(** [s.startswith(p)] *)
Definition startswith (p s : string) : bool := String.prefix p s.

Module posixpath.

(** The loop of [normpath] over the components, [new_comps] kept reversed. *)
Fixpoint norm_comps (initial_slashes : nat) (comps : list string)
         (new_comps : list string) : list string :=
  match comps with
  | [] => rev new_comps
  | comp :: rest =>
      if bool_decide (comp = "") || bool_decide (comp = ".") then
        norm_comps initial_slashes rest new_comps
      else if negb (bool_decide (comp = ".."))
              || (Nat.eqb initial_slashes 0 && bool_decide (new_comps = []))
              || match new_comps with
                 | last :: _ => bool_decide (last = "..")
                 | [] => false
                 end
      then norm_comps initial_slashes rest (comp :: new_comps)
      else norm_comps initial_slashes rest (tl new_comps)
  end.

(** [os.path.normpath] on POSIX. *)
Definition normpath (path : string) : string :=
  if bool_decide (path = "") then "."
  else
    let initial_slashes :=
      if startswith "/" path then
        if startswith "//" path && negb (startswith "///" path) then 2 else 1
      else 0 in
    let comps := norm_comps initial_slashes (split "/" path) [] in
    let p := join "/" comps in
    let p := match initial_slashes with
             | 0 => p
             | 1 => "/" +:+ p
             | _ => "//" +:+ p
             end in
    if bool_decide (p = "") then "." else p.

End posixpath.

Module pathlib.

(** A pure POSIX path after parsing: the root ([""], ["/"] or ["//"]) and
    the components below it. *)
Record PurePath := mkPath { root : string; parts : list string }.

Definition splitroot (part : string) : string * string :=
  if startswith "/" part then
    let stripped := lstrip_slash part in
    if Nat.eqb (String.length part - String.length stripped) 2
    then ("//", stripped) else ("/", stripped)
  else ("", part).

(** [pathlib.Path(s)] *)
Definition Path (s : string) : PurePath :=
  let '(r, rel) := splitroot s in
  mkPath r (filter (fun x => x <> "" /\ x <> ".") (split "/" rel)).

(** [str(p)] *)
Definition str (p : PurePath) : string :=
  let s := root p +:+ join "/" (parts p) in
  if bool_decide (s = "") then "." else s.

(** [p.parent] *)
Definition parent (p : PurePath) : PurePath :=
  mkPath (root p) (removelast (parts p)).

(** [p / key] for a string [key] *)
Definition truediv (p : PurePath) (key : string) : PurePath :=
  let q := Path key in
  if bool_decide (root q = "") then mkPath (root p) (parts p ++ parts q)
  else q.

End pathlib.

(** ** The outside world, the heap and the monad of effects *)

Abbreviation Env := (gmap string string).

(** A reference to a dictionary in the heap. *)
Abbreviation loc := nat.

(** What [subprocess] is asked to run: an argument vector, or one line for
    the shell ([shell=True]). *)
Inductive Cmd :=
| Argv (argv : list string)
| Shell (line : string).

(** Actions on the file system. *)
Inductive IOAction :=
| Mkdtemp                      (* tempfile.TemporaryDirectory() *)
| Copytree (src dst : string)  (* shutil.copytree(src, dst) *)
| Mkdir (p : string)           (* Path.mkdir() *)
| OpenRead (p : string)        (* open(p, 'rb') *)
| OpenWrite (p : string)       (* open(p, 'wb') *)
| ReadAll (p : string)         (* f.read() *)
| Write (p : string)           (* f.write(data) *)
| Flush (p : string)           (* f.flush() *)
| Rmtree (p : string).         (* removal of the temporary directory *)

(** The events of a run, each with its outcome.  For [EvRun], [cwd] and
    [env] are the keyword arguments of the call ([None]: inherited) and
    [status] is the exit status, [None] when the program could not be
    started. *)
Inductive Event :=
| EvIO (a : IOAction) (ok : bool)
| EvRun (c : Cmd) (cwd : option string) (env : option Env) (status : option Z).

(** The outside world answers every action, knowing the events so far. *)
Record World := mkWorld {
  temp_name : string;
  io_ok : list Event -> IOAction -> bool;
  spawn : list Event -> Cmd -> option string -> option Env -> option Z
}.

Inductive Exn :=
| KeyError (k : string)
| OSError (a : IOAction)
| SpawnError (c : Cmd)                  (* the OSError of a failed Popen *)
| CalledProcessError (status : Z) (c : Cmd)
| SystemExit (code : Z).

(** [isinstance(e, Exception)]: [SystemExit] derives from [BaseException]
    only. *)
Definition is_Exception (e : Exn) : bool :=
  match e with SystemExit _ => false | _ => true end.

(** What is left to run of a generator suspended at its [yield]: nothing
    for the variations without a [try], the [finally] block of
    [fileordering] otherwise. *)
Inductive Suspended :=
| AfterYield
| InTryFinally (disorderfs : pathlib.PurePath).

(** Entering and leaving the scope of a variation, in the order in which
    [ExitStack] does it (a log kept beside the trace of events). *)
Inductive ScopeEv :=
| Entered (name : string)
| Left (name : string).

Record State := mkState {
  heap : list Env;                           (* the dictionaries *)
  trace : list Event;                        (* the events so far *)
  exit_stack : list (string * Suspended);    (* callbacks of the ExitStack, last pushed first *)
  scopes : list ScopeEv
}.

(** [os.environ] is the first object of the heap. *)
Definition os_environ : loc := 0.

Definition deref (h : list Env) (l : loc) : Env := default ∅ (h !! l).

Inductive Res (A : Type) :=
| Ok (a : A)
| Raise (e : Exn).
Arguments Ok {A} a.
Arguments Raise {A} e.

Definition M (A : Type) : Type := State -> Res A * State.

Definition ret {A} (a : A) : M A := fun s => (Ok a, s).

Definition bind {A B} (m : M A) (k : A -> M B) : M B :=
  fun s => match m s with
           | (Ok a, s') => k a s'
           | (Raise e, s') => (Raise e, s')
           end.

Definition raise {A} (e : Exn) : M A := fun s => (Raise e, s).

(** Run [m] and hand its result, value or exception, to the caller. *)
Definition try_ {A} (m : M A) : M (Res A) :=
  fun s => let '(r, s') := m s in (Ok r, s').

Definition reraise {A} (r : Res A) : M A :=
  match r with Ok a => ret a | Raise e => raise e end.

Notation "x <- m ;; k" := (bind m (fun x => k))
  (at level 100, m at next level, right associativity).
Notation "m ;;; k" := (bind m (fun _ => k))
  (at level 100, right associativity).

Definition set_heap (h : list Env) (s : State) : State :=
  mkState h (trace s) (exit_stack s) (scopes s).
Definition log (e : Event) (s : State) : State :=
  mkState (heap s) (trace s ++ [e]) (exit_stack s) (scopes s).
Definition set_exit_stack (k : list (string * Suspended)) (s : State) : State :=
  mkState (heap s) (trace s) k (scopes s).
Definition log_scope (e : ScopeEv) (s : State) : State :=
  mkState (heap s) (trace s) (exit_stack s) (scopes s ++ [e]).

(** [d.copy()] *)
Definition dict_copy (l : loc) : M loc :=
  fun s => (Ok (length (heap s)), set_heap (heap s ++ [deref (heap s) l]) s).

(** [d[k] = v] *)
Definition setitem (l : loc) (k v : string) : M unit :=
  fun s => (Ok tt, set_heap (<[l := <[k := v]> (deref (heap s) l)]> (heap s)) s).

(** [d[k]] *)
Definition getitem (l : loc) (k : string) : M string :=
  fun s => match deref (heap s) l !! k with
           | Some v => (Ok v, s)
           | None => (Raise (KeyError k), s)
           end.

(** The contents of a dictionary when it is handed to a subprocess. *)
Definition snapshot (l : loc) : M Env := fun s => (Ok (deref (heap s) l), s).

Section Effects.

Variable W : World.

(** A file-system action: raises [OSError] when the world refuses it. *)
Definition io (a : IOAction) : M unit :=
  fun s =>
    let ok := io_ok W (trace s) a in
    let s' := log (EvIO a ok) s in
    if ok then (Ok tt, s') else (Raise (OSError a), s').

(** [subprocess.call] *)
Definition call (c : Cmd) (cwd : option string) (env : option Env) : M Z :=
  fun s =>
    let r := spawn W (trace s) c cwd env in
    let s' := log (EvRun c cwd env r) s in
    match r with
    | Some status => (Ok status, s')
    | None => (Raise (SpawnError c), s')
    end.

(** [subprocess.check_call] *)
Definition check_call (c : Cmd) (cwd : option string) (env : option Env) : M unit :=
  retcode <- call c cwd env ;;
  if Z.eqb retcode 0 then ret tt else raise (CalledProcessError retcode c).

End Effects.

(** ** The build context and the variations *)

(** The six values that every variation receives and yields. *)
Record Ctx := mkCtx {
  command1 : list string;
  command2 : list string;
  env1 : loc;
  env2 : loc;
  tree1 : pathlib.PurePath;
  tree2 : pathlib.PurePath
}.

Definition set_command2 (cmd : list string) (c : Ctx) : Ctx :=
  mkCtx (command1 c) cmd (env1 c) (env2 c) (tree1 c) (tree2 c).
Definition set_tree2 (t : pathlib.PurePath) (c : Ctx) : Ctx :=
  mkCtx (command1 c) (command2 c) (env1 c) (env2 c) (tree1 c) t.

(** Lookup in an ordered mapping given by its items. *)
Fixpoint assoc {A} (k : string) (items : list (string * A)) : option A :=
  match items with
  | [] => None
  | (k', v) :: rest => if decide (k = k') then Some v else assoc k rest
  end.

Section Reprotest.

Variable W : World.

(** A generator-based context manager: its body up to the [yield], the
    yielded context and what is left of the generator. *)
Definition Variation : Type := Ctx -> M (Ctx * Suspended).

(** [yield command1, command2, env1, env2, tree1, tree2] outside a [try]. *)
Definition yield (c : Ctx) : M (Ctx * Suspended) := ret (c, AfterYield).

Definition captures_environment : Variation := fun c =>
  setitem (env2 c) "CAPTURE_ENVIRONMENT" "i_capture_the_environment" ;;;
  yield c.

Definition domain_host : Variation := fun c => yield c.

Definition fileordering : Variation := fun c =>
  let disorderfs := pathlib.truediv (pathlib.parent (tree2 c)) "disorderfs" in
  io W (Mkdir (pathlib.str disorderfs)) ;;;
  check_call W (Argv ["disorderfs"; "--shuffle-dirents=yes";
                      pathlib.str (tree2 c); pathlib.str disorderfs])
             None None ;;;
  ret (set_tree2 disorderfs c, InTryFinally disorderfs).

Definition home : Variation := fun c =>
  setitem (env1 c) "HOME" "/nonexistent/first-build" ;;;
  setitem (env2 c) "HOME" "/nonexistent/second-build" ;;;
  yield c.

Definition kernel : Variation := fun c =>
  let command2 := ["linux64"; "--uname-2.6"] ++ command2 c in
  yield (set_command2 command2 c).

Definition locales : Variation := fun c =>
  setitem (env2 c) "LANG" "fr_CH.UTF-8" ;;;
  setitem (env2 c) "LC_ALL" "fr_CH.UTF-8" ;;;
  yield c.

Definition path : Variation := fun c =>
  p <- getitem (env1 c) "PATH" ;;
  setitem (env2 c) "PATH" (p +:+ "/i_capture_the_path") ;;;
  yield c.

Definition shell : Variation := fun c => yield c.

Definition timezone : Variation := fun c =>
  setitem (env1 c) "TZ" "GMT+12" ;;;
  setitem (env2 c) "TZ" "GMT-14" ;;;
  yield c.

Definition umask : Variation := fun c =>
  let command2 := ["umask"; "0002;"] ++ command2 c in
  yield (set_command2 command2 c).

Definition user_group : Variation := fun c => yield c.

(** The registry, an ordered mapping. *)
Definition VARIATIONS : list (string * Variation) :=
  [ ("captures_environment", captures_environment);
    ("domain_host", domain_host); ("fileordering", fileordering);
    ("home", home); ("kernel", kernel); ("locales", locales);
    ("path", path); ("shell", shell);
    ("timezone", timezone); ("umask", umask); ("user_group", user_group) ].

(** [VARIATIONS[variation]] *)
Definition VARIATIONS_getitem (variation : string) : M Variation :=
  match assoc variation VARIATIONS with
  | Some v => ret v
  | None => raise (KeyError variation)
  end.

(** ** [contextlib.ExitStack] *)

(** Resuming a suspended generator when its scope is left, on the normal
    path ([next]) and on the exceptional one ([throw]) alike: the
    [finally] block runs in both, and a generator with nothing after its
    [yield] does nothing. *)
Definition resume (g : Suspended) : M unit :=
  match g with
  | AfterYield => ret tt
  | InTryFinally disorderfs =>
      check_call W (Argv ["fusermount"; "-u"; pathlib.str disorderfs]) None None
  end.

(** [stack.enter_context(cm)]: run the generator up to its [yield]; only
    when that succeeds is its exit callback pushed. *)
Definition enter_context (name : string) (cm : M (Ctx * Suspended)) : M Ctx :=
  r <- cm ;;
  (fun s => (Ok (fst r),
             log_scope (Entered name)
               (set_exit_stack ((name, snd r) :: exit_stack s) s))).

(** The loop of [ExitStack.__exit__]: callbacks are popped last pushed
    first; one that raises replaces the pending exception and the loop
    goes on; none of the callbacks here suppresses an exception. *)
Fixpoint run_callbacks (callbacks : list (string * Suspended))
         (pending : option Exn) : M (option Exn) :=
  match callbacks with
  | [] => ret pending
  | (name, g) :: rest =>
      r <- try_ (fun s => resume g (log_scope (Left name) (set_exit_stack rest s))) ;;
      run_callbacks rest (match r with Raise e => Some e | Ok _ => pending end)
  end.

(** [with contextlib.ExitStack() as stack: body] *)
Definition with_ExitStack {A} (body : M A) : M A :=
  r <- try_ (fun s => body (set_exit_stack [] s)) ;;
  pending <- (fun s => run_callbacks (exit_stack s)
                         (match r with Raise e => Some e | Ok _ => None end) s) ;;
  match pending with
  | Some e => raise e
  | None => reraise r
  end.

(** [with tempfile.TemporaryDirectory() as temp: body].  The directory is
    removed when the block is left, whatever the result of the block, a
    [SystemExit] included; when the removal fails, its error leaves the
    [with] statement in place of that result. *)
Definition with_TemporaryDirectory {A} (body : string -> M A) : M A :=
  io W Mkdtemp ;;;
  r <- try_ (body (temp_name W)) ;;
  io W (Rmtree (temp_name W)) ;;;
  reraise r.

(** ** [build] and [check] *)

(** [shutil.copytree(src, dst)] returns [dst]. *)
Definition copytree (src dst : string) : M string :=
  io W (Copytree src dst) ;;; ret dst.

(** [open(p, 'wb')]; the open file is named by its path. *)
Definition open_wb (p : string) : M string := io W (OpenWrite p) ;;; ret p.

Definition build (command : string) (source_root : string)
           (built_artifact : string) (artifact_store : string) (env : loc) : M unit :=
  e <- snapshot env ;;
  check_call W (Shell command) (Some source_root) (Some e) ;;;
  io W (OpenRead built_artifact) ;;;
  io W (ReadAll built_artifact) ;;;
  io W (Write artifact_store) ;;;
  io W (Flush artifact_store).

(** The loop [for variation in variations] inside the [ExitStack]. *)
Fixpoint enter_variations (variations : list string) (c : Ctx) : M Ctx :=
  match variations with
  | [] => ret c
  | variation :: rest =>
      v <- VARIATIONS_getitem variation ;;
      c' <- enter_context variation (v c) ;;
      enter_variations rest c'
  end.

(** [sys.exit(code)] *)
Definition sys_exit {A} (code : Z) : M A := raise (SystemExit code).

(** The two calls of [build] that follow the loop; the artifact store is
    opened when the arguments of the call are evaluated. *)
Definition both_builds (temp artifact_name : string) (c : Ctx) : M unit :=
  store1 <- open_wb (posixpath.normpath (temp +:+ "/artifact1")) ;;
  build (join " " (command1 c)) (pathlib.str (tree1 c))
        (posixpath.normpath (temp +:+ "/tree1/" +:+ artifact_name))
        store1 (env1 c) ;;;
  store2 <- open_wb (posixpath.normpath (temp +:+ "/artifact2")) ;;
  build (join " " (command2 c)) (pathlib.str (tree2 c))
        (posixpath.normpath (temp +:+ "/tree2/" +:+ artifact_name))
        store2 (env2 c).

(** The [with contextlib.ExitStack()] block of [check]. *)
Definition guarded (temp artifact_name : string) (variations : list string)
           (c : Ctx) : M unit :=
  with_ExitStack (
    c' <- enter_variations variations c ;;
    both_builds temp artifact_name c').

Definition diffoscope (temp : string) : Cmd :=
  Argv ["diffoscope"; temp +:+ "/artifact1"; temp +:+ "/artifact2"].

Definition check (build_command : list string) (artifact_name : string)
           (source_root : pathlib.PurePath) (variations : list string) : M unit :=
  with_TemporaryDirectory (fun temp =>
    let command1 := build_command in
    let command2 := build_command in
    env1 <- dict_copy os_environ ;;
    env2 <- dict_copy env1 ;;
    tree1 <- copytree (pathlib.str source_root) (temp +:+ "/tree1") ;;
    tree2 <- copytree (pathlib.str source_root) (temp +:+ "/tree2") ;;
    r <- try_ (guarded temp artifact_name variations
                 (mkCtx command1 command2 env1 env2
                        (pathlib.Path tree1) (pathlib.Path tree2))) ;;
    match r with
    | Raise e => if is_Exception e then sys_exit 2 else raise e
    | Ok _ =>
        status <- call W (diffoscope temp) None None ;;
        sys_exit status
    end).

(** ** The selection of variations in [main] *)

(** [VARIATIONS.keys()], in the order of the registry. *)
Definition VARIATIONS_keys : list string := map fst VARIATIONS.

(** The set of selected variations: all of them by default, the
    configuration file and then the command line narrowing the choice. *)
Definition selected (config_variations config_dont_vary : option (list string))
           (cl_variations cl_dont_vary : option (gset string)) : gset string :=
  let variations : gset string := list_to_set VARIATIONS_keys in
  let variations :=
    match config_variations with Some l => list_to_set l | None => variations end in
  let variations :=
    match config_dont_vary with Some l => variations ∖ list_to_set l | None => variations end in
  let variations :=
    match cl_variations with Some s => s | None => variations end in
  match cl_dont_vary with Some s => variations ∖ s | None => variations end.

(** [[v for v in VARIATIONS if v in variations]] *)
Definition restore_order (variations : gset string) : list string :=
  filter (fun v => v ∈ variations) VARIATIONS_keys.

End Reprotest.

(** The state in which [check] is called: the process environment is the
    only dictionary. *)
Definition initial_state (environ : Env) : State := mkState [environ] [] [] [].

(** ** The documented effect of each variation

    The table of the specification, with the values the source gives: what
    entering the variation named [n] does to the commands and tree paths of
    the build context, to the contents of the two environments, to the
    outside world, and what it leaves to be done when its scope ends. *)

Definition cmd_prefix (n : string) : list string :=
  if String.eqb n "kernel" then ["linux64"; "--uname-2.6"]
  else if String.eqb n "umask" then ["umask"; "0002;"]
  else [].

(** The mount point of the overlay for the tree [t]. *)
Definition overlay (t : pathlib.PurePath) : pathlib.PurePath :=
  pathlib.truediv (pathlib.parent t) "disorderfs".

Definition mount_cmd (t mp : pathlib.PurePath) : Cmd :=
  Argv ["disorderfs"; "--shuffle-dirents=yes"; pathlib.str t; pathlib.str mp].

Definition documented_ctx (n : string) (c : Ctx) : Ctx :=
  mkCtx (command1 c) (cmd_prefix n ++ command2 c) (env1 c) (env2 c) (tree1 c)
        (if String.eqb n "fileordering" then overlay (tree2 c) else tree2 c).

Definition documented_envA (n : string) (e1 : Env) : Env :=
  if String.eqb n "home" then <["HOME" := "/nonexistent/first-build"]> e1
  else if String.eqb n "timezone" then <["TZ" := "GMT+12"]> e1
  else e1.

Definition documented_envB (n : string) (e1 e2 : Env) : Env :=
  if String.eqb n "captures_environment" then
    <["CAPTURE_ENVIRONMENT" := "i_capture_the_environment"]> e2
  else if String.eqb n "home" then <["HOME" := "/nonexistent/second-build"]> e2
  else if String.eqb n "locales" then
    <["LC_ALL" := "fr_CH.UTF-8"]> (<["LANG" := "fr_CH.UTF-8"]> e2)
  else if String.eqb n "path" then
    match e1 !! "PATH" with
    | Some p => <["PATH" := p +:+ "/i_capture_the_path"]> e2
    | None => e2
    end
  else if String.eqb n "timezone" then <["TZ" := "GMT-14"]> e2
  else e2.

Definition documented_events (n : string) (c : Ctx) : list Event :=
  if String.eqb n "fileordering" then
    [EvIO (Mkdir (pathlib.str (overlay (tree2 c)))) true;
     EvRun (mount_cmd (tree2 c) (overlay (tree2 c))) None None (Some 0%Z)]
  else [].

Definition documented_frame (n : string) (c : Ctx) : Suspended :=
  if String.eqb n "fileordering" then InTryFinally (overlay (tree2 c))
  else AfterYield.

(** Both environments at once. *)
Definition documented_envs (p : Env * Env) (n : string) : Env * Env :=
  (documented_envA n (fst p), documented_envB n (fst p) (snd p)).

(** ** Observations on traces *)

(** The mount points of the overlay mounts that succeeded, in the order of
    the trace. *)
Definition mounted (t : list Event) : list string :=
  omap (fun e => match e with
                 | EvRun (Argv [prog; _; _; mp]) _ _ (Some 0%Z) =>
                     if String.eqb prog "disorderfs" then Some mp else None
                 | _ => None
                 end) t.

(** The mount points of the unmount commands that were run, whatever their
    exit status, in the order of the trace. *)
Definition unmounted (t : list Event) : list string :=
  omap (fun e => match e with
                 | EvRun (Argv [prog; _; mp]) _ _ _ =>
                     if String.eqb prog "fusermount" then Some mp else None
                 | _ => None
                 end) t.

(** The mount points that the callbacks of an exit stack will unmount, the
    top of the stack first. *)
Definition pending_unmounts (k : list (string * Suspended)) : list string :=
  omap (fun f => match snd f with
                 | InTryFinally d => Some (pathlib.str d)
                 | AfterYield => None
                 end) k.

(** A tree copy. *)
Definition is_copytree (e : Event) : bool :=
  match e with EvIO (Copytree _ _) _ => true | _ => false end.

(** An attempt to mount the overlay, successful or not. *)
Definition is_mount (e : Event) : bool :=
  match e with
  | EvRun (Argv (prog :: _)) _ _ _ => String.eqb prog "disorderfs"
  | _ => false
  end.

(** A run of a build command (the only commands given to the shell). *)
Definition is_build (e : Event) : bool :=
  match e with EvRun (Shell _) _ _ _ => true | _ => false end.

(** A run of the external diff tool. *)
Definition is_diff (e : Event) : bool :=
  match e with
  | EvRun (Argv (prog :: _)) _ _ _ => String.eqb prog "diffoscope"
  | _ => false
  end.

(** A build command that did not exit with status 0, or a declared
    artifact that could not be opened after its build command. *)
Definition is_build_failure (e : Event) : bool :=
  match e with
  | EvRun (Shell _) _ _ (Some 0%Z) => false
  | EvRun (Shell _) _ _ _ => true
  | EvIO (OpenRead _) ok => negb ok
  | _ => false
  end.

(** A build that ran to its end: its artifact store was flushed. *)
Definition is_build_done (e : Event) : bool :=
  match e with EvIO (Flush _) true => true | _ => false end.

(** An unmount command that did not exit with status 0. *)
Definition is_unmount_failure (e : Event) : bool :=
  match e with
  | EvRun (Argv (prog :: _)) _ _ (Some 0%Z) => false
  | EvRun (Argv (prog :: _)) _ _ _ => String.eqb prog "fusermount"
  | _ => false
  end.

(** One turn of the loop of [check]: look the variation up and enter it. *)
Definition step (W : World) (n : string) (c : Ctx) : M Ctx :=
  v <- VARIATIONS_getitem W n ;; enter_context n (v c).

(** ** The state of [check] after its set-up *)

(** The state and the build context at the start of the guarded block of
    [check], when the set-up succeeded. *)
Definition setup_events (temp : string) (source_root : pathlib.PurePath) : list Event :=
  [EvIO Mkdtemp true;
   EvIO (Copytree (pathlib.str source_root) (temp +:+ "/tree1")) true;
   EvIO (Copytree (pathlib.str source_root) (temp +:+ "/tree2")) true].

Definition setup_state (temp : string) (source_root : pathlib.PurePath)
           (environ : Env) : State :=
  mkState [environ; environ; environ] (setup_events temp source_root) [] [].

Definition setup_ctx (temp : string) (build_command : list string) : Ctx :=
  mkCtx build_command build_command 1 2
        (pathlib.Path (temp +:+ "/tree1")) (pathlib.Path (temp +:+ "/tree2")).

(** The events of entering the variations [vs] one after the other, when
    all of them succeed. *)
Fixpoint documented_trace (c : Ctx) (vs : list string) : list Event :=
  match vs with
  | [] => []
  | n :: rest => documented_events n c ++ documented_trace (documented_ctx n c) rest
  end.

(** The documented effects of the selected variations, each applied once
    in the order of the registry, the others leaving the value as it is. *)
Definition expected_ctx (W : World) (S : gset string) (c : Ctx) : Ctx :=
  foldl (fun c n => if decide (n ∈ S) then documented_ctx n c else c)
        c (VARIATIONS_keys W).

Definition expected_envs (W : World) (S : gset string) (p : Env * Env) : Env * Env :=
  foldl (fun p n => if decide (n ∈ S) then documented_envs p n else p)
        p (VARIATIONS_keys W).

Definition expected_events (S : gset string) (c : Ctx) : list Event :=
  if decide ("fileordering" ∈ S) then documented_events "fileordering" c else [].

(** The variations that neither read a key that may be missing nor call
    on the outside world. *)
Definition is_plain (n : string) : bool :=
  existsb (String.eqb n)
          ["captures_environment"; "domain_host"; "home"; "kernel"; "locales";
           "shell"; "timezone"; "umask"; "user_group"].

(** ** Classes of events *)

(** An event of the set-up of the overlay: the creation of the mount
    point or the mount command. *)
Definition is_overlay_setup (e : Event) : bool :=
  match e with
  | EvIO (Mkdir _) _ => true
  | EvRun (Argv (prog :: _)) _ _ _ => String.eqb prog "disorderfs"
  | _ => false
  end.

(** An unmount command. *)
Definition is_unmount (e : Event) : bool :=
  match e with
  | EvRun (Argv (prog :: _)) _ _ _ => String.eqb prog "fusermount"
  | _ => false
  end.

(** An event of one of the two builds. *)
Definition is_build_step (e : Event) : bool :=
  match e with
  | EvRun (Shell _) _ _ _ => true
  | EvIO (OpenWrite _) _ | EvIO (OpenRead _) _ | EvIO (ReadAll _) _
  | EvIO (Write _) _ | EvIO (Flush _) _ => true
  | _ => false
  end.

(** The number of builds that ran to their end. *)
Definition builds_done (t : list Event) : nat :=
  length (List.filter is_build_done t).

(** An event of the set-up of [check]: the temporary directory, the two
    tree copies, and the removal of the directory at the end. *)
Definition is_setup_step (e : Event) : bool :=
  match e with
  | EvIO Mkdtemp _ | EvIO (Copytree _ _) _ | EvIO (Rmtree _) _ => true
  | _ => false
  end.

(** The temporary directory or a tree copy could not be made. *)
Definition is_setup_failure (e : Event) : bool :=
  match e with
  | EvIO Mkdtemp false | EvIO (Copytree _ _) false => true
  | _ => false
  end.

(** The temporary directory could not be removed. *)
Definition is_removal_failure (e : Event) : bool :=
  match e with EvIO (Rmtree _) false => true | _ => false end.

(** The result of a [with tempfile.TemporaryDirectory()] block whose body
    gave [r], once the removal of the directory [temp] was answered by
    [ok]. *)
Definition after_removal {A} (temp : string) (ok : bool) (r : Res A) : Res A :=
  if ok then r else Raise (OSError (Rmtree temp)).

(** ** The offset written in a POSIX [TZ] value

    The source notes that the values it gives to [TZ] are in the POSIX time
    zone format, [std offset]: the name of the zone, letters only, then a
    sign and the hours.  [tz_offset] is the signed number of hours as it is
    written. *)

Definition is_alpha (a : ascii) : bool :=
  let n := nat_of_ascii a in
  (Nat.leb 65 n && Nat.leb n 90) || (Nat.leb 97 n && Nat.leb n 122).

Fixpoint drop_alpha (s : string) : string :=
  match s with
  | String a s' => if is_alpha a then drop_alpha s' else s
  | EmptyString => s
  end.

Fixpoint decimal (s : string) (acc : Z) : option Z :=
  match s with
  | EmptyString => Some acc
  | String a s' =>
      let n := nat_of_ascii a in
      if Nat.leb 48 n && Nat.leb n 57
      then decimal s' (10 * acc + Z.of_nat (n - 48))%Z
      else None
  end.

Definition tz_offset (tz : string) : option Z :=
  match drop_alpha tz with
  | String "+" ds => decimal ds 0
  | String "-" ds => Z.opp <$> decimal ds 0
  | _ => None
  end.

(** ** Worlds used in the examples *)

(** Every action succeeds and every program exits with status 0, except
    that the programs named in [failing] exit with status 1 and the diff
    tool with [d]. *)
Definition world (failing : list string) (d : Z) : World :=
  mkWorld "/tmp/t"
    (fun _ _ => true)
    (fun _ c _ _ =>
       match c with
       | Argv (prog :: _) =>
           if String.eqb prog "diffoscope" then Some d
           else if existsb (String.eqb prog) failing then Some 1%Z else Some 0%Z
       | Argv [] => None
       | Shell line =>
           if existsb (String.eqb line) failing then Some 1%Z else Some 0%Z
       end).

Definition ex_environ : Env := {[ "PATH" := "/usr/bin" ]}.
Definition ex_root : pathlib.PurePath := pathlib.Path ".".
Definition ex_ctx : Ctx := setup_ctx "/tmp/t" ["make"].
Definition ex_state : State := setup_state "/tmp/t" ex_root ex_environ.

Definition ex_selection : gset string := {[ "kernel"; "path"; "fileordering" ]}.

(** A run with a name that is not in the registry after [fileordering]. *)
Definition run_unknown : Res unit * State :=
  check (world [] 0) ["make"] "out.bin" ex_root ["fileordering"; "nosuch"]
        (initial_state ex_environ).

(** A run in which the build command exits with status 1. *)
Definition run_build_fails : Res unit * State :=
  check (world ["make"] 0) ["make"] "out.bin" ex_root [] (initial_state ex_environ).

(** A run in which everything succeeds and the diff tool exits with 3. *)
Definition run_differs : Res unit * State :=
  check (world [] 3) ["make"] "out.bin" ex_root ["fileordering"; "kernel"]
        (initial_state ex_environ).

(** A run in which both builds succeed and the unmount command fails. *)
Definition run_unmount_fails : Res unit * State :=
  check (world ["fusermount"] 0) ["make"] "out.bin" ex_root ["fileordering"]
        (initial_state ex_environ).

(** As [world], except that the temporary directory cannot be removed. *)
Definition world_keeps_temp (failing : list string) (d : Z) : World :=
  mkWorld "/tmp/t"
    (fun _ a => match a with Rmtree _ => false | _ => true end)
    (spawn (world failing d)).

(** A run in which the build command exits with status 1 and the
    temporary directory cannot be removed. *)
Definition run_build_fails_temp_kept : Res unit * State :=
  check (world_keeps_temp ["make"] 0) ["make"] "out.bin" ex_root []
        (initial_state ex_environ).

(** ** Further observations on the pipeline *)

(** The prefixes that the variations of [vs] put before command B, the
    last entered first. *)
Definition prefixes (vs : list string) : list string :=
  concat (rev (map cmd_prefix vs)).

(** A pipeline over [kernel] and [home], used as an example. *)
Definition ex_entered : Res Ctx * State :=
  enter_variations (world [] 0) ["kernel"; "home"; "fileordering"] ex_ctx ex_state.

Definition ex_entered_ctx : Ctx :=
  match fst ex_entered with Ok c => c | Raise _ => ex_ctx end.

(** What a variation does to the two environments: the keys it writes. *)
Inductive EnvEffect :=
| WritesMarker | WritesHome | WritesLocale | WritesPath | WritesTZ | WritesNothing.

Definition env_effect (n : string) : EnvEffect :=
  if String.eqb n "captures_environment" then WritesMarker
  else if String.eqb n "home" then WritesHome
  else if String.eqb n "locales" then WritesLocale
  else if String.eqb n "path" then WritesPath
  else if String.eqb n "timezone" then WritesTZ
  else WritesNothing.

Definition apply_env_effect (k : EnvEffect) (p : Env * Env) : Env * Env :=
  match k with
  | WritesMarker =>
      (fst p, <["CAPTURE_ENVIRONMENT" := "i_capture_the_environment"]> (snd p))
  | WritesHome =>
      (<["HOME" := "/nonexistent/first-build"]> (fst p),
       <["HOME" := "/nonexistent/second-build"]> (snd p))
  | WritesLocale =>
      (fst p, <["LC_ALL" := "fr_CH.UTF-8"]> (<["LANG" := "fr_CH.UTF-8"]> (snd p)))
  | WritesPath =>
      (fst p, match fst p !! "PATH" with
              | Some x => <["PATH" := x +:+ "/i_capture_the_path"]> (snd p)
              | None => snd p
              end)
  | WritesTZ => (<["TZ" := "GMT+12"]> (fst p), <["TZ" := "GMT-14"]> (snd p))
  | WritesNothing => p
  end.

(** Once written, [HOME], [TZ] and [PATH] keep their values through the
    variations that follow. *)
Definition home_differs (p : Env * Env) : Prop :=
  fst p !! "HOME" = Some "/nonexistent/first-build" /\
  snd p !! "HOME" = Some "/nonexistent/second-build".
Definition tz_differs (p : Env * Env) : Prop :=
  fst p !! "TZ" = Some "GMT+12" /\ snd p !! "TZ" = Some "GMT-14".
Definition path_differs (x : string) (p : Env * Env) : Prop :=
  fst p !! "PATH" = Some x /\ snd p !! "PATH" = Some (x +:+ "/i_capture_the_path").

(** The same three variations in two orders, used as an example. *)
Definition ex_order1 : Res Ctx * State :=
  enter_variations (world [] 0) ["home"; "path"; "timezone"] ex_ctx ex_state.
Definition ex_order2 : Res Ctx * State :=
  enter_variations (world [] 0) ["timezone"; "home"; "path"] ex_ctx ex_state.
Definition ex_order1_ctx : Ctx :=
  match fst ex_order1 with Ok c => c | Raise _ => ex_ctx end.
Definition ex_order2_ctx : Ctx :=
  match fst ex_order2 with Ok c => c | Raise _ => ex_ctx end.

(** A pipeline over [home] and [timezone] from environments that hold
    nothing, [PATH] included. *)
Definition ex_state_bare : State := setup_state "/tmp/t" ex_root ∅.
Definition ex_home_tz : Res Ctx * State :=
  enter_variations (world [] 0) ["home"; "timezone"] ex_ctx ex_state_bare.
Definition ex_home_tz_ctx : Ctx :=
  match fst ex_home_tz with Ok c => c | Raise _ => ex_ctx end.

(** ** The script of the two builds *)

(** A write to, or a flush of, an artifact store. *)
Definition is_store_write (e : Event) : bool :=
  match e with EvIO (Write _) _ | EvIO (Flush _) _ => true | _ => false end.

(** The creation or the removal of the temporary directory. *)
Definition is_tempdir (e : Event) : bool :=
  match e with EvIO Mkdtemp _ | EvIO (Rmtree _) _ => true | _ => false end.

(** An event as it reads when its action succeeds. *)
Definition attempted (e : Event) : Event :=
  match e with
  | EvIO a _ => EvIO a true
  | EvRun c cwd env _ => EvRun c cwd env (Some 0%Z)
  end.

(** The events of one call of [build] in [check] when every step
    succeeds: the store is opened, the command is run by the shell, the
    artifact is opened and read, the store is written and flushed. *)
Definition build_script (command cwd artifact store : string) (env : Env)
  : list Event :=
  [EvIO (OpenWrite store) true;
   EvRun (Shell command) (Some cwd) (Some env) (Some 0%Z);
   EvIO (OpenRead artifact) true; EvIO (ReadAll artifact) true;
   EvIO (Write store) true; EvIO (Flush store) true].

(** The two builds of [check] for the context [c] that the pipeline
    yielded and the contents of the two environments at that point. *)
Definition builds_script (temp artifact_name : string) (c : Ctx)
           (envA envB : Env) : list Event :=
  build_script (join " " (command1 c)) (pathlib.str (tree1 c))
               (posixpath.normpath (temp +:+ "/tree1/" +:+ artifact_name))
               (posixpath.normpath (temp +:+ "/artifact1")) envA ++
  build_script (join " " (command2 c)) (pathlib.str (tree2 c))
               (posixpath.normpath (temp +:+ "/tree2/" +:+ artifact_name))
               (posixpath.normpath (temp +:+ "/artifact2")) envB.

(** [d] follows [script]: it is the whole script, or the script up to a
    step that failed, the failed step being the last event. *)
Definition follows (script d : list Event) : Prop :=
  d = script \/
  exists d0 e, d = d0 ++ [e] /\ attempted e <> e /\
               (d0 ++ [attempted e]) `prefix_of` script.

(** The script of [check] for the build command [cmd], the artifact [art]
    and the variations [vs], from the process environment [environ]:
    build A runs the command as it was given, in the first copy of the
    tree; build B runs it behind the prefixes of the variations, in the
    second copy or in the mount point of its overlay; both artifacts are
    read from the copies. *)
Definition check_script (temp : string) (cmd : list string) (art : string)
           (vs : list string) (environ : Env) : list Event :=
  build_script (join " " cmd)
               (pathlib.str (pathlib.Path (temp +:+ "/tree1")))
               (posixpath.normpath (temp +:+ "/tree1/" +:+ art))
               (posixpath.normpath (temp +:+ "/artifact1"))
               (foldl (fun e n => documented_envA n e) environ vs) ++
  build_script (join " " (prefixes vs ++ cmd))
               (pathlib.str (if decide ("fileordering" ∈ vs)
                             then overlay (pathlib.Path (temp +:+ "/tree2"))
                             else pathlib.Path (temp +:+ "/tree2")))
               (posixpath.normpath (temp +:+ "/tree2/" +:+ art))
               (posixpath.normpath (temp +:+ "/artifact2"))
               (snd (foldl documented_envs (environ, environ) vs)).

(** A run of [build] on its own, in which the artifact is missing. *)
Definition ex_build_world : World :=
  mkWorld "/tmp/t"
    (fun _ a => match a with OpenRead _ => false | _ => true end)
    (fun _ _ _ _ => Some 0%Z).

Definition ex_build : Res unit * State :=
  build ex_build_world "make" "/tmp/t/tree1" "/tmp/t/tree1/out.bin"
        "/tmp/t/artifact1" 1 ex_state.

(** Runs of [check] used as examples: the second tree copy fails; the
    diff tool cannot be started; [path] is selected and [PATH] is not set. *)
Definition ex_copy_world : World :=
  mkWorld "/tmp/t"
    (fun _ a => match a with
                | Copytree _ dst => negb (String.eqb dst "/tmp/t/tree2")
                | _ => true
                end)
    (fun _ _ _ _ => Some 0%Z).

Definition run_copy_fails : Res unit * State :=
  check ex_copy_world ["make"] "out.bin" ex_root ["home"] (initial_state ex_environ).

Definition ex_nodiff_world : World :=
  mkWorld "/tmp/t" (fun _ _ => true)
    (fun _ c _ _ => match c with
                    | Argv (prog :: _) =>
                        if String.eqb prog "diffoscope" then None else Some 0%Z
                    | _ => Some 0%Z
                    end).

Definition run_no_diff_tool : Res unit * State :=
  check ex_nodiff_world ["make"] "out.bin" ex_root ["kernel"] (initial_state ex_environ).

Definition run_no_PATH : Res unit * State :=
  check (world [] 0) ["make"] "out.bin" ex_root ["home"; "path"] (initial_state ∅).

(** ** The options: [config], [command_line] and [main]

    Outside [check], the program calls on [configparser], [argparse],
    [str.split], and [pathlib.Path.cwd].  What they answer is an input of
    the embedding, their failures included; [str.split()], which cuts a
    string into its words, is a parameter. *)

(** [s.strip('-')] *)
Fixpoint lstrip_dash (s : string) : string :=
  match s with
  | String a s' => if Ascii.eqb a "-" then lstrip_dash s' else s
  | EmptyString => s
  end.

Fixpoint rstrip_dash (s : string) : string :=
  match s with
  | EmptyString => EmptyString
  | String a s' =>
      match rstrip_dash s' with
      | EmptyString => if Ascii.eqb a "-" then EmptyString else String a EmptyString
      | r => String a r
      end
  end.

Definition strip_dash (s : string) : string := rstrip_dash (lstrip_dash s).

(** [COMMAND_LINE_OPTIONS]: the options in the order of the source, each
    with its [dest] when the source gives it one (the other keys of an
    entry are the conversions and defaults that [argparse] applies). *)
Definition COMMAND_LINE_OPTIONS : list (string * option string) :=
  [ ("build_command", None); ("artifact", None);
    ("--source-root", Some "source_root"); ("--variations", None);
    ("--dont-vary", Some "dont_vary"); ("--verbosity", None) ].

(** [MULTIPLET_OPTIONS], a set of which only membership is asked. *)
Definition MULTIPLET_OPTIONS : list string :=
  ["build_command"; "dont_vary"; "variations"].

(** The loop that fills [CONFIG_OPTIONS]. *)
Definition CONFIG_OPTIONS : list string :=
  map (fun entry => match snd entry with
                    | Some dest => dest
                    | None => strip_dash (fst entry)
                    end) COMMAND_LINE_OPTIONS.

(** What the section [basics] answers when an option that it has is read,
    [config['basics'][option]]: the value of the option after
    interpolation, or the exception that interpolation raises, given by its
    name. *)
Inductive Setting :=
| Reads (v : string)
| Refuses (error : string).

(** [config.read('.reprotestrc')]: the parser raises an exception, given
    by its name (a line before any section, a duplicate, bytes that cannot
    be decoded); or the file is parsed, or is not there, and the section
    [basics], when there is one, holds these options. *)
Inductive ConfigFile :=
| Unparsed (error : string)
| Parsed (basics : option (gmap string Setting)).

(** The exceptions that leave [config]. *)
Inductive ConfigExn :=
| MissingOption (k : string)        (* KeyError *)
| ParserError (error : string).     (* an exception of configparser *)

(** A value or an exception of [config]. *)
Inductive ConfigRes (A : Type) :=
| Got (a : A)
| Failed (e : ConfigExn).
Arguments Got {A} a.
Arguments Failed {A} e.

(** A value of the configuration file as [config] stores it: the string
    of the file, or its words. *)
Inductive Value :=
| Str (s : string)
| Words (l : list string).

(** [options[option] = v] on an ordered dictionary. *)
Fixpoint odict_set (options : list (string * Value)) (k : string) (v : Value)
  : list (string * Value) :=
  match options with
  | [] => [(k, v)]
  | (k', v') :: rest =>
      if decide (k = k') then (k, v) :: rest else (k', v') :: odict_set rest k v
  end.

(** [config['basics'][option]] *)
Definition section_getitem (basics : gmap string Setting) (option : string)
  : ConfigRes string :=
  match basics !! option with
  | Some (Reads v) => Got v
  | Some (Refuses error) => Failed (ParserError error)
  | None => Failed (MissingOption option)
  end.

(** A record of what was found on the command line, before the
    conversions of [COMMAND_LINE_OPTIONS] to words, to a path and to sets
    of names; [--verbosity] is the integer that [int] made of its
    argument. *)
Record Found := mkFound {
  arg_build_command : option string;
  arg_artifact : option string;
  arg_source_root : option string;
  arg_variations : option string;
  arg_dont_vary : option string;
  arg_verbosity : option Z
}.

(** [arg_parser.parse_args()]: [argparse] leaves the program itself, with
    status 2 when the command line is refused (an argument that [int]
    does not convert included) and with status 0 after [--help]; or it
    returns what it found. *)
Inductive ParseArgs :=
| ParserExit (code : Z)
| Namespace (found : Found).

(** The mapping that [command_line] returns: the converted arguments that
    are not [None].  [verbosity] has the default 0 and is always there. *)
Record CommandLine := mkCommandLine {
  cl_build_command : option (list string);
  cl_artifact : option string;
  cl_source_root : option pathlib.PurePath;
  cl_variations : option (gset string);
  cl_dont_vary : option (gset string);
  cl_verbosity : Z
}.

(** [frozenset(s.split(','))] *)
Definition names (s : string) : gset string := list_to_set (split "," s).

(** [pathlib.Path.cwd()]: the working directory, or the error of the
    system when it has none, given by its name. *)
Inductive Cwd :=
| CwdIs (p : pathlib.PurePath)
| CwdFails (error : string).

(** [config_options.get(k)] for an option that [config] stores as words,
    and for one that it stores as a string. *)
Definition get_words (k : string) (options : list (string * Value))
  : option (list string) :=
  match assoc k options with Some (Words l) => Some l | _ => None end.

Definition get_str (k : string) (options : list (string * Value)) : option string :=
  match assoc k options with Some (Str s) => Some s | _ => None end.

(** How a run of [main] ends. *)
Inductive MainResult :=
| ConfigRaised (e : ConfigExn)    (* the exception of [config], uncaught *)
| ArgparseExited (code : Z)       (* the exit of [argparse] *)
| CwdRaised (error : string)      (* the error of [Path.cwd()], uncaught *)
| Ended (r : Res unit).           (* [sys.exit(2)] of [main], or the end of [check] *)

(** What a run of [main] leaves: the lines that [main] printed itself,
    the level given to [logging.basicConfig] when it was called, how the
    run ended and the state. *)
Record MainRun := mkMainRun {
  printed : list string;
  log_level : option Z;
  result : MainResult;
  final : State
}.

Section Options.

(** [str.split()] *)
Variable str_split : string -> list string.

(** The loop [for option in CONFIG_OPTIONS] of [config]. *)
Fixpoint config_loop (basics : gmap string Setting) (todo : list string)
         (options : list (string * Value)) : ConfigRes (list (string * Value)) :=
  match todo with
  | [] => Got options
  | option :: rest =>
      if bool_decide (is_Some (basics !! option))
         && bool_decide (option ∈ MULTIPLET_OPTIONS)
      then
        match section_getitem basics option with
        | Got v => config_loop basics rest (odict_set options option (Words (str_split v)))
        | Failed e => Failed e
        end
      else
        match section_getitem basics option with
        | Got v => config_loop basics rest (odict_set options option (Str v))
        | Failed e => Failed e
        end
  end.

(** [config()] *)
Definition config (file : ConfigFile) : ConfigRes (list (string * Value)) :=
  match file with
  | Unparsed error => Failed (ParserError error)
  | Parsed (Some basics) => config_loop basics CONFIG_OPTIONS []
  | Parsed None => Got []
  end.

(** [command_line()]: the exit of [argparse], or the mapping of the
    converted arguments. *)
Definition command_line (parsed : ParseArgs) : Z + CommandLine :=
  match parsed with
  | ParserExit code => inl code
  | Namespace found =>
      inr (mkCommandLine (str_split <$> arg_build_command found)
                         (arg_artifact found)
                         (pathlib.Path <$> arg_source_root found)
                         (names <$> arg_variations found)
                         (names <$> arg_dont_vary found)
                         (default 0%Z (arg_verbosity found)))
  end.

(** What [config] stores for the option [k] of a section in which it can
    be read. *)
Definition stored (basics : gmap string Setting) (k : string) : Value :=
  let v := match basics !! k with Some (Reads v) => v | _ => "" end in
  if bool_decide (k ∈ MULTIPLET_OPTIONS) then Words (str_split v) else Str v.

Variable W : World.

(** [check] for a source root given by its string: [check] applies [str]
    to its argument, which is a path when it comes from the command line or
    from the working directory and a string when it comes from the
    configuration file. *)
Definition check_str (build_command : list string)
           (artifact_name : string) (source_root : string)
           (variations : list string) : M unit :=
  with_TemporaryDirectory W (fun temp =>
    let command1 := build_command in
    let command2 := build_command in
    env1 <- dict_copy os_environ ;;
    env2 <- dict_copy env1 ;;
    tree1 <- copytree W source_root (temp +:+ "/tree1") ;;
    tree2 <- copytree W source_root (temp +:+ "/tree2") ;;
    r <- try_ (guarded W temp artifact_name variations
                 (mkCtx command1 command2 env1 env2
                        (pathlib.Path tree1) (pathlib.Path tree2))) ;;
    match r with
    | Raise e => if is_Exception e then sys_exit 2 else raise e
    | Ok _ =>
        status <- call W (diffoscope temp) None None ;;
        sys_exit status
    end).

(** [main()], from what the parser of the configuration file, [argparse]
    and the system answer. *)
Definition main (file : ConfigFile) (parsed : ParseArgs) (cwd : Cwd)
           (st : State) : MainRun :=
  match config file with
  | Failed e => mkMainRun [] None (ConfigRaised e) st
  | Got config_options =>
      match command_line parsed with
      | inl code => mkMainRun [] None (ArgparseExited code) st
      | inr command_line_options =>
          let build_command :=
            match cl_build_command command_line_options with
            | Some l => Some l
            | None => get_words "build_command" config_options
            end in
          let artifact :=
            match cl_artifact command_line_options with
            | Some a => Some a
            | None => get_str "artifact" config_options
            end in
          match cwd with
          | CwdFails error => mkMainRun [] None (CwdRaised error) st
          | CwdIs here =>
              let source_root :=
                match cl_source_root command_line_options with
                | Some p => pathlib.str p
                | None => match get_str "source_root" config_options with
                          | Some s => s
                          | None => pathlib.str here
                          end
                end in
              let variations :=
                selected W (get_words "variations" config_options)
                         (get_words "dont_vary" config_options)
                         (cl_variations command_line_options)
                         (cl_dont_vary command_line_options) in
              let variations := restore_order W variations in
              let verbosity := cl_verbosity command_line_options in
              match build_command with
              | None | Some [] =>
                  mkMainRun ["No build command provided."] None
                            (Ended (Raise (SystemExit 2))) st
              | Some build_command =>
                  match artifact with
                  | None | Some EmptyString =>
                      mkMainRun
                        ["No build artifact to test for differences provided."]
                        None (Ended (Raise (SystemExit 2))) st
                  | Some artifact =>
                      let run := check_str build_command artifact source_root
                                           variations st in
                      mkMainRun [] (Some (30 - 10 * verbosity)%Z)
                                (Ended (fst run)) (snd run)
                  end
              end
          end
      end
  end.

End Options.

(** Inputs used as examples. *)
Definition ex_rc : gmap string Setting :=
  {[ "build_command" := Reads "make"; "artifact" := Reads "out.bin";
     "source_root" := Reads "src"; "variations" := Reads "home";
     "dont_vary" := Reads "kernel"; "verbosity" := Reads "1" ]}.

Definition ex_rc_short : gmap string Setting :=
  {[ "build_command" := Reads "make"; "artifact" := Reads "out.bin" ]}.

Definition ex_rc_percent : gmap string Setting :=
  {[ "build_command" := Refuses "InterpolationSyntaxError";
     "artifact" := Reads "out.bin" ]}.

(** ** A world in which nothing fails *)

(** Every action on the file system succeeds, every program can be
    started and exits with status 0, except that the diff tool exits with
    [d]. *)
Definition cooperative (W : World) (d : Z) : Prop :=
  (forall t a, io_ok W t a = true) /\
  (forall t line cwd env, spawn W t (Shell line) cwd env = Some 0%Z) /\
  (forall t prog args cwd env,
      spawn W t (Argv (prog :: args)) cwd env
      = Some (if String.eqb prog "diffoscope" then d else 0%Z)).

(** * Properties *)

Example normpath_ex1 :
  posixpath.normpath "/tmp/x/tree1/../out//a.txt" = "/tmp/x/out/a.txt".
Proof. vm_compute. reflexivity. Qed.

Example pathlib_ex1 :
  pathlib.str (pathlib.truediv (pathlib.parent (pathlib.Path "/tmp/x/tree2")) "disorderfs")
  = "/tmp/x/disorderfs".
Proof. vm_compute. reflexivity. Qed.

Example tz_offset_ex1 : tz_offset "GMT+12" = Some 12%Z /\ tz_offset "GMT-14" = Some (-14)%Z.
Proof. split; reflexivity. Qed.

Ltac run_in H :=
  cbv [bind ret raise try_ reraise yield setitem getitem snapshot
       dict_copy io call check_call enter_context sys_exit
       captures_environment domain_host fileordering home kernel locales
       path shell timezone umask user_group] in H;
  simpl in H;
  repeat match type of H with
    | context [io_ok ?W ?t ?a] => destruct (io_ok W t a) eqn:?; simpl in H
    | context [spawn ?W ?t ?c ?x ?y] =>
        destruct (spawn W t c x y) as [[|?|?]|] eqn:?; simpl in H
    | context [deref ?h ?l !! ?k] => destruct (deref h l !! k) eqn:?; simpl in H
    end.

Lemma deref_Some (h : list Env) l e : h !! l = Some e -> deref h l = e.
Proof. unfold deref. intros ->. reflexivity. Qed.

Lemma lookup_update_eq (h : list Env) l e x :
  h !! l = Some e -> <[l := x]> h !! l = Some x.
Proof. intros H. apply list_lookup_insert_eq. eapply lookup_lt_Some; eauto. Qed.

Lemma lookup_update_ne (h : list Env) l l' x :
  l <> l' -> <[l := x]> h !! l' = h !! l'.
Proof. intros H. apply list_lookup_insert_ne. exact H. Qed.

(** [heap_side] proves [h !! l = Some ?e] for a heap [h] built by updates
    at known locations; [heap_simpl] rewrites the lookups of the goal. *)
Ltac heap_side :=
  first
    [ eassumption
    | rewrite lookup_update_ne by congruence; heap_side
    | erewrite lookup_update_eq by heap_side; reflexivity ].

Ltac heap_simpl :=
  repeat first
    [ rewrite lookup_update_ne by congruence
    | erewrite lookup_update_eq by heap_side
    | erewrite deref_Some by heap_side ].

Section Steps.
Variable W : World.

(** The loop of [check] takes one [step] and goes on, or stops at the first
    exception. *)
Lemma enter_variations_cons n rest c st :
  enter_variations W (n :: rest) c st =
  match step W n c st with
  | (Ok c', st') => enter_variations W rest c' st'
  | (Raise e, st') => (Raise e, st')
  end.
Proof.
  unfold step. simpl. unfold bind.
  destruct (VARIATIONS_getitem W n st) as [[v|e] s1]; [|reflexivity].
  destruct (enter_context n (v c) s1) as [[c'|e] s2]; reflexivity.
Qed.

(** What one turn of the loop does, whatever the name: on success the
    documented effect on the context, the events and the exit stack; on
    failure nothing but events of the overlay set-up, none of them a
    successful mount. *)
Lemma step_inv n c st r st' :
  step W n c st = (r, st') ->
  exists d,
    trace st' = trace st ++ d /\
    Forall (fun e => is_overlay_setup e = true) d /\
    unmounted d = [] /\
    match r with
    | Ok c' =>
        c' = documented_ctx n c /\
        is_Some (assoc n (VARIATIONS W)) /\
        d = documented_events n c /\
        mounted d = pending_unmounts [(n, documented_frame n c)] /\
        exit_stack st' = (n, documented_frame n c) :: exit_stack st /\
        scopes st' = scopes st ++ [Entered n]
    | Raise e =>
        is_Exception e = true /\
        mounted d = [] /\
        heap st' = heap st /\
        exit_stack st' = exit_stack st /\
        scopes st' = scopes st
    end.
Proof.
  destruct c as [c1 c2 l1 l2 t1 t2].
  unfold step, VARIATIONS_getitem, VARIATIONS. simpl.
  repeat case_decide; subst; simpl.
  all: intros Hrun; run_in Hrun.
  all: injection Hrun as <- <-; simpl.
  all: try (exists []; rewrite app_nil_r; repeat split;
            try (eexists; reflexivity); try reflexivity; constructor).
  - eexists; split; [rewrite <- app_assoc; reflexivity|].
    repeat split; try (eexists; reflexivity); repeat constructor.
  - eexists; split; [rewrite <- app_assoc; reflexivity|].
    repeat split; repeat constructor.
  - eexists; split; [rewrite <- app_assoc; reflexivity|].
    repeat split; repeat constructor.
  - eexists; split; [rewrite <- app_assoc; reflexivity|].
    repeat split; repeat constructor.
  - eexists; split; [reflexivity|].
    repeat split; repeat constructor.
Qed.

(** What one successful turn of the loop does to the dictionaries: only
    the two environments of the context are written, with the documented
    contents. *)
Lemma step_heap n c st c' st' :
  step W n c st = (Ok c', st') ->
  length (heap st') = length (heap st) /\
  (forall l, l <> env1 c -> l <> env2 c -> heap st' !! l = heap st !! l) /\
  (n = "path" -> is_Some (deref (heap st) (env1 c) !! "PATH")) /\
  (forall e1 e2,
      heap st !! env1 c = Some e1 -> heap st !! env2 c = Some e2 ->
      env1 c <> env2 c ->
      heap st' !! env1 c = Some (documented_envA n e1) /\
      heap st' !! env2 c = Some (documented_envB n e1 e2)).
Proof.
  destruct c as [c1 c2 l1 l2 t1 t2].
  unfold step, VARIATIONS_getitem, VARIATIONS. simpl.
  repeat case_decide; subst; simpl.
  all: intros Hrun; run_in Hrun.
  all: try discriminate Hrun.
  all: injection Hrun as <- <-; simpl.
  all: rewrite ?length_insert.
  all: split; [reflexivity|].
  all: split; [intros l Hl1 Hl2; rewrite ?list_lookup_insert_ne by congruence; reflexivity|].
  all: split; [try discriminate; try (intros _; eexists; reflexivity)|].
  all: intros e1 e2 He1 He2 Hne.
  all: try (erewrite deref_Some in Heqo by eauto).
  all: unfold documented_envA, documented_envB; simpl.
  all: try rewrite Heqo.
  all: split.
  all: try assumption.
  all: heap_simpl.
  all: try reflexivity; try assumption.
Qed.

Lemma mounted_app d1 d2 : mounted (d1 ++ d2) = mounted d1 ++ mounted d2.
Proof. apply omap_app. Qed.

Lemma unmounted_app d1 d2 : unmounted (d1 ++ d2) = unmounted d1 ++ unmounted d2.
Proof. apply omap_app. Qed.

Lemma pending_unmounts_app k1 k2 :
  pending_unmounts (k1 ++ k2) = pending_unmounts k1 ++ pending_unmounts k2.
Proof. apply omap_app. Qed.

(** The loop as a whole: the variations entered are a prefix of the list,
    all of it on success; their callbacks are on the exit stack, last
    entered first; the successful mounts are the pending unmounts. *)
Lemma enter_variations_inv vs : forall c st r st',
  enter_variations W vs c st = (r, st') ->
  exists entered d frames,
    trace st' = trace st ++ d /\
    Forall (fun e => is_overlay_setup e = true) d /\
    unmounted d = [] /\
    mounted d = rev (pending_unmounts frames) /\
    exit_stack st' = frames ++ exit_stack st /\
    map fst frames = rev entered /\
    scopes st' = scopes st ++ map Entered entered /\
    entered `prefix_of` vs /\
    length (heap st') = length (heap st) /\
    (forall l, l <> env1 c -> l <> env2 c -> heap st' !! l = heap st !! l) /\
    (forall e1 e2,
        heap st !! env1 c = Some e1 -> heap st !! env2 c = Some e2 ->
        env1 c <> env2 c ->
        heap st' !! env1 c = Some (fst (foldl documented_envs (e1, e2) entered)) /\
        heap st' !! env2 c = Some (snd (foldl documented_envs (e1, e2) entered))) /\
    match r with
    | Ok c' =>
        entered = vs /\
        c' = foldl (fun c n => documented_ctx n c) c vs /\
        d = documented_trace c vs /\
        Forall (fun n => is_Some (assoc n (VARIATIONS W))) vs
    | Raise e => is_Exception e = true
    end.
Proof.
  induction vs as [|n rest IH]; intros c st r st' Hrun.
  - injection Hrun as <- <-.
    exists [], [], []. rewrite app_nil_r. simpl. rewrite app_nil_r.
    split_and!; try constructor; try reflexivity; try assumption.
  - rewrite enter_variations_cons in Hrun.
    destruct (step W n c st) as [[c1|e] st1] eqn:Hstep.
    + destruct (step_inv _ _ _ _ _ Hstep)
        as (d1 & Ht1 & Hs1 & Hu1 & -> & Hknown & Hd1 & Hm1 & Hk1 & Hsc1).
      destruct (step_heap _ _ _ _ _ Hstep) as (Hlen1 & Hfr1 & _ & Hab1).
      destruct (IH _ _ _ _ Hrun)
        as (entered & d & frames & Ht & Hs & Hu & Hm & Hk & Hf & Hsc & Hpre
            & Hlen & Hfr & Hab & Hr).
      exists (n :: entered), (d1 ++ d), (frames ++ [(n, documented_frame n c)]).
      rewrite Ht, Ht1, Hk, Hk1, Hsc, Hsc1, Hlen, Hlen1.
      rewrite mounted_app, unmounted_app, pending_unmounts_app, rev_app_distr.
      rewrite Hu, Hu1, Hm, Hm1, <- !app_assoc, map_app, Hf. simpl.
      split_and!; try reflexivity.
      * apply Forall_app; split; assumption.
      * destruct (documented_frame n c); reflexivity.
      * apply prefix_cons. exact Hpre.
      * intros l Hl1 Hl2. rewrite Hfr by assumption. apply Hfr1; assumption.
      * intros e1 e2 He1 He2 Hne.
        destruct (Hab1 e1 e2) as [HA HB]; try assumption.
        apply (Hab _ _ HA HB Hne).
      * destruct r as [c'|e]; [|exact Hr].
        destruct Hr as (-> & -> & -> & Hall).
        rewrite Hd1. split_and!; try reflexivity. constructor; assumption.
    + injection Hrun as <- <-.
      destruct (step_inv _ _ _ _ _ Hstep)
        as (d1 & Ht1 & Hs1 & Hu1 & Hexc & Hm1 & Hh1 & Hk1 & Hsc1).
      exists [], d1, []. rewrite Hh1, Hk1, Hsc1, app_nil_r. simpl.
      split_and!; try assumption; try reflexivity.
      * apply prefix_nil.
      * intros e1 e2 He1 He2 _. split; assumption.
Qed.
End Steps.

Section Unwind.
Variable W : World.

Lemma resume_inv g st r st' :
  resume W g st = (r, st') ->
  exists d,
    trace st' = trace st ++ d /\
    Forall (fun e => is_unmount e = true) d /\
    unmounted d = pending_unmounts [("", g)] /\
    heap st' = heap st /\ scopes st' = scopes st /\
    exit_stack st' = exit_stack st /\
    match r with
    | Ok _ => Forall (fun e => is_unmount_failure e = false) d
    | Raise e => is_Exception e = true /\
                 Exists (fun e => is_unmount_failure e = true) d
    end.
Proof.
  destruct g as [|mp]; simpl; intros Hrun; run_in Hrun.
  all: injection Hrun as <- <-; simpl.
  all: eexists; split; [try reflexivity; symmetry; apply app_nil_r|].
  all: split_and!; try reflexivity; repeat constructor.
Qed.

(** Unwinding never stops early: every callback of the stack is run, top
    first, and an exception is left pending when one was pending before or
    an unmount failed. *)
Lemma run_callbacks_inv k : forall pending st r st',
  run_callbacks W k pending st = (r, st') ->
  exists d p',
    r = Ok p' /\
    trace st' = trace st ++ d /\
    Forall (fun e => is_unmount e = true) d /\
    unmounted d = pending_unmounts k /\
    mounted d = [] /\
    heap st' = heap st /\
    scopes st' = scopes st ++ map Left (map fst k) /\
    exit_stack st' = match k with [] => exit_stack st | _ => [] end /\
    match pending with
    | Some e => exists e', p' = Some e' /\
                           (is_Exception e = true -> is_Exception e' = true)
    | None =>
        (p' = None /\ Forall (fun e => is_unmount_failure e = false) d) \/
        (exists e', p' = Some e' /\ is_Exception e' = true /\
                    Exists (fun e => is_unmount_failure e = true) d)
    end.
Proof.
  induction k as [|[name g] rest IH]; intros pending st r st' Hrun.
  - injection Hrun as <- <-. exists [], pending.
    rewrite !app_nil_r. split_and!; try reflexivity; try constructor.
    destruct pending as [e|]; [exists e; auto|left; split; [reflexivity|constructor]].
  - simpl in Hrun. unfold bind, try_ in Hrun.
    destruct (resume W g (log_scope (Left name) (set_exit_stack rest st)))
      as [r1 st1] eqn:Hres.
    destruct (resume_inv _ _ _ _ Hres)
      as (d1 & Ht1 & Hc1 & Hu1 & Hh1 & Hsc1 & Hk1 & Hr1).
    simpl in Ht1, Hh1, Hsc1, Hk1.
    destruct (IH _ _ _ _ Hrun)
      as (d & p' & -> & Ht & Hc & Hu & Hm & Hh & Hsc & Hk & Hp).
    exists (d1 ++ d), p'.
    rewrite Ht, Ht1, Hh, Hh1, Hsc, Hsc1, Hk, Hk1, unmounted_app, Hu, mounted_app, Hm.
    simpl in Hu1 |- *. rewrite Hu1, <- !app_assoc.
    split_and!; try reflexivity.
    + apply Forall_app; split; assumption.
    + destruct g; reflexivity.
    + rewrite app_nil_r. clear -Hc1.
      induction Hc1 as [|e l He _ IHl]; [reflexivity|].
      destruct e as [|[[|p [|? [|? [|? [|]]]]]|] ? ? [[| |]|]]; simpl in *;
        try discriminate; try assumption.
      all: apply String.eqb_eq in He; subst p; simpl; assumption.
    + destruct rest; reflexivity.
    + destruct r1 as [[]|e1].
      * destruct pending as [e|]; [exact Hp|].
        destruct Hp as [[-> Hall]|(e' & -> & He' & Hex)].
        -- left. split; [reflexivity|]. apply Forall_app; split; assumption.
        -- right. exists e'. split_and!; try reflexivity; try assumption.
           apply Exists_app. right. exact Hex.
      * destruct Hr1 as [He1 Hex1].
        destruct Hp as (e' & -> & He').
        destruct pending as [e|].
        -- exists e'. split; [reflexivity|]. intros _. auto.
        -- right. exists e'. split_and!; auto.
           apply Exists_app. left. exact Hex1.
Qed.
End Unwind.

Section Guarded.
Variable W : World.

Lemma both_builds_inv temp art c st r st' :
  both_builds W temp art c st = (r, st') ->
  exists d,
    trace st' = trace st ++ d /\
    Forall (fun e => is_build_step e = true) d /\
    heap st' = heap st /\ scopes st' = scopes st /\
    exit_stack st' = exit_stack st /\
    match r with
    | Ok _ => builds_done d = 2 /\
              Forall (fun e => is_build_failure e = false) d
    | Raise e => is_Exception e = true /\ builds_done d < 2
    end.
Proof.
  unfold both_builds, build, open_wb. intros Hrun. run_in Hrun.
  all: injection Hrun as <- <-; simpl.
  all: eexists; split; [rewrite <- ?app_assoc; reflexivity|].
  all: split_and!; try reflexivity; repeat constructor.
Qed.

(** The [with] block of [check], whatever its result: entering, the two
    builds, unwinding. *)
Lemma guarded_inv temp art vs c st r st' :
  guarded W temp art vs c st = (r, st') ->
  exists entered d_enter d_body d_exit,
    trace st' = trace st ++ d_enter ++ d_body ++ d_exit /\
    Forall (fun e => is_overlay_setup e = true) d_enter /\
    Forall (fun e => is_build_step e = true) d_body /\
    Forall (fun e => is_unmount e = true) d_exit /\
    unmounted d_exit = rev (mounted d_enter) /\
    scopes st' = scopes st ++ map Entered entered ++ map Left (rev entered) /\
    entered `prefix_of` vs /\
    exit_stack st' = [] /\
    length (heap st') = length (heap st) /\
    (forall l, l <> env1 c -> l <> env2 c -> heap st' !! l = heap st !! l) /\
    (forall e1 e2,
        heap st !! env1 c = Some e1 -> heap st !! env2 c = Some e2 ->
        env1 c <> env2 c ->
        heap st' !! env1 c = Some (fst (foldl documented_envs (e1, e2) entered)) /\
        heap st' !! env2 c = Some (snd (foldl documented_envs (e1, e2) entered))) /\
    (d_body = [] \/
     (entered = vs /\ Forall (fun n => is_Some (assoc n (VARIATIONS W))) vs)) /\
    match r with
    | Ok _ =>
        builds_done d_body = 2 /\
        Forall (fun e => is_build_failure e = false) d_body /\
        Forall (fun e => is_unmount_failure e = false) d_exit
    | Raise e =>
        is_Exception e = true /\
        (builds_done d_body < 2 \/
         Exists (fun e => is_unmount_failure e = true) d_exit)
    end.
Proof.
  unfold guarded, with_ExitStack. intros Hrun.
  unfold bind at 1 in Hrun. unfold try_ at 1 in Hrun.
  unfold bind at 1 in Hrun.
  destruct (enter_variations W vs c (set_exit_stack [] st)) as [r1 st1] eqn:Henter.
  destruct (enter_variations_inv _ _ _ _ _ _ Henter)
    as (entered & d1 & frames & Ht1 & Hc1 & Hu1 & Hm1 & Hk1 & Hf1 & Hsc1 & Hpre
        & Hlen1 & Hfr1 & Hab1 & Hr1).
  simpl in Ht1, Hk1, Hsc1, Hlen1, Hfr1, Hab1. rewrite app_nil_r in Hk1.
  assert (Hmaps : map Left (map fst frames) = map Left (rev entered))
    by (rewrite Hf1; reflexivity).
  assert (Hun : pending_unmounts frames = rev (mounted d1))
    by (rewrite Hm1, rev_involutive; reflexivity).
  destruct r1 as [c1|e1].
  - destruct (both_builds W temp art c1 st1) as [r2 st2] eqn:Hbuilds.
    destruct (both_builds_inv _ _ _ _ _ _ Hbuilds)
      as (d2 & Ht2 & Hc2 & Hh2 & Hsc2 & Hk2 & Hr2).
    unfold bind at 1 in Hrun.
    destruct (run_callbacks W (exit_stack st2)
                match r2 with Ok _ => None | Raise e => Some e end st2)
      as [r3 st3] eqn:Hcb.
    destruct (run_callbacks_inv _ _ _ _ _ _ Hcb)
      as (d3 & p' & -> & Ht3 & Hc3 & Hu3 & Hm3 & Hh3 & Hsc3 & Hk3 & Hp).
    rewrite Hk2, Hk1 in Hu3, Hsc3, Hk3.
    destruct Hr1 as (-> & _ & _ & Hknown).
    assert (Hst3 : exit_stack st3 = []).
    { rewrite Hk3. destruct frames; reflexivity. }
    exists vs, d1, d2, d3.
    assert (Hfinal : st' = st3 /\
              match r with
              | Ok _ =>
                  builds_done d2 = 2 /\
                  Forall (fun e => is_build_failure e = false) d2 /\
                  Forall (fun e => is_unmount_failure e = false) d3
              | Raise e =>
                  is_Exception e = true /\
                  (builds_done d2 < 2 \/
                   Exists (fun e => is_unmount_failure e = true) d3)
              end).
    { destruct r2 as [[]|e2].
      - destruct Hp as [[-> Hall]|(e' & -> & He' & Hex)].
        + injection Hrun as <- <-. destruct Hr2. auto.
        + injection Hrun as <- <-. auto.
      - destruct Hp as (e' & -> & He'). injection Hrun as <- <-.
        destruct Hr2. auto. }
    destruct Hfinal as [-> Hfinal].
    rewrite Ht3, Ht2, Ht1, Hsc3, Hsc2, Hsc1, Hh3, Hh2, Hlen1, Hu3, Hmaps, Hun,
      <- !app_assoc.
    split_and!; try reflexivity; try assumption.
    right. auto.
  - unfold bind at 1 in Hrun.
    destruct (run_callbacks W (exit_stack st1) (Some e1) st1) as [r3 st3] eqn:Hcb.
    destruct (run_callbacks_inv _ _ _ _ _ _ Hcb)
      as (d3 & p' & -> & Ht3 & Hc3 & Hu3 & Hm3 & Hh3 & Hsc3 & Hk3 & Hp).
    rewrite Hk1 in Hu3, Hsc3, Hk3.
    destruct Hp as (e' & -> & He'). injection Hrun as <- <-.
    exists entered, d1, [], d3.
    rewrite Ht3, Ht1, Hsc3, Hsc1, Hh3, Hlen1, Hu3, Hmaps, Hun, <- !app_assoc.
    split_and!; try reflexivity; try assumption; try constructor.
    + rewrite Hk3. destruct frames; reflexivity.
    + reflexivity.
    + auto.
    + unfold builds_done. simpl. lia.
Qed.
End Guarded.

Ltac find_event :=
  solve [repeat first [apply Exists_cons_hd; reflexivity | apply Exists_cons_tl]].

Section Check.
Variable W : World.

(** [check] either fails in its set-up, or runs its [with] block from the
    set-up state and maps the result to an exit status; the removal of the
    temporary directory comes last and its failure replaces the result. *)
Lemma check_inv cmd art root vs environ r st' :
  check W cmd art root vs (initial_state environ) = (r, st') ->
  let temp := temp_name W in
  (exists a, r = Raise (OSError a) /\
             Forall (fun e => is_setup_step e = true) (trace st') /\
             Exists (fun e => is_setup_failure e = true) (trace st') /\
             (heap st' = [environ] \/ heap st' = [environ; environ; environ]) /\
             scopes st' = []) \/
  (exists rg stg ok,
      guarded W temp art vs (setup_ctx temp cmd) (setup_state temp root environ)
      = (rg, stg) /\
      heap st' = heap stg /\ scopes st' = scopes stg /\
      match rg with
      | Raise e =>
          is_Exception e = true ->
          ok = io_ok W (trace stg) (Rmtree temp) /\
          r = after_removal temp ok (Raise (SystemExit 2)) /\
          trace st' = trace stg ++ [EvIO (Rmtree temp) ok]
      | Ok _ =>
          exists status,
            status = spawn W (trace stg) (diffoscope temp) None None /\
            ok = io_ok W (trace stg ++ [EvRun (diffoscope temp) None None status])
                       (Rmtree temp) /\
            trace st' = trace stg ++ [EvRun (diffoscope temp) None None status;
                                      EvIO (Rmtree temp) ok] /\
            r = after_removal temp ok
                  match status with
                  | Some d => Raise (SystemExit d)
                  | None => Raise (SpawnError (diffoscope temp))
                  end
      end).
Proof.
  unfold check, with_TemporaryDirectory, copytree. intros Hrun. set (temp := temp_name W) in *.
  cbv [bind ret raise try_ reraise dict_copy io sys_exit] in Hrun.
  simpl in Hrun.
  destruct (io_ok W [] Mkdtemp) eqn:H0; simpl in Hrun.
  2:{ injection Hrun as <- <-. left. eexists. simpl.
      split_and!; try reflexivity; [repeat constructor|find_event|auto]. }
  destruct (io_ok W [EvIO Mkdtemp true] _) eqn:H1; simpl in Hrun.
  2:{ destruct (io_ok W _ (Rmtree temp)); simpl in Hrun;
        injection Hrun as <- <-; left; eexists; simpl;
        (split_and!; try reflexivity; [repeat constructor|find_event|auto]). }
  destruct (io_ok W [EvIO Mkdtemp true; _] _) eqn:H2; simpl in Hrun.
  2:{ destruct (io_ok W _ (Rmtree temp)); simpl in Hrun;
        injection Hrun as <- <-; left; eexists; simpl;
        (split_and!; try reflexivity; [repeat constructor|find_event|auto]). }
  right.
  match type of Hrun with
  | context [guarded W ?a ?b ?c ?d ?s] =>
      change s with (setup_state temp root environ) in Hrun;
      change d with (setup_ctx temp cmd) in Hrun;
      destruct (guarded W a b c (setup_ctx temp cmd) (setup_state temp root environ))
        as [[[]|e] stg] eqn:Hg
  end.
  - unfold call in Hrun. simpl in Hrun.
    destruct (spawn W (trace stg) (diffoscope temp) None None)
      as [d|] eqn:Hd; simpl in Hrun.
    + exists (Ok tt), stg,
        (io_ok W (trace stg ++ [EvRun (diffoscope temp) None None (Some d)])
               (Rmtree temp)).
      split; [reflexivity|].
      destruct (io_ok W _ (Rmtree temp)) eqn:Hok; simpl in Hrun;
        injection Hrun as <- <-; simpl.
      all: split_and!; try reflexivity; exists (Some d).
      all: split_and!; try reflexivity; try (symmetry; exact Hd);
        try (symmetry; exact Hok); rewrite <- ?app_assoc; reflexivity.
    + exists (Ok tt), stg,
        (io_ok W (trace stg ++ [EvRun (diffoscope temp) None None None])
               (Rmtree temp)).
      split; [reflexivity|].
      destruct (io_ok W _ (Rmtree temp)) eqn:Hok; simpl in Hrun;
        injection Hrun as <- <-; simpl.
      all: split_and!; try reflexivity; exists None.
      all: split_and!; try reflexivity; try (symmetry; exact Hd);
        try (symmetry; exact Hok); rewrite <- ?app_assoc; reflexivity.
  - exists (Raise e), stg, (io_ok W (trace stg) (Rmtree temp)).
    split; [reflexivity|].
    destruct (is_Exception e) eqn:He; simpl in Hrun.
    + destruct (io_ok W (trace stg) (Rmtree temp)); simpl in Hrun;
        injection Hrun as <- <-; simpl.
      all: split_and!; try reflexivity; intros _; split_and!; reflexivity.
    + destruct (io_ok W (trace stg) (Rmtree temp)); simpl in Hrun;
        injection Hrun as <- <-; simpl.
      all: split_and!; try reflexivity; discriminate.
Qed.
End Check.

(** ** Classes of events *)

Ltac event_cases e :=
  destruct e as [[] [|]|[[|? ?]|?] ? ? [[| |]|]]; simpl;
  try discriminate; try (repeat split; reflexivity).

Ltac by_prog :=
  let H := fresh in
  intros H; apply String.eqb_eq in H; subst; repeat split; reflexivity.

Lemma overlay_setup_class e :
  is_overlay_setup e = true ->
  is_build e = false /\ is_diff e = false /\ is_build_failure e = false /\
  is_build_done e = false /\ is_unmount_failure e = false /\
  is_setup_failure e = false.
Proof. event_cases e; by_prog. Qed.

Lemma unmount_class e :
  is_unmount e = true ->
  is_build e = false /\ is_diff e = false /\ is_build_failure e = false /\
  is_build_done e = false /\ is_mount e = false /\ is_copytree e = false.
Proof. event_cases e; by_prog. Qed.

Lemma build_step_class e :
  is_build_step e = true ->
  is_diff e = false /\ is_unmount_failure e = false /\ is_mount e = false /\
  is_copytree e = false.
Proof. event_cases e. Qed.

Lemma setup_step_class e :
  is_setup_step e = true ->
  is_build e = false /\ is_diff e = false /\ is_build_failure e = false /\
  is_build_done e = false /\ is_unmount_failure e = false /\ is_mount e = false.
Proof. event_cases e. Qed.

Lemma mounted_none d :
  Forall (fun e => is_build_step e = true \/ is_unmount e = true \/
                   is_setup_step e = true) d ->
  mounted d = [].
Proof.
  induction 1 as [|e l He _ IH]; [reflexivity|].
  simpl. rewrite IH.
  destruct e as [|[[|p [|? [|? [|? [|]]]]]|] ? ? [[| |]|]]; simpl in *;
    try reflexivity.
  destruct He as [He|[He|He]]; try discriminate.
  apply String.eqb_eq in He. subst. reflexivity.
Qed.

Lemma unmounted_none d :
  Forall (fun e => is_build_step e = true \/ is_overlay_setup e = true \/
                   is_setup_step e = true) d ->
  unmounted d = [].
Proof.
  induction 1 as [|e l He _ IH]; [reflexivity|].
  simpl. rewrite IH.
  destruct e as [|[[|p [|? [|? [|]]]]|] ? ? ?]; simpl in *; try reflexivity.
  destruct He as [He|[He|He]]; try discriminate.
  apply String.eqb_eq in He. subst. reflexivity.
Qed.

Lemma filter_none {A} (f : A -> bool) l :
  Forall (fun x => f x = false) l -> List.filter f l = [].
Proof.
  induction 1 as [|x l Hx _ IH]; [reflexivity|]. simpl. rewrite Hx. exact IH.
Qed.

Lemma builds_done_app d1 d2 :
  builds_done (d1 ++ d2) = builds_done d1 + builds_done d2.
Proof. unfold builds_done. rewrite List.filter_app, length_app. reflexivity. Qed.

Lemma builds_done_none d :
  Forall (fun e => is_build_done e = false) d -> builds_done d = 0.
Proof. intros H. unfold builds_done. rewrite filter_none by exact H. reflexivity. Qed.

(** Weakening of a class of events to a consequence of it. *)
Ltac weaken H lem :=
  eapply Forall_impl; [exact H|];
  let e := fresh "e" in let He := fresh "He" in
  intros e He; pose proof (lem e He); simpl in *; intuition.

Lemma list3_eq {A} (l : list A) x y z :
  length l = 3 -> l !! 0 = Some x -> l !! 1 = Some y -> l !! 2 = Some z ->
  l = [x; y; z].
Proof.
  destruct l as [|a [|b [|c [|]]]]; simpl; try discriminate.
  intros _ [= ->] [= ->] [= ->]. reflexivity.
Qed.

Lemma fold_envA p vs :
  fst (foldl documented_envs p vs) = foldl (fun e n => documented_envA n e) (fst p) vs.
Proof.
  revert p. induction vs as [|n vs IH]; intros p; [reflexivity|].
  simpl. rewrite IH. reflexivity.
Qed.

Section Shape.
Variable W : World.

(** The shape of every run of [check]. *)
Lemma check_shape cmd art root vs environ r st' :
  check W cmd art root vs (initial_state environ) = (r, st') ->
  (exists a, r = Raise (OSError a) /\
             Forall (fun e => is_setup_step e = true) (trace st') /\
             Exists (fun e => is_setup_failure e = true) (trace st') /\
             (heap st' = [environ] \/ heap st' = [environ; environ; environ]) /\
             scopes st' = []) \/
  (exists entered d_enter d_body d_exit tail ok,
      trace st' = setup_events (temp_name W) root
                    ++ d_enter ++ d_body ++ d_exit ++ tail /\
      Forall (fun e => is_overlay_setup e = true) d_enter /\
      Forall (fun e => is_build_step e = true) d_body /\
      Forall (fun e => is_unmount e = true) d_exit /\
      unmounted d_exit = rev (mounted d_enter) /\
      scopes st' = map Entered entered ++ map Left (rev entered) /\
      entered `prefix_of` vs /\
      heap st' = [environ;
                  foldl (fun e n => documented_envA n e) environ entered;
                  snd (foldl documented_envs (environ, environ) entered)] /\
      (d_body = [] \/
       (entered = vs /\ Forall (fun n => is_Some (assoc n (VARIATIONS W))) vs)) /\
      ((builds_done d_body = 2 /\
        Forall (fun e => is_build_failure e = false) d_body /\
        Forall (fun e => is_unmount_failure e = false) d_exit /\
        exists status,
          tail = [EvRun (diffoscope (temp_name W)) None None status;
                  EvIO (Rmtree (temp_name W)) ok] /\
          r = after_removal (temp_name W) ok
                match status with
                | Some d => Raise (SystemExit d)
                | None => Raise (SpawnError (diffoscope (temp_name W)))
                end) \/
       ((builds_done d_body < 2 \/
         Exists (fun e => is_unmount_failure e = true) d_exit) /\
        tail = [EvIO (Rmtree (temp_name W)) ok] /\
        r = after_removal (temp_name W) ok (Raise (SystemExit 2))))).
Proof.
  intros Hrun. destruct (check_inv _ _ _ _ _ _ _ _ Hrun) as [Hfail|Hok].
  { left. exact Hfail. }
  right. destruct Hok as (rg & stg & ok & Hg & Hh & Hsc & Hrg).
  destruct (guarded_inv _ _ _ _ _ _ _ _ Hg)
    as (entered & d1 & d2 & d3 & Ht & Hc1 & Hc2 & Hc3 & Hun & Hscg & Hpre & _
        & Hlen & Hfr & Hab & Hbody & Hres).
  simpl in Ht, Hscg, Hlen, Hfr, Hab.
  destruct (Hab environ environ) as [HA HB]; try reflexivity; try lia.
  assert (Hheap : heap stg =
                  [environ;
                   foldl (fun e n => documented_envA n e) environ entered;
                   snd (foldl documented_envs (environ, environ) entered)]).
  { apply list3_eq; try assumption.
    - rewrite Hfr by lia. reflexivity.
    - rewrite HA, fold_envA. reflexivity. }
  destruct rg as [[]|e].
  - destruct Hrg as (status & _ & _ & Htr & Hr).
    destruct Hres as (Hdone & Hnf & Hnu).
    exists entered, d1, d2, d3,
      [EvRun (diffoscope (temp_name W)) None None status;
       EvIO (Rmtree (temp_name W)) ok], ok.
    rewrite Htr, Ht, Hh, Hsc, Hscg, Hheap. unfold setup_events. simpl.
    rewrite <- ?app_assoc.
    split_and!; try reflexivity; try assumption.
    left. split_and!; try assumption. exists status. split; [reflexivity|exact Hr].
  - destruct Hres as (He & Hres). destruct (Hrg He) as (_ & -> & Htr).
    exists entered, d1, d2, d3, [EvIO (Rmtree (temp_name W)) ok], ok.
    rewrite Htr, Ht, Hh, Hsc, Hscg, Hheap. unfold setup_events. simpl.
    rewrite <- ?app_assoc.
    split_and!; try reflexivity; try assumption.
    right. split_and!; try reflexivity; assumption.
Qed.
End Shape.

Section Claims.
Variable W : World.

(** C1 (as amended): when a selected name is not in the registry, [check]
    never runs a build command and never invokes the diff tool.  The names
    are looked up after the temporary directory and the two tree copies
    are made: once that set-up is done, [check] removes the directory and
    exits with status 2, or raises the error of the removal when the
    removal fails; when the set-up fails, an error is raised. *)
Theorem C1_unknown_variation cmd art root vs environ r st' :
  check W cmd art root vs (initial_state environ) = (r, st') ->
  (exists n, n ∈ vs /\ assoc n (VARIATIONS W) = None) ->
  Forall (fun e => is_build e = false /\ is_diff e = false) (trace st') /\
  ((setup_events (temp_name W) root `prefix_of` trace st' /\
    exists ok,
      last (trace st') = Some (EvIO (Rmtree (temp_name W)) ok) /\
      r = if ok then Raise (SystemExit 2)
          else Raise (OSError (Rmtree (temp_name W)))) \/
   (exists a, r = Raise (OSError a) /\
              Exists (fun e => is_setup_failure e = true) (trace st'))).
Proof.
  intros Hrun (n & Hin & Hn).
  destruct (check_shape _ _ _ _ _ _ _ _ Hrun)
    as [(a & -> & Hall & Hex & _)
       |(entered & d1 & d2 & d3 & tl & ok & Ht & Hc1 & Hc2 & Hc3 & _ & _ & _ & _
         & Hbody & Hres)].
  - split; [weaken Hall setup_step_class|]. right. eauto.
  - assert (Hd2 : d2 = []).
    { destruct Hbody as [H|[_ Hknown]]; [exact H|].
      rewrite Forall_forall in Hknown. destruct (Hknown n Hin) as [v Hv].
      congruence. }
    subst d2.
    destruct Hres as [(Hdone & _)|(_ & -> & ->)]; [discriminate Hdone|].
    rewrite Ht. split.
    + repeat (apply Forall_app; split).
      * unfold setup_events. repeat constructor.
      * weaken Hc1 overlay_setup_class.
      * constructor.
      * weaken Hc3 unmount_class.
      * repeat constructor.
    + left. split; [apply prefix_app_r; reflexivity|].
      exists ok. split; [|reflexivity].
      rewrite !app_assoc. apply last_snoc.
Qed.

(** C2: whatever happens inside the [with] block of [check], the scopes
    that were entered are left in the reverse order of their entry, and
    the unmount commands that were run are exactly the mount points of the
    successful mounts, in reverse order, each after all the mounts; this
    holds in the state in which the block hands its result, or its
    exception, to [check]. *)
Theorem C2_scopes_left_in_reverse temp art vs c st :
  let st' := snd (guarded W temp art vs c st) in
  exists entered d1 d2,
    entered `prefix_of` vs /\
    scopes st' = scopes st ++ map Entered entered ++ map Left (rev entered) /\
    trace st' = trace st ++ d1 ++ d2 /\
    unmounted d1 = [] /\ mounted d2 = [] /\
    unmounted d2 = rev (mounted d1) /\
    (forall mp, count_occ string_dec (unmounted (d1 ++ d2)) mp
                = count_occ string_dec (mounted (d1 ++ d2)) mp) /\
    exit_stack st' = [].
Proof.
  destruct (guarded W temp art vs c st) as [r st'] eqn:Hg. simpl.
  destruct (guarded_inv _ _ _ _ _ _ _ _ Hg)
    as (entered & d1 & d2 & d3 & Ht & Hc1 & Hc2 & Hc3 & Hun & Hsc & Hpre & Hk & _).
  assert (Hu12 : unmounted (d1 ++ d2) = []).
  { apply unmounted_none. apply Forall_app; split;
      (eapply Forall_impl; [eassumption|]); simpl; auto. }
  assert (Hm3 : mounted d3 = []).
  { apply mounted_none. eapply Forall_impl; [eassumption|]. simpl. auto. }
  assert (Hm2 : mounted d2 = []).
  { apply mounted_none. eapply Forall_impl; [eassumption|]. simpl. auto. }
  exists entered, (d1 ++ d2), d3.
  split_and!; try reflexivity; try assumption.
  - rewrite Ht, <- !app_assoc. reflexivity.
  - rewrite mounted_app, Hm2, app_nil_r. exact Hun.
  - intros mp. rewrite unmounted_app, Hu12, !mounted_app, Hm2, Hm3, Hun, !app_nil_r.
    simpl. apply count_occ_rev.
Qed.

(** C3 (as amended): when a build command does not exit with status 0, or
    a declared artifact cannot be opened after its build command, the diff
    tool is never run; [check] removes the temporary directory and exits
    with status 2, unless the removal fails, in which case it raises the
    error of the removal. *)
Theorem C3_build_failure_exits_2 cmd art root vs environ r st' :
  check W cmd art root vs (initial_state environ) = (r, st') ->
  Exists (fun e => is_build_failure e = true) (trace st') ->
  Forall (fun e => is_diff e = false) (trace st') /\
  exists ok,
    last (trace st') = Some (EvIO (Rmtree (temp_name W)) ok) /\
    r = if ok then Raise (SystemExit 2)
        else Raise (OSError (Rmtree (temp_name W))).
Proof.
  intros Hrun Hex.
  destruct (check_shape _ _ _ _ _ _ _ _ Hrun)
    as [(a & -> & Hall & _)
       |(entered & d1 & d2 & d3 & tl & ok & Ht & Hc1 & Hc2 & Hc3 & _ & _ & _ & _
         & _ & Hres)].
  - exfalso. rewrite Exists_exists in Hex. destruct Hex as (e & Hin & He).
    rewrite Forall_forall in Hall. pose proof (setup_step_class e (Hall e Hin)).
    intuition congruence.
  - destruct Hres as [(_ & Hnf & _ & status & -> & _)|(_ & -> & ->)].
    + exfalso. rewrite Ht in Hex.
      rewrite !Exists_app in Hex.
      assert (Hno : forall d, Forall (fun e => is_build_failure e = false) d ->
                              ~ Exists (fun e => is_build_failure e = true) d).
      { intros d Hd Hx. rewrite Exists_exists in Hx. destruct Hx as (e & Hin & He).
        rewrite Forall_forall in Hd. rewrite (Hd e Hin) in He. discriminate. }
      destruct Hex as [Hx|[Hx|[Hx|[Hx|Hx]]]]; revert Hx; apply Hno.
      * unfold setup_events. repeat constructor.
      * weaken Hc1 overlay_setup_class.
      * exact Hnf.
      * weaken Hc3 unmount_class.
      * repeat constructor.
    + split.
      * rewrite Ht. repeat (apply Forall_app; split).
        -- unfold setup_events. repeat constructor.
        -- weaken Hc1 overlay_setup_class.
        -- weaken Hc2 build_step_class.
        -- weaken Hc3 unmount_class.
        -- repeat constructor.
      * exists ok. split; [|reflexivity].
        rewrite Ht, !app_assoc. apply last_snoc.
Qed.

(** C4 (as amended): when both builds ran to their end and no unmount
    command failed, [check] runs the diff tool exactly once, on the two
    artifact files, then removes the temporary directory and exits with
    exactly the status that the tool returned; when the removal fails, it
    raises the error of the removal instead. *)
Theorem C4_diff_status_passed_through cmd art root vs environ r st' :
  check W cmd art root vs (initial_state environ) = (r, st') ->
  builds_done (trace st') = 2 ->
  Forall (fun e => is_unmount_failure e = false) (trace st') ->
  exists status ok,
    List.filter is_diff (trace st')
    = [EvRun (Argv ["diffoscope"; temp_name W +:+ "/artifact1";
                    temp_name W +:+ "/artifact2"]) None None status] /\
    last (trace st') = Some (EvIO (Rmtree (temp_name W)) ok) /\
    r = if ok then
          match status with
          | Some d => Raise (SystemExit d)
          | None => Raise (SpawnError (diffoscope (temp_name W)))
          end
        else Raise (OSError (Rmtree (temp_name W))).
Proof.
  intros Hrun Hdone Hnu.
  destruct (check_shape _ _ _ _ _ _ _ _ Hrun)
    as [(a & -> & Hall & _)
       |(entered & d1 & d2 & d3 & tl & ok & Ht & Hc1 & Hc2 & Hc3 & _ & _ & _ & _
         & _ & Hres)].
  - exfalso. rewrite builds_done_none in Hdone; [discriminate|].
    weaken Hall setup_step_class.
  - assert (H1 : builds_done d1 = 0)
      by (apply builds_done_none; weaken Hc1 overlay_setup_class).
    assert (H3 : builds_done d3 = 0)
      by (apply builds_done_none; weaken Hc3 unmount_class).
    rewrite Ht in Hdone, Hnu.
    rewrite !builds_done_app, H1, H3 in Hdone.
    destruct Hres as [(_ & _ & _ & status & -> & ->)|([Hlt|Hex] & -> & _)].
    + exists status, ok. split_and!; [|rewrite Ht|reflexivity].
      * rewrite Ht, !List.filter_app.
        rewrite (filter_none is_diff d1) by (weaken Hc1 overlay_setup_class).
        rewrite (filter_none is_diff d2) by (weaken Hc2 build_step_class).
        rewrite (filter_none is_diff d3) by (weaken Hc3 unmount_class).
        reflexivity.
      * change [EvRun (diffoscope (temp_name W)) None None status;
                EvIO (Rmtree (temp_name W)) ok]
          with ([EvRun (diffoscope (temp_name W)) None None status]
                ++ [EvIO (Rmtree (temp_name W)) ok]).
        rewrite !app_assoc. apply last_snoc.
    + exfalso. unfold builds_done in Hdone at 1 3. simpl in Hdone. lia.
    + exfalso. rewrite Exists_exists in Hex. destruct Hex as (e & Hin & He).
      rewrite !Forall_app in Hnu. destruct Hnu as (_ & _ & _ & Hnu3 & _).
      rewrite Forall_forall in Hnu3. rewrite (Hnu3 e Hin) in He. discriminate.
Qed.
End Claims.

Lemma if_dec_same {P : Prop} (d : Decision P) {A} (x : A) :
  (if d then x else x) = x.
Proof. destruct d; reflexivity. Qed.

Lemma foldl_filter {A B} (f : A -> B -> A) (P : B -> Prop)
      `{!forall x, Decision (P x)} (l : list B) : forall a,
  foldl f a (filter P l) = foldl (fun a x => if decide (P x) then f a x else a) a l.
Proof.
  induction l as [|x l IH]; intros a; [reflexivity|].
  rewrite filter_cons. simpl. destruct (decide (P x)); simpl; apply IH.
Qed.

Lemma documented_ctx_neutral n c :
  cmd_prefix n = [] -> String.eqb n "fileordering" = false ->
  documented_ctx n c = c.
Proof.
  intros H1 H2. destruct c. unfold documented_ctx. rewrite H1, H2. reflexivity.
Qed.

Section Expected.
Variable W : World.

Lemma expected_ctx_explicit S c :
  expected_ctx W S c =
  mkCtx (command1 c)
        ((if decide ("umask" ∈ S) then ["umask"; "0002;"] else []) ++
         (if decide ("kernel" ∈ S) then ["linux64"; "--uname-2.6"] else []) ++
         command2 c)
        (env1 c) (env2 c) (tree1 c)
        (if decide ("fileordering" ∈ S) then overlay (tree2 c) else tree2 c).
Proof.
  unfold expected_ctx, VARIATIONS_keys, VARIATIONS. cbn [foldl map fst].
  rewrite (documented_ctx_neutral "user_group") by reflexivity.
  rewrite (documented_ctx_neutral "timezone") by reflexivity.
  rewrite (documented_ctx_neutral "shell") by reflexivity.
  rewrite (documented_ctx_neutral "path") by reflexivity.
  rewrite (documented_ctx_neutral "locales") by reflexivity.
  rewrite (documented_ctx_neutral "home") by reflexivity.
  rewrite (documented_ctx_neutral "domain_host") by reflexivity.
  rewrite (documented_ctx_neutral "captures_environment") by reflexivity.
  rewrite !if_dec_same.
  destruct c as [c1 c2 l1 l2 t1 t2].
  repeat case_decide; reflexivity.
Qed.

Lemma restore_order_fold_ctx S c :
  foldl (fun c n => documented_ctx n c) c (restore_order W S) = expected_ctx W S c.
Proof. unfold restore_order, expected_ctx. apply foldl_filter. Qed.

Lemma restore_order_fold_envs S p :
  foldl documented_envs p (restore_order W S) = expected_envs W S p.
Proof. unfold restore_order, expected_envs. apply foldl_filter. Qed.

Lemma documented_trace_app c l1 l2 :
  documented_trace c (l1 ++ l2) =
  documented_trace c l1
    ++ documented_trace (foldl (fun c n => documented_ctx n c) c l1) l2.
Proof.
  revert c. induction l1 as [|n l1 IH]; intros c; [reflexivity|].
  simpl. rewrite IH, app_assoc. reflexivity.
Qed.

Lemma documented_trace_quiet l : forall c,
  Forall (fun n => String.eqb n "fileordering" = false) l ->
  documented_trace c l = [] /\
  tree2 (foldl (fun c n => documented_ctx n c) c l) = tree2 c.
Proof.
  induction l as [|n l IH]; intros c Hl; [split; reflexivity|].
  inversion Hl as [|? ? Hn Hl']; subst. simpl.
  destruct (IH (documented_ctx n c) Hl') as [-> ->].
  unfold documented_events. simpl. rewrite Hn. split; reflexivity.
Qed.

Lemma restore_order_split S :
  restore_order W S =
  filter (fun v => v ∈ S) ["captures_environment"; "domain_host"]
  ++ (if decide ("fileordering" ∈ S) then ["fileordering"] else [])
  ++ filter (fun v => v ∈ S) ["home"; "kernel"; "locales"]
  ++ (if decide ("path" ∈ S) then ["path"] else [])
  ++ filter (fun v => v ∈ S) ["shell"; "timezone"; "umask"; "user_group"].
Proof.
  unfold restore_order, VARIATIONS_keys, VARIATIONS. cbn [map fst].
  change ["captures_environment"; "domain_host"; "fileordering"; "home";
          "kernel"; "locales"; "path"; "shell"; "timezone"; "umask";
          "user_group"]
    with (["captures_environment"; "domain_host"] ++ ["fileordering"]
          ++ ["home"; "kernel"; "locales"] ++ ["path"]
          ++ ["shell"; "timezone"; "umask"; "user_group"]).
  rewrite !filter_app. rewrite !(filter_cons _ _ []), !filter_nil.
  reflexivity.
Qed.

Lemma Forall_filter_of {A} (P Q : A -> Prop) `{!forall x, Decision (P x)} l :
  Forall Q l -> Forall Q (filter P l).
Proof.
  induction 1 as [|x l Hx _ IH]; [constructor|].
  rewrite filter_cons. destruct (decide (P x)); [constructor|]; assumption.
Qed.

Lemma restore_order_trace S c :
  documented_trace c (restore_order W S) = expected_events S c.
Proof.
  rewrite restore_order_split, !documented_trace_app.
  set (l1 := filter _ ["captures_environment"; "domain_host"]).
  set (l3 := filter _ ["home"; "kernel"; "locales"]).
  set (l5 := filter _ ["shell"; "timezone"; "umask"; "user_group"]).
  assert (H1 : Forall (fun n => String.eqb n "fileordering" = false) l1)
    by (apply Forall_filter_of; repeat constructor).
  assert (H3 : Forall (fun n => String.eqb n "fileordering" = false) l3)
    by (apply Forall_filter_of; repeat constructor).
  assert (H5 : Forall (fun n => String.eqb n "fileordering" = false) l5)
    by (apply Forall_filter_of; repeat constructor).
  assert (H4 : Forall (fun n => String.eqb n "fileordering" = false)
                      (if decide ("path" ∈ S) then ["path"] else []))
    by (case_decide; repeat constructor).
  destruct (documented_trace_quiet l1 c H1) as [-> Ht1].
  rewrite (proj1 (documented_trace_quiet l3 _ H3)).
  rewrite (proj1 (documented_trace_quiet _ _ H4)).
  rewrite (proj1 (documented_trace_quiet l5 _ H5)).
  rewrite !app_nil_r. simpl.
  unfold expected_events. destruct (decide ("fileordering" ∈ S)); [|reflexivity].
  simpl. unfold documented_events. simpl. rewrite Ht1, ?app_nil_r. reflexivity.
Qed.
End Expected.

Section Totality.
Variable W : World.

Lemma enter_variations_app l1 : forall l2 c st,
  enter_variations W (l1 ++ l2) c st =
  match enter_variations W l1 c st with
  | (Ok c1, st1) => enter_variations W l2 c1 st1
  | (Raise e, st1) => (Raise e, st1)
  end.
Proof.
  induction l1 as [|n l1 IH]; intros l2 c st; [reflexivity|].
  rewrite <- app_comm_cons, !enter_variations_cons.
  destruct (step W n c st) as [[c1|e] st1]; [apply IH|reflexivity].
Qed.

Lemma step_plain_total n c st :
  is_plain n = true -> exists c1 st1, step W n c st = (Ok c1, st1).
Proof.
  unfold is_plain. simpl. rewrite !orb_true_iff.
  intros H. repeat (destruct H as [H|H]; [apply String.eqb_eq in H; subst|]);
    try discriminate; unfold step, VARIATIONS_getitem; simpl;
    cbv [bind ret yield setitem enter_context captures_environment
         domain_host home kernel locales shell timezone umask user_group];
    eauto.
Qed.

Lemma plain_total l : forall c st,
  Forall (fun n => is_plain n = true) l ->
  exists c1 st1, enter_variations W l c st = (Ok c1, st1).
Proof.
  induction l as [|n l IH]; intros c st Hl; [simpl; unfold ret; eauto|].
  inversion Hl as [|? ? Hn Hl']; subst.
  rewrite enter_variations_cons.
  destruct (step_plain_total n c st Hn) as (c1 & st1 & ->). apply IH, Hl'.
Qed.

Lemma fileordering_total c st :
  io_ok W (trace st) (Mkdir (pathlib.str (overlay (tree2 c)))) = true ->
  spawn W (trace st ++ [EvIO (Mkdir (pathlib.str (overlay (tree2 c)))) true])
        (mount_cmd (tree2 c) (overlay (tree2 c))) None None = Some 0%Z ->
  exists c1 st1, enter_variations W ["fileordering"] c st = (Ok c1, st1).
Proof.
  intros H1 H2. unfold enter_variations, VARIATIONS_getitem. simpl.
  cbv [bind ret fileordering io check_call call enter_context].
  fold (overlay (tree2 c)). rewrite H1. simpl.
  fold (mount_cmd (tree2 c) (overlay (tree2 c))). rewrite H2. simpl. eauto.
Qed.

Lemma path_total c st p :
  deref (heap st) (env1 c) !! "PATH" = Some p ->
  exists c1 st1, enter_variations W ["path"] c st = (Ok c1, st1).
Proof.
  intros H. unfold enter_variations, VARIATIONS_getitem. simpl.
  cbv [bind ret path getitem setitem yield enter_context].
  rewrite H. simpl. eauto.
Qed.

Lemma documented_envA_PATH n e :
  documented_envA n e !! "PATH" = e !! "PATH".
Proof.
  unfold documented_envA.
  repeat (case_match; [rewrite lookup_insert_ne by discriminate; reflexivity|]).
  reflexivity.
Qed.

Lemma fold_envA_PATH l : forall e,
  foldl (fun e n => documented_envA n e) e l !! "PATH" = e !! "PATH".
Proof.
  induction l as [|n l IH]; intros e; [reflexivity|].
  simpl. rewrite IH. apply documented_envA_PATH.
Qed.
End Totality.

Lemma fold_ctx_envs l : forall c,
  env1 (foldl (fun c n => documented_ctx n c) c l) = env1 c /\
  env2 (foldl (fun c n => documented_ctx n c) c l) = env2 c.
Proof.
  induction l as [|n l IH]; intros c; [split; reflexivity|].
  simpl. destruct (IH (documented_ctx n c)) as [-> ->]. split; reflexivity.
Qed.

Section Pipeline.
Variable W : World.

Lemma plain_quiet l :
  Forall (fun n => is_plain n = true) l ->
  Forall (fun n => String.eqb n "fileordering" = false) l.
Proof.
  intros Hl. eapply Forall_impl; [exact Hl|]. intros n. unfold is_plain. simpl.
  rewrite !orb_true_iff.
  intros H. repeat (destruct H as [H|H]; [apply String.eqb_eq in H; subst; reflexivity|]).
  discriminate.
Qed.

Lemma chain_total l1 l2 l3 l4 l5 c st e1 e2 :
  heap st !! env1 c = Some e1 -> heap st !! env2 c = Some e2 ->
  env1 c <> env2 c ->
  Forall (fun n => is_plain n = true) l1 ->
  Forall (fun n => is_plain n = true) l3 ->
  Forall (fun n => is_plain n = true) l5 ->
  (l2 = [] \/
   (l2 = ["fileordering"] /\
    io_ok W (trace st) (Mkdir (pathlib.str (overlay (tree2 c)))) = true /\
    spawn W (trace st ++ [EvIO (Mkdir (pathlib.str (overlay (tree2 c)))) true])
          (mount_cmd (tree2 c) (overlay (tree2 c))) None None = Some 0%Z)) ->
  (l4 = [] \/ (l4 = ["path"] /\ is_Some (e1 !! "PATH"))) ->
  exists c' st',
    enter_variations W (l1 ++ l2 ++ l3 ++ l4 ++ l5) c st = (Ok c', st').
Proof.
  intros He1 He2 Hne H1 H3 H5 Hl2 Hl4.
  destruct (plain_total W l1 c st H1) as (c1 & st1 & R1).
  destruct (enter_variations_inv _ _ _ _ _ _ R1)
    as (? & d1 & ? & Ht1 & _ & _ & _ & _ & _ & _ & _ & _ & _ & _
        & (-> & -> & -> & _)).
  destruct (documented_trace_quiet l1 c (plain_quiet l1 H1)) as [Hd1 Htree1].
  rewrite Hd1, app_nil_r in Ht1.
  assert (R2 : exists c2 st2,
             enter_variations W l2 (foldl (fun c n => documented_ctx n c) c l1) st1
             = (Ok c2, st2)).
  { destruct Hl2 as [->|(-> & Hmk & Hmt)].
    - simpl. unfold ret. eauto.
    - apply fileordering_total; rewrite Htree1, Ht1; assumption. }
  destruct R2 as (c2 & st2 & R2).
  destruct (plain_total W l3 c2 st2 H3) as (c3 & st3 & R3).
  assert (R123 : enter_variations W (l1 ++ l2 ++ l3) c st = (Ok c3, st3)).
  { rewrite enter_variations_app, R1, enter_variations_app, R2. exact R3. }
  destruct (enter_variations_inv _ _ _ _ _ _ R123)
    as (? & ? & ? & _ & _ & _ & _ & _ & _ & _ & _ & _ & _ & Hab
        & (-> & Hc3 & _ & _)).
  destruct (Hab e1 e2 He1 He2 Hne) as [HA _].
  rewrite fold_envA in HA. simpl in HA.
  assert (R4 : exists c4 st4, enter_variations W l4 c3 st3 = (Ok c4, st4)).
  { destruct Hl4 as [->|(-> & p & Hp)].
    - simpl. unfold ret. eauto.
    - apply (path_total W c3 st3 p).
      rewrite Hc3, (proj1 (fold_ctx_envs _ c)).
      erewrite deref_Some by exact HA. rewrite fold_envA_PATH. exact Hp. }
  destruct R4 as (c4 & st4 & R4).
  destruct (plain_total W l5 c4 st4 H5) as (c5 & st5 & R5).
  exists c5, st5.
  rewrite !app_assoc, enter_variations_app, enter_variations_app.
  rewrite <- !app_assoc, R123, R4. exact R5.
Qed.

Lemma restore_order_total (S : gset string) c st e1 e2 :
  heap st !! env1 c = Some e1 -> heap st !! env2 c = Some e2 ->
  env1 c <> env2 c ->
  ("path" ∈ S -> is_Some (e1 !! "PATH")) ->
  ("fileordering" ∈ S ->
   io_ok W (trace st) (Mkdir (pathlib.str (overlay (tree2 c)))) = true /\
   spawn W (trace st ++ [EvIO (Mkdir (pathlib.str (overlay (tree2 c)))) true])
         (mount_cmd (tree2 c) (overlay (tree2 c))) None None = Some 0%Z) ->
  exists c' st', enter_variations W (restore_order W S) c st = (Ok c', st').
Proof.
  intros He1 He2 Hne Hpath Hfo.
  rewrite restore_order_split.
  apply (chain_total _ _ _ _ _ c st e1 e2 He1 He2 Hne).
  - apply Forall_filter_of; repeat constructor.
  - apply Forall_filter_of; repeat constructor.
  - apply Forall_filter_of; repeat constructor.
  - match goal with
    | |- context [@decide ?P ?d] => destruct (@decide P d) as [Hin|_]
    end; [right|left; reflexivity].
    split; [reflexivity|]. apply Hfo, Hin.
  - match goal with
    | |- context [@decide ?P ?d] => destruct (@decide P d) as [Hin|_]
    end; [right|left; reflexivity].
    split; [reflexivity|]. apply Hpath, Hin.
Qed.

(** Without options, [main] selects every variation of the registry, in
    its order. *)
Lemma restore_order_default :
  restore_order W (selected W None None None None) = VARIATIONS_keys W.
Proof. vm_compute. reflexivity. Qed.

(** C5: the selected names are put back in the order of the registry,
    each known selected name once; when the pipeline runs over that list
    and yields a context, the context, the contents of the two
    environments and the events are those of the documented effects of
    the selected variations, each applied once in the order of the
    registry, the variations that are not selected having no effect; and
    the pipeline does yield a context when [PATH] is set if [path] is
    selected and the overlay can be created and mounted if [fileordering]
    is selected. *)
Theorem C5_selected_variations_applied_once (S : gset string) c st e1 e2 :
  heap st !! env1 c = Some e1 -> heap st !! env2 c = Some e2 ->
  env1 c <> env2 c ->
  restore_order W S `sublist_of` VARIATIONS_keys W /\
  NoDup (restore_order W S) /\
  (forall v, v ∈ restore_order W S <-> v ∈ S /\ v ∈ VARIATIONS_keys W) /\
  (forall c' st',
      enter_variations W (restore_order W S) c st = (Ok c', st') ->
      c' = expected_ctx W S c /\
      command1 c' = command1 c /\
      command2 c' =
        (if decide ("umask" ∈ S) then ["umask"; "0002;"] else []) ++
        (if decide ("kernel" ∈ S) then ["linux64"; "--uname-2.6"] else []) ++
        command2 c /\
      tree1 c' = tree1 c /\
      tree2 c' = (if decide ("fileordering" ∈ S) then overlay (tree2 c)
                  else tree2 c) /\
      heap st' !! env1 c = Some (fst (expected_envs W S (e1, e2))) /\
      heap st' !! env2 c = Some (snd (expected_envs W S (e1, e2))) /\
      (forall l, l <> env1 c -> l <> env2 c -> heap st' !! l = heap st !! l) /\
      trace st' = trace st ++ expected_events S c /\
      scopes st' = scopes st ++ map Entered (restore_order W S)) /\
  (("path" ∈ S -> is_Some (e1 !! "PATH")) ->
   ("fileordering" ∈ S ->
    io_ok W (trace st) (Mkdir (pathlib.str (overlay (tree2 c)))) = true /\
    spawn W (trace st ++ [EvIO (Mkdir (pathlib.str (overlay (tree2 c)))) true])
          (mount_cmd (tree2 c) (overlay (tree2 c))) None None = Some 0%Z) ->
   exists c' st', enter_variations W (restore_order W S) c st = (Ok c', st')).
Proof.
  intros He1 He2 Hne. split_and!.
  - apply sublist_filter.
  - apply NoDup_filter. unfold VARIATIONS_keys, VARIATIONS. cbn [map fst].
    apply (bool_decide_unpack _). vm_compute. exact I.
  - intros v. unfold restore_order.
    apply (list_elem_of_filter (fun v => v ∈ S)).
  - intros c' st' Hrun.
    destruct (enter_variations_inv _ _ _ _ _ _ Hrun)
      as (? & d & ? & Ht & _ & _ & _ & _ & _ & Hsc & _ & _ & Hfr & Hab
          & (-> & -> & -> & _)).
    destruct (Hab e1 e2 He1 He2 Hne) as [HA HB].
    rewrite restore_order_fold_envs in HA, HB.
    rewrite restore_order_trace in Ht.
    rewrite restore_order_fold_ctx, expected_ctx_explicit. simpl.
    split_and!; try reflexivity; assumption.
  - apply (restore_order_total S c st e1 e2); assumption.
Qed.

(** C9: with [kernel] and [umask] both selected, in the order of the
    registry, command B becomes the [umask] statement, then the [linux64]
    wrapper, then the original command, and command A is unchanged; with
    exactly these two selected the pipeline always yields that context. *)
Theorem C9_kernel_then_umask (S : gset string) c st :
  "kernel" ∈ S -> "umask" ∈ S ->
  (forall c' st',
      enter_variations W (restore_order W S) c st = (Ok c', st') ->
      command2 c' = ["umask"; "0002;"; "linux64"; "--uname-2.6"] ++ command2 c /\
      command1 c' = command1 c) /\
  (restore_order W {["kernel"; "umask"]} = ["kernel"; "umask"] /\
   exists st',
     enter_variations W ["kernel"; "umask"] c st
     = (Ok (set_command2 (["umask"; "0002;"; "linux64"; "--uname-2.6"]
                            ++ command2 c) c), st')).
Proof.
  intros Hk Hu. split; [|split].
  - intros c' st' Hrun.
    destruct (enter_variations_inv _ _ _ _ _ _ Hrun)
      as (? & ? & ? & _ & _ & _ & _ & _ & _ & _ & _ & _ & _ & _
          & (-> & -> & _ & _)).
    rewrite restore_order_fold_ctx, expected_ctx_explicit. simpl.
    rewrite (decide_True _ _ Hk), (decide_True _ _ Hu). split; reflexivity.
  - vm_compute. reflexivity.
  - destruct c. eexists. reflexivity.
Qed.
End Pipeline.

Section Single.
Variable W : World.

(** C6: [timezone] sets [TZ] in environment A to an offset of one sign
    and [TZ] in environment B to an offset of the other sign; it yields
    the context it was given, commands and tree paths unchanged, and
    touches nothing else. *)
Theorem C6_timezone_opposite_offsets c st e1 e2 :
  heap st !! env1 c = Some e1 -> heap st !! env2 c = Some e2 ->
  env1 c <> env2 c ->
  exists st' tzA tzB a b,
    timezone c st = (Ok (c, AfterYield), st') /\
    heap st' !! env1 c = Some (<["TZ" := tzA]> e1) /\
    heap st' !! env2 c = Some (<["TZ" := tzB]> e2) /\
    tz_offset tzA = Some a /\ tz_offset tzB = Some b /\
    (0 < a)%Z /\ (b < 0)%Z /\
    (forall l, l <> env1 c -> l <> env2 c -> heap st' !! l = heap st !! l) /\
    trace st' = trace st /\ exit_stack st' = exit_stack st /\
    scopes st' = scopes st.
Proof.
  intros He1 He2 Hne.
  eexists _, "GMT+12", "GMT-14", 12%Z, (-14)%Z.
  split; [reflexivity|]. simpl.
  split_and!; try reflexivity; try lia.
  - heap_simpl. reflexivity.
  - heap_simpl. reflexivity.
  - intros l Hl1 Hl2. heap_simpl. reflexivity.
Qed.

(** C7: [captures_environment] sets the one key [CAPTURE_ENVIRONMENT] of
    environment B to its fixed value and changes nothing else: it yields
    the context it was given, every other key of environment B keeps its
    value, and environment A and every other dictionary are untouched. *)
Theorem C7_captures_environment_frame c st e1 e2 :
  heap st !! env1 c = Some e1 -> heap st !! env2 c = Some e2 ->
  env1 c <> env2 c ->
  exists st' e2',
    captures_environment c st = (Ok (c, AfterYield), st') /\
    heap st' !! env2 c = Some e2' /\
    e2' !! "CAPTURE_ENVIRONMENT" = Some "i_capture_the_environment" /\
    (forall k, k <> "CAPTURE_ENVIRONMENT" -> e2' !! k = e2 !! k) /\
    heap st' !! env1 c = Some e1 /\
    (forall l, l <> env2 c -> heap st' !! l = heap st !! l) /\
    trace st' = trace st /\ exit_stack st' = exit_stack st /\
    scopes st' = scopes st.
Proof.
  intros He1 He2 Hne.
  eexists _, (<["CAPTURE_ENVIRONMENT" := "i_capture_the_environment"]> e2).
  split; [reflexivity|]. simpl.
  split_and!; try reflexivity.
  - heap_simpl. reflexivity.
  - apply lookup_insert_eq.
  - intros k Hk. apply lookup_insert_ne. congruence.
  - heap_simpl. exact He1.
  - intros l Hl. heap_simpl. reflexivity.
Qed.

(** C8: without the key [PATH] in environment A, [path] raises
    [KeyError] and changes nothing; with it, [path] yields the context it
    was given and sets [PATH] in environment B to the value in
    environment A followed by the suffix. *)
Theorem C8_path_needs_PATH c st e1 e2 :
  heap st !! env1 c = Some e1 -> heap st !! env2 c = Some e2 ->
  (e1 !! "PATH" = None -> path c st = (Raise (KeyError "PATH"), st)) /\
  (forall p, e1 !! "PATH" = Some p ->
     exists st',
       path c st = (Ok (c, AfterYield), st') /\
       heap st' !! env2 c = Some (<["PATH" := p +:+ "/i_capture_the_path"]> e2) /\
       (forall l, l <> env2 c -> heap st' !! l = heap st !! l) /\
       trace st' = trace st).
Proof.
  intros He1 He2. unfold path, bind, getitem.
  rewrite (deref_Some _ _ _ He1). split.
  - intros ->. reflexivity.
  - intros p ->. eexists. split; [reflexivity|]. simpl.
    split_and!; try reflexivity.
    + heap_simpl. reflexivity.
    + intros l Hl. heap_simpl. reflexivity.
Qed.

(** C10: [check] works on two fresh dictionaries, environment A a copy of
    the process environment and environment B a copy of environment A;
    whatever the variations and the outside world do, the process
    environment is the same at the end of [check], and environment A holds
    the process environment changed by the writes that the entered
    variations make to environment A alone, whatever they wrote to
    environment B. *)
Theorem C10_environments_independent cmd art root vs environ :
  let copies := (env1 <- dict_copy os_environ ;;
                 env2 <- dict_copy env1 ;;
                 ret (env1, env2)) (initial_state environ) in
  let st' := snd (check W cmd art root vs (initial_state environ)) in
  copies = (Ok (1, 2), mkState [environ; environ; environ] [] [] []) /\
  heap st' !! os_environ = Some environ /\
  (heap st' = [environ] \/
   exists entered,
     entered `prefix_of` vs /\
     scopes st' = map Entered entered ++ map Left (rev entered) /\
     heap st' = [environ;
                 foldl (fun e n => documented_envA n e) environ entered;
                 snd (foldl documented_envs (environ, environ) entered)]).
Proof.
  simpl. split; [reflexivity|].
  destruct (check W cmd art root vs (initial_state environ)) as [r st'] eqn:Hrun.
  simpl.
  destruct (check_shape _ _ _ _ _ _ _ _ Hrun)
    as [(a & _ & _ & _ & [Hh|Hh] & Hsc)
       |(entered & d1 & d2 & d3 & tl & ok & _ & _ & _ & _ & _ & Hsc & Hpre & Hh & _)].
  - rewrite Hh. split; [reflexivity|]. left. reflexivity.
  - rewrite Hh. split; [reflexivity|]. right. exists [].
    split_and!; [apply prefix_nil|exact Hsc|reflexivity].
  - rewrite Hh. split; [reflexivity|]. right. exists entered.
    split_and!; [exact Hpre|exact Hsc|reflexivity].
Qed.
End Single.

Lemma C1_unknown_variation_witness :
  (exists n, n ∈ ["fileordering"; "nosuch"] /\
             assoc n (VARIATIONS (world [] 0)) = None) /\
  Forall (fun e => is_build e = false /\ is_diff e = false)
         (trace (snd run_unknown)) /\
  ((setup_events (temp_name (world [] 0)) ex_root `prefix_of` trace (snd run_unknown) /\
    exists ok,
      last (trace (snd run_unknown))
      = Some (EvIO (Rmtree (temp_name (world [] 0))) ok) /\
      fst run_unknown = if ok then Raise (SystemExit 2)
                        else Raise (OSError (Rmtree (temp_name (world [] 0))))) \/
   (exists a, fst run_unknown = Raise (OSError a) /\
              Exists (fun e => is_setup_failure e = true) (trace (snd run_unknown)))).
Proof.
  assert (H : exists n, n ∈ ["fileordering"; "nosuch"] /\
                        assoc n (VARIATIONS (world [] 0)) = None).
  { exists "nosuch". split; [repeat constructor|reflexivity]. }
  split; [exact H|].
  apply (C1_unknown_variation (world [] 0) ["make"] "out.bin" ex_root
           ["fileordering"; "nosuch"] ex_environ (fst run_unknown) (snd run_unknown)).
  - vm_compute. reflexivity.
  - exact H.
Defined.

(** C1 as stated fails: with an unknown name after [fileordering], both
    tree copies are made and the overlay is mounted before the lookup of
    the unknown name fails. *)
Lemma C1_counterexample :
  (exists n, n ∈ ["fileordering"; "nosuch"] /\
             assoc n (VARIATIONS (world [] 0)) = None) /\
  Exists (fun e => is_copytree e = true) (trace (snd run_unknown)) /\
  Exists (fun e => is_mount e = true) (trace (snd run_unknown)) /\
  fst run_unknown = Raise (SystemExit 2).
Proof.
  split_and!.
  - exists "nosuch". split; [repeat constructor|reflexivity].
  - vm_compute. find_event.
  - vm_compute. find_event.
  - vm_compute. reflexivity.
Qed.

Lemma C3_build_failure_exits_2_witness :
  Exists (fun e => is_build_failure e = true) (trace (snd run_build_fails)) /\
  Forall (fun e => is_diff e = false) (trace (snd run_build_fails)) /\
  exists ok,
    last (trace (snd run_build_fails))
    = Some (EvIO (Rmtree (temp_name (world ["make"] 0))) ok) /\
    fst run_build_fails = if ok then Raise (SystemExit 2)
                          else Raise (OSError (Rmtree (temp_name (world ["make"] 0)))).
Proof.
  assert (H : Exists (fun e => is_build_failure e = true)
                     (trace (snd run_build_fails))).
  { vm_compute. find_event. }
  split; [exact H|].
  apply (C3_build_failure_exits_2 (world ["make"] 0) ["make"] "out.bin" ex_root
           [] ex_environ (fst run_build_fails) (snd run_build_fails)).
  - vm_compute. reflexivity.
  - exact H.
Defined.

(** C3 as stated fails: the build command exits with status 1, the
    temporary directory cannot be removed when [check] leaves its [with]
    block, and [check] raises the error of the removal: the exit status 2
    is lost. *)
Lemma C3_counterexample :
  Exists (fun e => is_build_failure e = true)
         (trace (snd run_build_fails_temp_kept)) /\
  fst run_build_fails_temp_kept = Raise (OSError (Rmtree "/tmp/t")) /\
  fst run_build_fails_temp_kept <> Raise (SystemExit 2).
Proof.
  split_and!.
  - vm_compute. find_event.
  - vm_compute. reflexivity.
  - vm_compute. discriminate.
Qed.

Lemma C4_diff_status_passed_through_witness :
  builds_done (trace (snd run_differs)) = 2 /\
  Forall (fun e => is_unmount_failure e = false) (trace (snd run_differs)) /\
  exists status ok,
    List.filter is_diff (trace (snd run_differs))
    = [EvRun (Argv ["diffoscope"; temp_name (world [] 3) +:+ "/artifact1";
                    temp_name (world [] 3) +:+ "/artifact2"]) None None status] /\
    last (trace (snd run_differs))
    = Some (EvIO (Rmtree (temp_name (world [] 3))) ok) /\
    fst run_differs
    = if ok then
        match status with
        | Some d => Raise (SystemExit d)
        | None => Raise (SpawnError (diffoscope (temp_name (world [] 3))))
        end
      else Raise (OSError (Rmtree (temp_name (world [] 3)))).
Proof.
  assert (H1 : builds_done (trace (snd run_differs)) = 2) by (vm_compute; reflexivity).
  assert (H2 : Forall (fun e => is_unmount_failure e = false)
                      (trace (snd run_differs)))
    by (vm_compute; repeat constructor).
  split; [exact H1|]. split; [exact H2|].
  apply (C4_diff_status_passed_through (world [] 3) ["make"] "out.bin" ex_root
           ["fileordering"; "kernel"] ex_environ (fst run_differs) (snd run_differs)).
  - vm_compute. reflexivity.
  - exact H1.
  - exact H2.
Defined.

(** C4 as stated fails: both builds run to their end and write their
    artifacts, the unmount command then fails, and [check] exits with
    status 2 without running the diff tool. *)
Lemma C4_counterexample :
  builds_done (trace (snd run_unmount_fails)) = 2 /\
  Forall (fun e => is_build_failure e = false) (trace (snd run_unmount_fails)) /\
  fst run_unmount_fails = Raise (SystemExit 2) /\
  ~ (exists d, EvRun (diffoscope "/tmp/t") None None (Some d)
                 ∈ trace (snd run_unmount_fails) /\
               fst run_unmount_fails = Raise (SystemExit d)).
Proof.
  split_and!.
  - vm_compute. reflexivity.
  - vm_compute. repeat constructor.
  - vm_compute. reflexivity.
  - intros (d & Hin & _).
    assert (Hno : Forall (fun e => is_diff e = false) (trace (snd run_unmount_fails)))
      by (vm_compute; repeat constructor).
    rewrite Forall_forall in Hno. discriminate (Hno _ Hin).
Qed.

Lemma C5_selected_variations_applied_once_witness :
  heap ex_state !! env1 ex_ctx = Some ex_environ /\
  heap ex_state !! env2 ex_ctx = Some ex_environ /\
  env1 ex_ctx <> env2 ex_ctx /\
  restore_order (world [] 0) ex_selection = ["fileordering"; "kernel"; "path"] /\
  exists c' st',
    enter_variations (world [] 0) (restore_order (world [] 0) ex_selection)
                     ex_ctx ex_state = (Ok c', st') /\
    c' = expected_ctx (world [] 0) ex_selection ex_ctx /\
    command2 c' = ["linux64"; "--uname-2.6"; "make"] /\
    heap st' !! env2 ex_ctx
    = Some (snd (expected_envs (world [] 0) ex_selection (ex_environ, ex_environ))).
Proof.
  assert (H1 : heap ex_state !! env1 ex_ctx = Some ex_environ) by reflexivity.
  assert (H2 : heap ex_state !! env2 ex_ctx = Some ex_environ) by reflexivity.
  assert (H3 : env1 ex_ctx <> env2 ex_ctx) by (simpl; lia).
  split_and!; [exact H1|exact H2|exact H3|vm_compute; reflexivity|].
  destruct (C5_selected_variations_applied_once (world [] 0) ex_selection
              ex_ctx ex_state ex_environ ex_environ H1 H2 H3)
    as (_ & _ & _ & Hres & Htot).
  destruct Htot as (c' & st' & Hrun).
  - intros _. exists "/usr/bin". reflexivity.
  - intros _. split; reflexivity.
  - exists c', st'.
    destruct (Hres c' st' Hrun) as (Hc & _ & Hcmd & _ & _ & _ & HB & _).
    split_and!; [exact Hrun|exact Hc| |exact HB].
    rewrite Hc. vm_compute. reflexivity.
Defined.

Lemma C6_timezone_opposite_offsets_witness :
  heap ex_state !! env1 ex_ctx = Some ex_environ /\
  heap ex_state !! env2 ex_ctx = Some ex_environ /\
  env1 ex_ctx <> env2 ex_ctx /\
  exists st' tzA tzB a b,
    timezone ex_ctx ex_state = (Ok (ex_ctx, AfterYield), st') /\
    heap st' !! env1 ex_ctx = Some (<["TZ" := tzA]> ex_environ) /\
    heap st' !! env2 ex_ctx = Some (<["TZ" := tzB]> ex_environ) /\
    tz_offset tzA = Some a /\ tz_offset tzB = Some b /\
    (0 < a)%Z /\ (b < 0)%Z /\
    (forall l, l <> env1 ex_ctx -> l <> env2 ex_ctx ->
               heap st' !! l = heap ex_state !! l) /\
    trace st' = trace ex_state /\ exit_stack st' = exit_stack ex_state /\
    scopes st' = scopes ex_state.
Proof.
  assert (H1 : heap ex_state !! env1 ex_ctx = Some ex_environ) by reflexivity.
  assert (H2 : heap ex_state !! env2 ex_ctx = Some ex_environ) by reflexivity.
  assert (H3 : env1 ex_ctx <> env2 ex_ctx) by (simpl; lia).
  split_and!; [exact H1|exact H2|exact H3|].
  exact (C6_timezone_opposite_offsets ex_ctx ex_state ex_environ ex_environ H1 H2 H3).
Defined.

Lemma C7_captures_environment_frame_witness :
  heap ex_state !! env1 ex_ctx = Some ex_environ /\
  heap ex_state !! env2 ex_ctx = Some ex_environ /\
  env1 ex_ctx <> env2 ex_ctx /\
  exists st' e2',
    captures_environment ex_ctx ex_state = (Ok (ex_ctx, AfterYield), st') /\
    heap st' !! env2 ex_ctx = Some e2' /\
    e2' !! "CAPTURE_ENVIRONMENT" = Some "i_capture_the_environment" /\
    (forall k, k <> "CAPTURE_ENVIRONMENT" -> e2' !! k = ex_environ !! k) /\
    heap st' !! env1 ex_ctx = Some ex_environ /\
    (forall l, l <> env2 ex_ctx -> heap st' !! l = heap ex_state !! l) /\
    trace st' = trace ex_state /\ exit_stack st' = exit_stack ex_state /\
    scopes st' = scopes ex_state.
Proof.
  assert (H1 : heap ex_state !! env1 ex_ctx = Some ex_environ) by reflexivity.
  assert (H2 : heap ex_state !! env2 ex_ctx = Some ex_environ) by reflexivity.
  assert (H3 : env1 ex_ctx <> env2 ex_ctx) by (simpl; lia).
  split_and!; [exact H1|exact H2|exact H3|].
  exact (C7_captures_environment_frame ex_ctx ex_state ex_environ ex_environ H1 H2 H3).
Defined.

Lemma C8_path_needs_PATH_witness :
  heap ex_state !! env1 ex_ctx = Some ex_environ /\
  heap ex_state !! env2 ex_ctx = Some ex_environ /\
  ex_environ !! "PATH" = Some "/usr/bin" /\
  exists st',
    path ex_ctx ex_state = (Ok (ex_ctx, AfterYield), st') /\
    heap st' !! env2 ex_ctx
    = Some (<["PATH" := "/usr/bin" +:+ "/i_capture_the_path"]> ex_environ) /\
    (forall l, l <> env2 ex_ctx -> heap st' !! l = heap ex_state !! l) /\
    trace st' = trace ex_state.
Proof.
  assert (H1 : heap ex_state !! env1 ex_ctx = Some ex_environ) by reflexivity.
  assert (H2 : heap ex_state !! env2 ex_ctx = Some ex_environ) by reflexivity.
  assert (H3 : ex_environ !! "PATH" = Some "/usr/bin") by reflexivity.
  split_and!; [exact H1|exact H2|exact H3|].
  exact (proj2 (C8_path_needs_PATH ex_ctx ex_state ex_environ ex_environ H1 H2)
               "/usr/bin" H3).
Defined.

Lemma C9_kernel_then_umask_witness :
  "kernel" ∈ ({[ "kernel"; "umask" ]} : gset string) /\
  "umask" ∈ ({[ "kernel"; "umask" ]} : gset string) /\
  exists st',
    enter_variations (world [] 0) (restore_order (world [] 0) {[ "kernel"; "umask" ]})
                     ex_ctx ex_state
    = (Ok (set_command2 ["umask"; "0002;"; "linux64"; "--uname-2.6"; "make"] ex_ctx),
       st').
Proof.
  assert (H1 : "kernel" ∈ ({[ "kernel"; "umask" ]} : gset string))
    by (apply (bool_decide_unpack _); vm_compute; exact I).
  assert (H2 : "umask" ∈ ({[ "kernel"; "umask" ]} : gset string))
    by (apply (bool_decide_unpack _); vm_compute; exact I).
  split_and!; [exact H1|exact H2|].
  destruct (C9_kernel_then_umask (world [] 0) {[ "kernel"; "umask" ]}
              ex_ctx ex_state H1 H2) as (_ & Heq & st' & Hrun).
  exists st'. rewrite Heq. exact Hrun.
Defined.

(** * More properties of the pipeline *)

Lemma Path_disorderfs : pathlib.Path "disorderfs" = pathlib.mkPath "" ["disorderfs"].
Proof. vm_compute. reflexivity. Qed.

Lemma overlay_parent t : pathlib.parent (overlay t) = pathlib.parent t.
Proof.
  unfold overlay, pathlib.truediv. rewrite Path_disorderfs.
  unfold pathlib.parent. cbn [pathlib.root pathlib.parts bool_decide].
  replace (bool_decide ("" = "")) with true by reflexivity.
  cbn [pathlib.root pathlib.parts]. rewrite removelast_last. reflexivity.
Qed.

(** The mount point of the overlay of a mount point is that mount point:
    however often [fileordering] is entered, it works on one directory. *)
Lemma overlay_idempotent t : overlay (overlay t) = overlay t.
Proof. unfold overlay at 1. rewrite overlay_parent. reflexivity. Qed.

Lemma fold_ctx_fields l : forall c,
  let c' := foldl (fun c n => documented_ctx n c) c l in
  command1 c' = command1 c /\ tree1 c' = tree1 c /\
  command2 c' = prefixes l ++ command2 c /\
  (tree2 c' = tree2 c \/ tree2 c' = overlay (tree2 c)) /\
  (Forall (fun n => String.eqb n "fileordering" = false) l -> tree2 c' = tree2 c).
Proof.
  induction l as [|n l IH]; intros c; simpl.
  - split_and!; auto.
  - destruct (IH (documented_ctx n c)) as (H1 & H2 & H3 & H4 & H5).
    simpl in *. rewrite H1, H2, H3. unfold prefixes. simpl.
    rewrite concat_app. simpl. rewrite app_nil_r, <- app_assoc.
    split_and!; try reflexivity.
    + destruct (String.eqb n "fileordering");
        [rewrite overlay_idempotent in H4|]; tauto.
    + intros Hl. inversion Hl as [|? ? Hn Hl']; subst.
      rewrite (H5 Hl'), Hn. reflexivity.
Qed.

Section PipelineInvariants.
Variable W : World.

(** X1: whatever names are listed, known or not, once or several times, a
    pipeline that yields a context never changes command A, tree A or the
    two dictionaries the context refers to; command B is the original
    command behind the prefixes of the entered variations; tree B is the
    original tree or the mount point of its overlay. *)
Theorem X1_pipeline_keeps_side_A vs c st c' st' :
  enter_variations W vs c st = (Ok c', st') ->
  command1 c' = command1 c /\ tree1 c' = tree1 c /\
  env1 c' = env1 c /\ env2 c' = env2 c /\
  command2 c' = prefixes vs ++ command2 c /\
  command2 c `suffix_of` command2 c' /\
  (tree2 c' = tree2 c \/ tree2 c' = overlay (tree2 c)).
Proof.
  intros Hrun.
  destruct (enter_variations_inv _ _ _ _ _ _ Hrun)
    as (? & ? & ? & _ & _ & _ & _ & _ & _ & _ & _ & _ & _ & _ & (_ & -> & _ & _)).
  destruct (fold_ctx_fields vs c) as (H1 & H2 & H3 & H4 & _).
  destruct (fold_ctx_envs vs c) as [H5 H6].
  split_and!; try assumption.
  rewrite H3. apply suffix_app_r. reflexivity.
Qed.
End PipelineInvariants.

Lemma X1_pipeline_keeps_side_A_witness :
  enter_variations (world [] 0) ["kernel"; "home"; "fileordering"] ex_ctx ex_state
  = (Ok ex_entered_ctx, snd ex_entered) /\
  command1 ex_entered_ctx = ["make"] /\
  command2 ex_entered_ctx = ["linux64"; "--uname-2.6"; "make"] /\
  tree1 ex_entered_ctx = tree1 ex_ctx.
Proof.
  assert (H : enter_variations (world [] 0) ["kernel"; "home"; "fileordering"]
                               ex_ctx ex_state
              = (Ok ex_entered_ctx, snd ex_entered)) by (vm_compute; reflexivity).
  split; [exact H|].
  destruct (X1_pipeline_keeps_side_A (world [] 0) _ _ _ _ _ H)
    as (H1 & H2 & _ & _ & H3 & _).
  split_and!; [rewrite H1; reflexivity|rewrite H3; reflexivity|exact H2].
Defined.

Lemma documented_envs_effect p n :
  documented_envs p n = apply_env_effect (env_effect n) p.
Proof.
  destruct p as [e1 e2].
  unfold documented_envs, documented_envA, documented_envB, env_effect. simpl.
  destruct (String.eqb_spec n "captures_environment") as [->|_]; [reflexivity|].
  destruct (String.eqb_spec n "home") as [->|_]; [reflexivity|].
  destruct (String.eqb_spec n "locales") as [->|_]; [reflexivity|].
  destruct (String.eqb_spec n "path") as [->|_]; [reflexivity|].
  destruct (String.eqb_spec n "timezone") as [->|_]; reflexivity.
Qed.

Lemma apply_env_effect_comm j k p :
  apply_env_effect j (apply_env_effect k p)
  = apply_env_effect k (apply_env_effect j p).
Proof.
  destruct p as [e1 e2].
  destruct j, k; simpl; try reflexivity;
    rewrite ?lookup_insert_ne by discriminate;
    repeat case_match; try reflexivity;
    f_equal; try reflexivity;
    apply map_eq; intros i; rewrite !lookup_insert;
    repeat case_decide; subst; try reflexivity; congruence.
Qed.

Lemma foldl_permutation_comm {A B} (f : A -> B -> A) :
  (forall a x y, f (f a x) y = f (f a y) x) ->
  forall l1 l2, l1 ≡ₚ l2 -> forall a, foldl f a l1 = foldl f a l2.
Proof.
  intros Hf l1 l2 Hp. induction Hp as [|x l l' _ IH|x y l|l l' l'' _ IH1 _ IH2];
    intros a; simpl.
  - reflexivity.
  - apply IH.
  - rewrite Hf. reflexivity.
  - rewrite IH1. apply IH2.
Qed.

Lemma documented_envs_permutation vs1 vs2 p :
  vs1 ≡ₚ vs2 -> foldl documented_envs p vs1 = foldl documented_envs p vs2.
Proof.
  intros Hp. apply foldl_permutation_comm; [|exact Hp].
  intros a x y. rewrite !documented_envs_effect. apply apply_env_effect_comm.
Qed.

Lemma append_suffix_ne (x s : string) : s <> "" -> x +:+ s <> x.
Proof.
  intros Hs Heq. apply Hs. induction x as [|a x IH]; simpl in Heq.
  - exact Heq.
  - injection Heq as Heq. apply IH, Heq.
Qed.

Lemma differs_step n p x :
  (home_differs p -> home_differs (documented_envs p n)) /\
  (tz_differs p -> tz_differs (documented_envs p n)) /\
  (path_differs x p -> path_differs x (documented_envs p n)) /\
  (fst p !! "PATH" = Some x -> fst (documented_envs p n) !! "PATH" = Some x).
Proof.
  rewrite documented_envs_effect. destruct p as [e1 e2].
  unfold home_differs, tz_differs, path_differs.
  destruct (env_effect n); simpl; split_and!;
    first [intros [H1 H2]; split | intros H1];
    try rewrite H1;
    repeat case_match;
    rewrite ?lookup_insert_eq, ?lookup_insert_ne by discriminate;
    solve [assumption | reflexivity | congruence].
Qed.

Lemma differs_fold vs : forall p x,
  (home_differs p -> home_differs (foldl documented_envs p vs)) /\
  (tz_differs p -> tz_differs (foldl documented_envs p vs)) /\
  (path_differs x p -> path_differs x (foldl documented_envs p vs)) /\
  (fst p !! "PATH" = Some x -> fst (foldl documented_envs p vs) !! "PATH" = Some x).
Proof.
  induction vs as [|n vs IH]; intros p x; simpl; [tauto|].
  destruct (differs_step n p x) as (H1 & H2 & H3 & H4).
  destruct (IH (documented_envs p n) x) as (I1 & I2 & I3 & I4).
  tauto.
Qed.

Lemma differs_established vs : forall p,
  ("home" ∈ vs -> home_differs (foldl documented_envs p vs)) /\
  ("timezone" ∈ vs -> tz_differs (foldl documented_envs p vs)) /\
  (forall x, fst p !! "PATH" = Some x ->
             "path" ∈ vs -> path_differs x (foldl documented_envs p vs)).
Proof.
  induction vs as [|n vs IH]; intros p.
  - split_and!; [intros H|intros H|intros x _ H]; inversion H.
  - simpl.
    destruct (IH (documented_envs p n)) as (I1 & I2 & I3).
    split_and!.
    + intros Hin. apply elem_of_cons in Hin as [<-|Hin]; [|auto].
      destruct (differs_fold vs (documented_envs p "home") "") as (F1 & _).
      apply F1. destruct p. split; apply lookup_insert_eq.
    + intros Hin. apply elem_of_cons in Hin as [<-|Hin]; [|auto].
      destruct (differs_fold vs (documented_envs p "timezone") "") as (_ & F2 & _).
      apply F2. destruct p. split; apply lookup_insert_eq.
    + intros x Hx Hin.
      destruct (differs_step n p x) as (_ & _ & _ & Hx').
      apply elem_of_cons in Hin as [<-|Hin]; [|apply I3; auto].
      destruct (differs_fold vs (documented_envs p "path") x) as (_ & _ & F3 & _).
      apply F3. destruct p as [e1 e2]. unfold path_differs, documented_envs.
      simpl in *. unfold documented_envA, documented_envB. simpl.
      rewrite Hx. split; [reflexivity|apply lookup_insert_eq].
Qed.

Section PipelineEnvironments.
Variable W : World.

(** A pipeline that yields a context over a list with [path] has read
    [PATH] in environment A, which no variation writes. *)
Lemma enter_needs_PATH vs : forall c st c' st' e1 e2,
  enter_variations W vs c st = (Ok c', st') ->
  heap st !! env1 c = Some e1 -> heap st !! env2 c = Some e2 ->
  env1 c <> env2 c ->
  "path" ∈ vs -> is_Some (e1 !! "PATH").
Proof.
  induction vs as [|n vs IH]; intros c st c' st' e1 e2 Hrun He1 He2 Hne Hin.
  { apply elem_of_nil in Hin. contradiction. }
  rewrite enter_variations_cons in Hrun.
  destruct (step W n c st) as [[c1|e] st1] eqn:Hstep; [|discriminate Hrun].
  destruct (step_heap _ _ _ _ _ _ Hstep) as (_ & _ & Hp & Hab).
  destruct (step_inv _ _ _ _ _ _ Hstep) as (_ & _ & _ & _ & -> & _).
  destruct (Hab e1 e2 He1 He2 Hne) as [HA HB].
  apply elem_of_cons in Hin as [<-|Hin].
  - rewrite <- (deref_Some _ _ _ He1). apply Hp. reflexivity.
  - rewrite <- (documented_envA_PATH n e1).
    eapply (IH (documented_ctx n c)); try eassumption.
Qed.


(** X2: the contents of the two environments after a pipeline do not
    depend on the order in which the variations are listed: two lists that
    are permutations of each other, both entered with success from the same
    state, leave the same contents in environment A and in environment B. *)
Theorem X2_environments_order_independent vs1 vs2 c st e1 e2 c1 st1 c2 st2 :
  heap st !! env1 c = Some e1 -> heap st !! env2 c = Some e2 ->
  env1 c <> env2 c ->
  vs1 ≡ₚ vs2 ->
  enter_variations W vs1 c st = (Ok c1, st1) ->
  enter_variations W vs2 c st = (Ok c2, st2) ->
  heap st1 !! env1 c = heap st2 !! env1 c /\
  heap st1 !! env2 c = heap st2 !! env2 c.
Proof.
  intros He1 He2 Hne Hp R1 R2.
  destruct (enter_variations_inv _ _ _ _ _ _ R1)
    as (? & ? & ? & _ & _ & _ & _ & _ & _ & _ & _ & _ & _ & Hab1 & (-> & _)).
  destruct (enter_variations_inv _ _ _ _ _ _ R2)
    as (? & ? & ? & _ & _ & _ & _ & _ & _ & _ & _ & _ & _ & Hab2 & (-> & _)).
  destruct (Hab1 e1 e2 He1 He2 Hne) as [-> ->].
  destruct (Hab2 e1 e2 He1 He2 Hne) as [-> ->].
  rewrite (documented_envs_permutation vs1 vs2 _ Hp). split; reflexivity.
Qed.

(** X3: a pipeline that has entered [home], [timezone] or [path] hands the
    two builds environments that differ on [HOME], on [TZ] or on [PATH],
    whatever else is listed before or after and whatever the environments
    held: the values written are still there at the end.  [PATH] of
    environment A is never changed; when [path] was entered it was set, and
    [PATH] of environment B is that value with the suffix. *)
Theorem X3_differences_survive vs c st e1 e2 c' st' :
  heap st !! env1 c = Some e1 -> heap st !! env2 c = Some e2 ->
  env1 c <> env2 c ->
  enter_variations W vs c st = (Ok c', st') ->
  exists a b,
    heap st' !! env1 c = Some a /\ heap st' !! env2 c = Some b /\
    a !! "PATH" = e1 !! "PATH" /\
    ("home" ∈ vs -> a !! "HOME" = Some "/nonexistent/first-build" /\
                    b !! "HOME" = Some "/nonexistent/second-build") /\
    ("timezone" ∈ vs -> a !! "TZ" = Some "GMT+12" /\ b !! "TZ" = Some "GMT-14") /\
    ("path" ∈ vs ->
     exists x, e1 !! "PATH" = Some x /\
               b !! "PATH" = Some (x +:+ "/i_capture_the_path") /\
               b !! "PATH" <> a !! "PATH").
Proof.
  intros He1 He2 Hne Hrun.
  destruct (enter_variations_inv _ _ _ _ _ _ Hrun)
    as (? & ? & ? & _ & _ & _ & _ & _ & _ & _ & _ & _ & _ & Hab & (-> & _)).
  destruct (Hab e1 e2 He1 He2 Hne) as [HA HB].
  destruct (differs_established vs (e1, e2)) as (D1 & D2 & D3).
  eexists _, _. split; [exact HA|]. split; [exact HB|].
  split_and!.
  - rewrite fold_envA. apply fold_envA_PATH.
  - intros Hin. apply D1, Hin.
  - intros Hin. apply D2, Hin.
  - intros Hin.
    destruct (enter_needs_PATH vs c st _ _ e1 e2 Hrun He1 He2 Hne Hin) as [x Hx].
    destruct (D3 x Hx Hin) as [P1 P2]. exists x. split_and!; [exact Hx|exact P2|].
    rewrite P1, P2. intros [= Heq]. revert Heq. apply append_suffix_ne. discriminate.
Qed.
End PipelineEnvironments.

Lemma X2_environments_order_independent_witness :
  heap ex_state !! env1 ex_ctx = Some ex_environ /\
  heap ex_state !! env2 ex_ctx = Some ex_environ /\
  env1 ex_ctx <> env2 ex_ctx /\
  ["home"; "path"; "timezone"] ≡ₚ ["timezone"; "home"; "path"] /\
  heap (snd ex_order1) !! env1 ex_ctx = heap (snd ex_order2) !! env1 ex_ctx /\
  heap (snd ex_order1) !! env2 ex_ctx = heap (snd ex_order2) !! env2 ex_ctx.
Proof.
  assert (H1 : heap ex_state !! env1 ex_ctx = Some ex_environ) by reflexivity.
  assert (H2 : heap ex_state !! env2 ex_ctx = Some ex_environ) by reflexivity.
  assert (H3 : env1 ex_ctx <> env2 ex_ctx) by (simpl; lia).
  assert (H4 : ["home"; "path"; "timezone"] ≡ₚ ["timezone"; "home"; "path"]).
  { change ["timezone"; "home"; "path"] with (["timezone"] ++ ["home"; "path"]).
    change ["home"; "path"; "timezone"] with (["home"; "path"] ++ ["timezone"]).
    apply Permutation_app_comm. }
  split_and!; [exact H1|exact H2|exact H3|exact H4| |];
    apply (X2_environments_order_independent (world [] 0) _ _ ex_ctx ex_state
             ex_environ ex_environ ex_order1_ctx (snd ex_order1)
             ex_order2_ctx (snd ex_order2) H1 H2 H3 H4);
    vm_compute; reflexivity.
Defined.

Lemma X3_differences_survive_witness :
  heap ex_state_bare !! env1 ex_ctx = Some ∅ /\
  heap ex_state_bare !! env2 ex_ctx = Some ∅ /\
  env1 ex_ctx <> env2 ex_ctx /\
  enter_variations (world [] 0) ["home"; "timezone"] ex_ctx ex_state_bare
  = (Ok ex_home_tz_ctx, snd ex_home_tz) /\
  exists a b,
    heap (snd ex_home_tz) !! env1 ex_ctx = Some a /\
    heap (snd ex_home_tz) !! env2 ex_ctx = Some b /\
    a !! "PATH" = None /\
    a !! "HOME" = Some "/nonexistent/first-build" /\
    b !! "TZ" = Some "GMT-14".
Proof.
  assert (H1 : heap ex_state_bare !! env1 ex_ctx = Some ∅) by reflexivity.
  assert (H2 : heap ex_state_bare !! env2 ex_ctx = Some ∅) by reflexivity.
  assert (H3 : env1 ex_ctx <> env2 ex_ctx) by (simpl; lia).
  assert (H5 : enter_variations (world [] 0) ["home"; "timezone"]
                                ex_ctx ex_state_bare
               = (Ok ex_home_tz_ctx, snd ex_home_tz)) by (vm_compute; reflexivity).
  split_and!; [exact H1|exact H2|exact H3|exact H5|].
  destruct (X3_differences_survive (world [] 0) _ ex_ctx ex_state_bare ∅ ∅
              _ _ H1 H2 H3 H5)
    as (a & b & HA & HB & HP & Hh & Hz & _).
  exists a, b. split_and!; [exact HA|exact HB|exact HP| |].
  - apply Hh. repeat constructor.
  - apply Hz. repeat constructor.
Defined.

Lemma prefixes_none vs :
  "kernel" ∉ vs -> "umask" ∉ vs -> prefixes vs = [].
Proof.
  unfold prefixes. induction vs as [|n vs IH]; intros Hk Hu; [reflexivity|].
  apply not_elem_of_cons in Hk as [Hk Hk'].
  apply not_elem_of_cons in Hu as [Hu Hu'].
  simpl. rewrite concat_app, (IH Hk' Hu'). simpl.
  unfold cmd_prefix.
  destruct (String.eqb_spec n "kernel") as [->|_]; [congruence|].
  destruct (String.eqb_spec n "umask") as [->|_]; [congruence|]. reflexivity.
Qed.

Lemma not_elem_Forall_eqb (x : string) vs :
  x ∉ vs -> Forall (fun n => String.eqb n x = false) vs.
Proof.
  intros H. apply Forall_forall. intros n Hn.
  apply String.eqb_neq. intros ->. contradiction.
Qed.

Lemma fold_envs_untouched vs : forall p,
  ("home" ∉ vs -> "timezone" ∉ vs -> fst (foldl documented_envs p vs) = fst p) /\
  ("captures_environment" ∉ vs -> "home" ∉ vs -> "locales" ∉ vs ->
   "path" ∉ vs -> "timezone" ∉ vs -> snd (foldl documented_envs p vs) = snd p).
Proof.
  induction vs as [|n vs IH]; intros p; [split; reflexivity|].
  simpl. destruct (IH (documented_envs p n)) as [IA IB].
  rewrite !not_elem_of_cons. split.
  - intros [Hh Hh'] [Ht Ht']. rewrite (IA Hh' Ht'). simpl.
    unfold documented_envA.
    destruct (String.eqb_spec n "home") as [->|_]; [congruence|].
    destruct (String.eqb_spec n "timezone") as [->|_]; [congruence|]. reflexivity.
  - intros [H1 H1'] [H2 H2'] [H3 H3'] [H4 H4'] [H5 H5'].
    rewrite (IB H1' H2' H3' H4' H5'). simpl. unfold documented_envB.
    destruct (String.eqb_spec n "captures_environment") as [->|_]; [congruence|].
    destruct (String.eqb_spec n "home") as [->|_]; [congruence|].
    destruct (String.eqb_spec n "locales") as [->|_]; [congruence|].
    destruct (String.eqb_spec n "path") as [->|_]; [congruence|].
    destruct (String.eqb_spec n "timezone") as [->|_]; [congruence|]. reflexivity.
Qed.

Section Footprint.
Variable W : World.

(** X4: what a pipeline that yields a context leaves alone.  Command B
    changes only through [kernel] and [umask]; tree B changes, and the
    outside world is acted on, only through [fileordering]; environment A is
    written only by [home] and [timezone]; environment B only by
    [captures_environment], [home], [locales], [path] and [timezone]; no
    other dictionary is ever written. *)
Theorem X4_footprint vs c st e1 e2 c' st' :
  heap st !! env1 c = Some e1 -> heap st !! env2 c = Some e2 ->
  env1 c <> env2 c ->
  enter_variations W vs c st = (Ok c', st') ->
  ("kernel" ∉ vs -> "umask" ∉ vs -> command2 c' = command2 c) /\
  ("fileordering" ∉ vs -> tree2 c' = tree2 c /\ trace st' = trace st) /\
  ("home" ∉ vs -> "timezone" ∉ vs -> heap st' !! env1 c = Some e1) /\
  ("captures_environment" ∉ vs -> "home" ∉ vs -> "locales" ∉ vs ->
   "path" ∉ vs -> "timezone" ∉ vs -> heap st' !! env2 c = Some e2) /\
  (forall l, l <> env1 c -> l <> env2 c -> heap st' !! l = heap st !! l).
Proof.
  intros He1 He2 Hne Hrun.
  destruct (enter_variations_inv _ _ _ _ _ _ Hrun)
    as (? & d & ? & Ht & _ & _ & _ & _ & _ & _ & _ & _ & Hfr & Hab
        & (-> & -> & -> & _)).
  destruct (Hab e1 e2 He1 He2 Hne) as [HA HB].
  destruct (fold_ctx_fields vs c) as (_ & _ & Hcmd & _ & Htree).
  destruct (fold_envs_untouched vs (e1, e2)) as [UA UB].
  split_and!.
  - intros Hk Hu. rewrite Hcmd, (prefixes_none vs Hk Hu). reflexivity.
  - intros Hf. pose proof (not_elem_Forall_eqb _ _ Hf) as Hq.
    split; [apply Htree, Hq|].
    rewrite Ht, (proj1 (documented_trace_quiet vs c Hq)), app_nil_r. reflexivity.
  - intros Hh Hz. rewrite HA, (UA Hh Hz). reflexivity.
  - intros H1 H2 H3 H4 H5. rewrite HB, (UB H1 H2 H3 H4 H5). reflexivity.
  - exact Hfr.
Qed.
End Footprint.

Lemma X4_footprint_witness :
  heap ex_state !! env1 ex_ctx = Some ex_environ /\
  heap ex_state !! env2 ex_ctx = Some ex_environ /\
  env1 ex_ctx <> env2 ex_ctx /\
  enter_variations (world [] 0) ["home"; "path"; "timezone"] ex_ctx ex_state
  = (Ok ex_order1_ctx, snd ex_order1) /\
  command2 ex_order1_ctx = command2 ex_ctx /\
  tree2 ex_order1_ctx = tree2 ex_ctx /\
  trace (snd ex_order1) = trace ex_state.
Proof.
  assert (H1 : heap ex_state !! env1 ex_ctx = Some ex_environ) by reflexivity.
  assert (H2 : heap ex_state !! env2 ex_ctx = Some ex_environ) by reflexivity.
  assert (H3 : env1 ex_ctx <> env2 ex_ctx) by (simpl; lia).
  assert (H5 : enter_variations (world [] 0) ["home"; "path"; "timezone"]
                                ex_ctx ex_state
               = (Ok ex_order1_ctx, snd ex_order1)) by (vm_compute; reflexivity).
  split_and!; [exact H1|exact H2|exact H3|exact H5| | |];
    destruct (X4_footprint (world [] 0) _ ex_ctx ex_state ex_environ ex_environ
                _ _ H1 H2 H3 H5) as (Hc & Hf & _).
  - apply Hc; rewrite !not_elem_of_cons; split_and!;
      try discriminate; apply not_elem_of_nil.
  - apply Hf; rewrite !not_elem_of_cons; split_and!;
      try discriminate; apply not_elem_of_nil.
  - apply Hf; rewrite !not_elem_of_cons; split_and!;
      try discriminate; apply not_elem_of_nil.
Defined.

Ltac no_such_event H :=
  repeat (apply Exists_cons in H as [H|H]; [discriminate H|]);
  apply Exists_nil in H; contradiction.

Section Build.
Variable W : World.

(** X5: [build] runs the command first, in the given directory and with
    the contents the environment has at that moment; when the command does
    not exit with status 0 nothing else happens; the artifact store is
    written only after the command exited with status 0 and the artifact was
    opened and read; [build] returns normally exactly when the five steps
    succeeded; it never changes a dictionary. *)
Theorem X5_build_stores_after_success command source_root built_artifact
        artifact_store env st r st' :
  build W command source_root built_artifact artifact_store env st = (r, st') ->
  exists status d,
    trace st' = trace st ++
      EvRun (Shell command) (Some source_root) (Some (deref (heap st) env)) status :: d /\
    heap st' = heap st /\
    (status <> Some 0%Z -> d = [] /\ r <> Ok tt) /\
    (Exists (fun e => is_store_write e = true) d ->
     status = Some 0%Z /\
     take 2 d = [EvIO (OpenRead built_artifact) true;
                 EvIO (ReadAll built_artifact) true]) /\
    (r = Ok tt <->
     status = Some 0%Z /\
     d = [EvIO (OpenRead built_artifact) true; EvIO (ReadAll built_artifact) true;
          EvIO (Write artifact_store) true; EvIO (Flush artifact_store) true]).
Proof.
  unfold build. intros Hrun. run_in Hrun.
  all: injection Hrun as <- <-; simpl.
  all: eexists _, _; split; [rewrite <- ?app_assoc; simpl; reflexivity|].
  all: split; [reflexivity|].
  all: split_and!.
  all: try (intros Hs; first [congruence | split; [reflexivity|discriminate]]).
  all: try (intros Hex; first [no_such_event Hex | split; reflexivity]).
  all: split; [try discriminate; intros _; split; reflexivity
              |intros [Hs Hd]; first [discriminate Hs | discriminate Hd | reflexivity]].
Qed.
End Build.

Lemma X5_build_stores_after_success_witness :
  exists status d,
    trace (snd ex_build) = trace ex_state ++
      EvRun (Shell "make") (Some "/tmp/t/tree1")
            (Some (deref (heap ex_state) 1)) status :: d /\
    heap (snd ex_build) = heap ex_state /\
    (status <> Some 0%Z -> d = [] /\ fst ex_build <> Ok tt) /\
    (Exists (fun e => is_store_write e = true) d ->
     status = Some 0%Z /\
     take 2 d = [EvIO (OpenRead "/tmp/t/tree1/out.bin") true;
                 EvIO (ReadAll "/tmp/t/tree1/out.bin") true]) /\
    (fst ex_build = Ok tt <->
     status = Some 0%Z /\
     d = [EvIO (OpenRead "/tmp/t/tree1/out.bin") true;
          EvIO (ReadAll "/tmp/t/tree1/out.bin") true;
          EvIO (Write "/tmp/t/artifact1") true;
          EvIO (Flush "/tmp/t/artifact1") true]).
Proof.
  apply (X5_build_stores_after_success ex_build_world "make" "/tmp/t/tree1"
           "/tmp/t/tree1/out.bin" "/tmp/t/artifact1" 1 ex_state
           (fst ex_build) (snd ex_build)).
  vm_compute. reflexivity.
Defined.

(** * The builds of [check] *)

Ltac failed_last :=
  match goal with
  | |- follows _ ?d =>
      right; exists (removelast d), (List.last d (EvIO Mkdtemp true));
      cbn [removelast List.last app attempted];
      split; [reflexivity|split; [discriminate|eexists; reflexivity]]
  end.

Section Builds.
Variable W : World.

Lemma both_builds_script temp art c st r st' :
  both_builds W temp art c st = (r, st') ->
  exists d,
    trace st' = trace st ++ d /\
    follows (builds_script temp art c (deref (heap st) (env1 c))
                           (deref (heap st) (env2 c))) d /\
    (r = Ok tt <-> d = builds_script temp art c (deref (heap st) (env1 c))
                                     (deref (heap st) (env2 c))).
Proof.
  unfold both_builds, build, open_wb. intros Hrun. run_in Hrun.
  all: injection Hrun as <- <-; simpl.
  all: eexists; split; [rewrite <- ?app_assoc; reflexivity|].
  all: cbv [builds_script build_script]; cbn [app].
  all: split; [first [left; reflexivity | failed_last]|].
  all: split; first [reflexivity | discriminate].
Qed.

(** The [with] block of [check] in detail: what the two builds ran. *)
Lemma guarded_script temp art vs c st r st' e1 e2 :
  guarded W temp art vs c st = (r, st') ->
  heap st !! env1 c = Some e1 -> heap st !! env2 c = Some e2 ->
  env1 c <> env2 c ->
  let script :=
    builds_script temp art (foldl (fun c n => documented_ctx n c) c vs)
                  (fst (foldl documented_envs (e1, e2) vs))
                  (snd (foldl documented_envs (e1, e2) vs)) in
  exists d_enter d_body d_exit,
    trace st' = trace st ++ d_enter ++ d_body ++ d_exit /\
    Forall (fun e => is_overlay_setup e = true) d_enter /\
    Forall (fun e => is_build_step e = true) d_body /\
    Forall (fun e => is_unmount e = true) d_exit /\
    (d_body = [] \/
     (follows script d_body /\
      Forall (fun n => is_Some (assoc n (VARIATIONS W))) vs /\
      d_enter = documented_trace c vs /\
      scopes st' = scopes st ++ map Entered vs ++ map Left (rev vs) /\
      ("path" ∈ vs -> is_Some (e1 !! "PATH")))) /\
    match r with
    | Ok _ => d_body = script /\
              Forall (fun e => is_unmount_failure e = false) d_exit
    | Raise e => is_Exception e = true /\
                 (d_body = script ->
                  Exists (fun e => is_unmount_failure e = true) d_exit)
    end.
Proof.
  intros Hrun He1 He2 Hne script. unfold guarded, with_ExitStack in Hrun.
  unfold bind at 1 in Hrun. unfold try_ at 1 in Hrun.
  unfold bind at 1 in Hrun.
  destruct (enter_variations W vs c (set_exit_stack [] st)) as [r1 st1] eqn:Henter.
  destruct (enter_variations_inv _ _ _ _ _ _ Henter)
    as (entered & d1 & frames & Ht1 & Hc1 & Hu1 & Hm1 & Hk1 & Hf1 & Hsc1 & Hpre
        & Hlen1 & Hfr1 & Hab1 & Hr1).
  simpl in Ht1, Hk1, Hsc1, Hlen1, Hfr1, Hab1. rewrite app_nil_r in Hk1.
  destruct (Hab1 e1 e2 He1 He2 Hne) as [HA HB].
  destruct r1 as [c1|e1'].
  - destruct (both_builds W temp art c1 st1) as [r2 st2] eqn:Hbuilds.
    destruct (both_builds_inv _ _ _ _ _ _ _ Hbuilds)
      as (d2' & Ht2' & Hc2 & Hh2 & Hsc2 & Hk2 & _).
    destruct (both_builds_script _ _ _ _ _ _ Hbuilds) as (d2 & Ht2 & Hfol & Hiff).
    assert (d2' = d2) as ->
      by (eapply app_inv_head; rewrite <- Ht2, <- Ht2'; reflexivity).
    unfold bind at 1 in Hrun.
    destruct (run_callbacks W (exit_stack st2)
                match r2 with Ok _ => None | Raise e => Some e end st2)
      as [r3 st3] eqn:Hcb.
    destruct (run_callbacks_inv _ _ _ _ _ _ Hcb)
      as (d3 & p' & -> & Ht3 & Hc3 & Hu3 & Hm3 & Hh3 & Hsc3 & Hk3 & Hp).
    rewrite Hk2, Hk1 in Hsc3.
    destruct Hr1 as (-> & -> & -> & Hknown).
    destruct (fold_ctx_envs vs c) as [Hv1 Hv2].
    rewrite Hv1, Hv2, (deref_Some _ _ _ HA), (deref_Some _ _ _ HB) in Hfol, Hiff.
    fold script in Hfol, Hiff.
    exists (documented_trace c vs), d2, d3.
    assert (Hfinal : st' = st3 /\
              match r with
              | Ok _ => d2 = script /\
                        Forall (fun e => is_unmount_failure e = false) d3
              | Raise e => is_Exception e = true /\
                           (d2 = script ->
                            Exists (fun e => is_unmount_failure e = true) d3)
              end).
    { destruct r2 as [[]|e2'].
      - destruct Hp as [[-> Hall]|(e' & -> & He' & Hex)].
        + injection Hrun as <- <-. split; [reflexivity|].
          split; [apply Hiff; reflexivity|exact Hall].
        + injection Hrun as <- <-. auto.
      - destruct Hp as (e' & -> & He'). injection Hrun as <- <-.
        split; [reflexivity|]. split.
        + apply He'. destruct (both_builds_inv _ _ _ _ _ _ _ Hbuilds)
            as (? & _ & _ & _ & _ & _ & Hex & _). exact Hex.
        + intros Hd. apply Hiff in Hd. discriminate Hd. }
    destruct Hfinal as [-> Hfinal].
    rewrite Ht3, Ht2, Ht1, Hsc3, Hsc2, Hsc1, Hf1, <- !app_assoc.
    split_and!; try reflexivity; try assumption.
    right. split_and!; try reflexivity; try assumption.
    eapply enter_needs_PATH; eassumption.
  - unfold bind at 1 in Hrun.
    destruct (run_callbacks W (exit_stack st1) (Some e1') st1) as [r3 st3] eqn:Hcb.
    destruct (run_callbacks_inv _ _ _ _ _ _ Hcb)
      as (d3 & p' & -> & Ht3 & Hc3 & Hu3 & Hm3 & Hh3 & Hsc3 & Hk3 & Hp).
    destruct Hp as (e' & -> & He'). injection Hrun as <- <-.
    exists d1, [], d3.
    rewrite Ht3, Ht1, <- !app_assoc.
    split_and!; try reflexivity; try assumption.
    + constructor.
    + left. reflexivity.
    + apply He'. exact Hr1.
    + intros Hd. discriminate Hd.
Qed.
End Builds.

(** * Every run of [check] *)

Lemma fold_tree2 l : forall c,
  tree2 (foldl (fun c n => documented_ctx n c) c l)
  = if decide ("fileordering" ∈ l) then overlay (tree2 c) else tree2 c.
Proof.
  induction l as [|n l IH]; intros c.
  - cbn [foldl].
    destruct (decide ("fileordering" ∈ @nil string)) as [H|H]; [|reflexivity].
    apply elem_of_nil in H. contradiction.
  - cbn [foldl]. rewrite IH. cbn [documented_ctx tree2].
    destruct (String.eqb_spec n "fileordering") as [->|Hn].
    + rewrite overlay_idempotent.
      destruct (decide ("fileordering" ∈ l)) as [Hl|Hl];
        destruct (decide ("fileordering" ∈ "fileordering" :: l)) as [Hc|Hc];
        try reflexivity.
      all: exfalso; apply Hc; left.
    + destruct (decide ("fileordering" ∈ l)) as [Hl|Hl];
        destruct (decide ("fileordering" ∈ n :: l)) as [Hc|Hc];
        try reflexivity; exfalso.
      * apply Hc. right. exact Hl.
      * apply elem_of_cons in Hc as [Hc|Hc]; [congruence|contradiction].
Qed.

Lemma check_script_eq temp cmd art vs environ :
  builds_script temp art
    (foldl (fun c n => documented_ctx n c) (setup_ctx temp cmd) vs)
    (fst (foldl documented_envs (environ, environ) vs))
    (snd (foldl documented_envs (environ, environ) vs))
  = check_script temp cmd art vs environ.
Proof.
  unfold builds_script, check_script.
  destruct (fold_ctx_fields vs (setup_ctx temp cmd)) as (H1 & H2 & H3 & _ & _).
  rewrite H1, H2, H3, fold_tree2, fold_envA. reflexivity.
Qed.

Lemma not_build_step e :
  is_overlay_setup e = true \/ is_unmount e = true \/ is_setup_step e = true \/
  is_diff e = true ->
  is_build_step e = false.
Proof.
  destruct e as [[] ?|[[|? ?]|?] ? ? ?]; simpl; intros [H|[H|[H|H]]];
    try discriminate; reflexivity.
Qed.

Lemma build_step_plain e :
  is_build_step e = true ->
  is_setup_failure e = false /\ is_tempdir e = false /\ is_setup_step e = false /\
  is_unmount e = false /\ is_overlay_setup e = false /\
  is_removal_failure e = false.
Proof. event_cases e. Qed.

Lemma overlay_setup_plain e :
  is_overlay_setup e = true ->
  is_tempdir e = false /\ is_setup_step e = false /\ is_build_step e = false /\
  is_removal_failure e = false.
Proof. event_cases e. Qed.

Lemma unmount_plain e :
  is_unmount e = true ->
  is_tempdir e = false /\ is_setup_step e = false /\ is_build_step e = false /\
  is_setup_failure e = false /\ is_removal_failure e = false /\
  is_overlay_setup e = false.
Proof. event_cases e. all: by_prog. Qed.

Lemma diff_plain e :
  is_diff e = true ->
  is_tempdir e = false /\ is_setup_step e = false /\ is_build_step e = false /\
  is_setup_failure e = false /\ is_removal_failure e = false /\
  is_overlay_setup e = false /\ is_unmount_failure e = false /\
  is_build e = false /\ is_build_failure e = false /\ is_build_done e = false.
Proof. event_cases e. all: by_prog. Qed.

Lemma filter_all {A} (f : A -> bool) l :
  Forall (fun x => f x = true) l -> List.filter f l = l.
Proof.
  induction 1 as [|x l Hx _ IH]; [reflexivity|]. simpl. rewrite Hx, IH. reflexivity.
Qed.


Lemma assoc_is_Some {A} k (items : list (string * A)) :
  k ∈ map fst items -> is_Some (assoc k items).
Proof.
  induction items as [|[k' v] items IH]; simpl; intros Hin.
  - apply elem_of_nil in Hin. contradiction.
  - destruct (decide (k = k')) as [->|Hne]; [eexists; reflexivity|].
    apply elem_of_cons in Hin as [Hin|Hin]; [contradiction|apply IH, Hin].
Qed.

Section Runs.
Variable W : World.

(** The runs of [check]: the three failures of the set-up, or the set-up,
    the [with] block and the exit; in all of them but the first the removal
    of the temporary directory is the last event, answered by the world. *)
Lemma check_detail cmd art root vs environ r st' :
  check W cmd art root vs (initial_state environ) = (r, st') ->
  let temp := temp_name W in
  let src := pathlib.str root in
  (r = Raise (OSError Mkdtemp) /\ trace st' = [EvIO Mkdtemp false] /\
   scopes st' = []) \/
  (exists t ok,
      trace st' = t ++ [EvIO (Rmtree temp) ok] /\
      ok = io_ok W t (Rmtree temp) /\
      ((r = after_removal temp ok (Raise (OSError (Copytree src (temp +:+ "/tree1")))) /\
        t = [EvIO Mkdtemp true;
             EvIO (Copytree src (temp +:+ "/tree1")) false] /\
        scopes st' = []) \/
       (r = after_removal temp ok (Raise (OSError (Copytree src (temp +:+ "/tree2")))) /\
        t = [EvIO Mkdtemp true;
             EvIO (Copytree src (temp +:+ "/tree1")) true;
             EvIO (Copytree src (temp +:+ "/tree2")) false] /\
        scopes st' = []) \/
       (exists d_enter d_body d_exit tail,
           t = setup_events temp root ++ d_enter ++ d_body ++ d_exit ++ tail /\
           Forall (fun e => is_overlay_setup e = true) d_enter /\
           Forall (fun e => is_build_step e = true) d_body /\
           Forall (fun e => is_unmount e = true) d_exit /\
           (d_body = [] \/
            (follows (check_script temp cmd art vs environ) d_body /\
             Forall (fun n => is_Some (assoc n (VARIATIONS W))) vs /\
             d_enter = documented_trace (setup_ctx temp cmd) vs /\
             scopes st' = map Entered vs ++ map Left (rev vs) /\
             ("path" ∈ vs -> is_Some (environ !! "PATH")))) /\
           ((d_body = check_script temp cmd art vs environ /\
             Forall (fun e => is_unmount_failure e = false) d_exit /\
             exists status,
               tail = [EvRun (diffoscope temp) None None status] /\
               r = after_removal temp ok
                     match status with
                     | Some d => Raise (SystemExit d)
                     | None => Raise (SpawnError (diffoscope temp))
                     end) \/
            ((d_body = check_script temp cmd art vs environ ->
              Exists (fun e => is_unmount_failure e = true) d_exit) /\
             tail = [] /\
             r = after_removal temp ok (Raise (SystemExit 2))))))).
Proof.
  intros Hrun temp src.
  unfold check, with_TemporaryDirectory, copytree in Hrun.
  fold temp in Hrun. fold src in Hrun.
  cbv [bind ret raise try_ reraise dict_copy io sys_exit] in Hrun.
  simpl in Hrun.
  destruct (io_ok W [] Mkdtemp) eqn:H0; simpl in Hrun.
  2:{ injection Hrun as <- <-. left. split_and!; reflexivity. }
  right.
  destruct (io_ok W [EvIO Mkdtemp true] _) eqn:H1; simpl in Hrun.
  2:{ exists [EvIO Mkdtemp true; EvIO (Copytree src (temp +:+ "/tree1")) false],
        (io_ok W [EvIO Mkdtemp true; EvIO (Copytree src (temp +:+ "/tree1")) false]
               (Rmtree temp)).
      destruct (io_ok W _ (Rmtree temp)); simpl in Hrun;
        injection Hrun as <- <-; simpl.
      all: split_and!; try reflexivity.
      all: left; split_and!; reflexivity. }
  destruct (io_ok W [EvIO Mkdtemp true; _] _) eqn:H2; simpl in Hrun.
  2:{ exists [EvIO Mkdtemp true; EvIO (Copytree src (temp +:+ "/tree1")) true;
               EvIO (Copytree src (temp +:+ "/tree2")) false],
        (io_ok W [EvIO Mkdtemp true; EvIO (Copytree src (temp +:+ "/tree1")) true;
                  EvIO (Copytree src (temp +:+ "/tree2")) false]
               (Rmtree temp)).
      destruct (io_ok W _ (Rmtree temp)); simpl in Hrun;
        injection Hrun as <- <-; simpl.
      all: split_and!; try reflexivity.
      all: right; left; split_and!; reflexivity. }
  match type of Hrun with
  | context [guarded W ?a ?b ?c ?d ?s] =>
      change s with (setup_state temp root environ) in Hrun;
      change d with (setup_ctx temp cmd) in Hrun;
      destruct (guarded W a b c (setup_ctx temp cmd) (setup_state temp root environ))
        as [rg stg] eqn:Hg
  end.
  destruct (guarded_script W _ _ _ _ _ _ _ environ environ Hg)
    as (d1 & d2 & d3 & Ht & Hc1 & Hc2 & Hc3 & Hbody & Hres);
    [reflexivity|reflexivity|simpl; lia|].
  rewrite check_script_eq in Hbody, Hres. simpl in Ht, Hbody.
  destruct rg as [[]|e].
  - unfold call in Hrun. simpl in Hrun. destruct Hres as [Hd Hnu].
    set (status := spawn W (trace stg) (diffoscope temp) None None) in *.
    exists (trace stg ++ [EvRun (diffoscope temp) None None status]),
      (io_ok W (trace stg ++ [EvRun (diffoscope temp) None None status])
             (Rmtree temp)).
    assert (Hfin : trace st' = (trace stg ++ [EvRun (diffoscope temp) None None status])
                               ++ [EvIO (Rmtree temp)
                                     (io_ok W (trace stg ++
                                         [EvRun (diffoscope temp) None None status])
                                        (Rmtree temp))] /\
                   scopes st' = scopes stg /\
                   r = after_removal temp
                         (io_ok W (trace stg ++
                                     [EvRun (diffoscope temp) None None status])
                                (Rmtree temp))
                         match status with
                         | Some d => Raise (SystemExit d)
                         | None => Raise (SpawnError (diffoscope temp))
                         end).
    { destruct status as [d|]; simpl in Hrun;
        destruct (io_ok W _ (Rmtree temp)); simpl in Hrun;
        injection Hrun as <- <-; split_and!; reflexivity. }
    destruct Hfin as (Hfin & Hscf & ->).
    split; [exact Hfin|]. split; [reflexivity|].
    right. right.
    exists d1, d2, d3, [EvRun (diffoscope temp) None None status].
    rewrite Ht, Hscf. unfold setup_events. simpl. rewrite <- ?app_assoc.
    split_and!; try reflexivity; try assumption.
    left. split_and!; try assumption. exists status. split; reflexivity.
  - destruct Hres as [He Hd]. rewrite He in Hrun. simpl in Hrun.
    exists (trace stg), (io_ok W (trace stg) (Rmtree temp)).
    assert (Hfin : trace st' = trace stg
                               ++ [EvIO (Rmtree temp) (io_ok W (trace stg) (Rmtree temp))] /\
                   scopes st' = scopes stg /\
                   r = after_removal temp (io_ok W (trace stg) (Rmtree temp))
                         (Raise (SystemExit 2))).
    { destruct (io_ok W _ (Rmtree temp)); simpl in Hrun;
        injection Hrun as <- <-; split_and!; reflexivity. }
    destruct Hfin as (Hfin & Hscf & ->).
    split; [exact Hfin|]. split; [reflexivity|].
    right. right.
    exists d1, d2, d3, [].
    rewrite Ht, Hscf. unfold setup_events. simpl. rewrite <- ?app_assoc, ?app_nil_r.
    split_and!; try reflexivity; try assumption.
    right. split_and!; try reflexivity; assumption.
Qed.
End Runs.

Lemma Exists_not_Forall {A} (f : A -> bool) l :
  Exists (fun x => f x = true) l -> Forall (fun x => f x = false) l -> False.
Proof.
  intros Hex Hall. apply Exists_exists in Hex as (x & Hin & Hx).
  rewrite Forall_forall in Hall. rewrite (Hall x Hin) in Hx. discriminate.
Qed.

Ltac find_in_list :=
  solve [repeat first [apply list_elem_of_here | apply list_elem_of_further]].

(** A class of events holds of every event of a run of [check] that got
    past its set-up, the removal of the temporary directory apart. *)
Lemma run_classes (P : Event -> Prop) temp root d1 d2 d3 tail :
  Forall (fun e => is_overlay_setup e = true) d1 ->
  Forall (fun e => is_build_step e = true) d2 ->
  Forall (fun e => is_unmount e = true) d3 ->
  Forall (fun e => is_diff e = true) tail ->
  Forall P (setup_events temp root) ->
  (forall e, is_overlay_setup e = true -> P e) ->
  (forall e, is_build_step e = true -> P e) ->
  (forall e, is_unmount e = true -> P e) ->
  (forall e, is_diff e = true -> P e) ->
  Forall P (setup_events temp root ++ d1 ++ d2 ++ d3 ++ tail).
Proof.
  intros H1 H2 H3 H4 H0 P1 P2 P3 P4.
  repeat apply Forall_app_2; try assumption.
  - eapply Forall_impl; [exact H1|exact P1].
  - eapply Forall_impl; [exact H2|exact P2].
  - eapply Forall_impl; [exact H3|exact P3].
  - eapply Forall_impl; [exact H4|exact P4].
Qed.

Ltac class_facts :=
  let e := fresh "e" in let He := fresh "He" in
  intros e He;
  first [ pose proof (overlay_setup_class e He); pose proof (overlay_setup_plain e He)
        | pose proof (build_step_class e He); pose proof (build_step_plain e He)
        | pose proof (unmount_class e He); pose proof (unmount_plain e He)
        | pose proof (diff_plain e He) ];
  simpl in *; intuition.

(** The cases of [check_detail], with the events of the run in classes. *)
Ltac check_runs H :=
  let Hres := fresh "Hres" in
  pose proof (check_detail _ _ _ _ _ _ _ _ H) as Hres; cbv zeta in Hres;
  destruct Hres as
    [(-> & Ht & Hsc)
    |(t & ok & Ht & Hok &
      [(-> & -> & Hsc)
      |[(-> & -> & Hsc)
       |(d1 & d2 & d3 & tail & -> & Hc1 & Hc2 & Hc3 & Hbody & Hres)]])].

Section RunsOfCheck.
Variable W : World.

Lemma tail_is_diff (r : Res unit) temp ok script (d2 d3 tail : list Event) :
  (d2 = script /\
   Forall (fun e => is_unmount_failure e = false) d3 /\
   exists status,
     tail = [EvRun (diffoscope temp) None None status] /\
     r = after_removal temp ok
           match status with
           | Some d => Raise (SystemExit d)
           | None => Raise (SpawnError (diffoscope temp))
           end) \/
  ((d2 = script -> Exists (fun e => is_unmount_failure e = true) d3) /\
   tail = [] /\ r = after_removal temp ok (Raise (SystemExit 2))) ->
  Forall (fun e => is_diff e = true) tail.
Proof.
  intros [(_ & _ & status & -> & _)|(_ & -> & _)]; repeat constructor.
Qed.

(** X6: [check] raises the error of a file-system action exactly when the
    temporary directory or a tree copy could not be made, or the temporary
    directory could not be removed.  The set-up is outside the [try] block:
    when it fails, no variation is entered, nothing is run and the exit
    status 2 is not used.  The error raised is that of the removal when the
    removal failed, and that of the failed set-up action otherwise. *)
Theorem X6_setup_failure_is_raised cmd art root vs environ r st' :
  check W cmd art root vs (initial_state environ) = (r, st') ->
  ((exists a, r = Raise (OSError a)) <->
   Exists (fun e => is_setup_failure e = true) (trace st') \/
   Exists (fun e => is_removal_failure e = true) (trace st')) /\
  (Exists (fun e => is_setup_failure e = true) (trace st') ->
   Forall (fun e => is_setup_step e = true) (trace st') /\ scopes st' = []) /\
  (forall a, r = Raise (OSError a) ->
     (a = Mkdtemp \/
      a = Copytree (pathlib.str root) (temp_name W +:+ "/tree1") \/
      a = Copytree (pathlib.str root) (temp_name W +:+ "/tree2") \/
      a = Rmtree (temp_name W)) /\
     EvIO a false ∈ trace st' /\
     (a = Rmtree (temp_name W) <->
      Exists (fun e => is_removal_failure e = true) (trace st'))).
Proof.
  intros Hrun. check_runs Hrun.
  - rewrite Ht. split_and!.
    + split; [intros _; left; find_event|intros _; eexists; reflexivity].
    + intros _. split; [repeat constructor|exact Hsc].
    + intros a [= <-]. split_and!; [auto|find_in_list|].
      split; [discriminate|].
      intros Hex. apply Exists_cons in Hex as [Hex|Hex]; [discriminate Hex|].
      apply Exists_nil in Hex. contradiction.
  - rewrite Ht. clear Hok. destruct ok; simpl; split_and!.
    + split; [intros _; left; find_event|intros _; eexists; reflexivity].
    + intros _. split; [repeat constructor|exact Hsc].
    + intros a [= <-]. split_and!; [auto|find_in_list|].
      split; [discriminate|].
      intros Hex. repeat (apply Exists_cons in Hex as [Hex|Hex]; [discriminate Hex|]).
      apply Exists_nil in Hex. contradiction.
    + split; [intros _; left; find_event|intros _; eexists; reflexivity].
    + intros _. split; [repeat constructor|exact Hsc].
    + intros a [= <-]. split_and!; [auto|find_in_list|].
      split; [intros _; find_event|reflexivity].
  - rewrite Ht. clear Hok. destruct ok; simpl; split_and!.
    + split; [intros _; left; find_event|intros _; eexists; reflexivity].
    + intros _. split; [repeat constructor|exact Hsc].
    + intros a [= <-]. split_and!; [auto|find_in_list|].
      split; [discriminate|].
      intros Hex. repeat (apply Exists_cons in Hex as [Hex|Hex]; [discriminate Hex|]).
      apply Exists_nil in Hex. contradiction.
    + split; [intros _; left; find_event|intros _; eexists; reflexivity].
    + intros _. split; [repeat constructor|exact Hsc].
    + intros a [= <-]. split_and!; [auto|find_in_list|].
      split; [intros _; find_event|reflexivity].
  - pose proof (tail_is_diff _ _ _ _ _ _ _ Hres) as Htail.
    assert (Hquiet : Forall (fun e => is_setup_failure e = false /\
                                      is_removal_failure e = false)
                       (setup_events (temp_name W) root ++ d1 ++ d2 ++ d3 ++ tail)).
    { apply run_classes; try assumption; try class_facts. repeat constructor. }
    assert (Hns : ~ Exists (fun e => is_setup_failure e = true) (trace st')).
    { rewrite Ht. intros Hex. apply Exists_app in Hex as [Hex|Hex].
      - eapply Exists_not_Forall; [exact Hex|].
        eapply Forall_impl; [exact Hquiet|]. intros e He. apply He.
      - apply Exists_cons in Hex as [Hex|Hex]; [discriminate Hex|].
        apply Exists_nil in Hex. contradiction. }
    assert (Hrm : Exists (fun e => is_removal_failure e = true) (trace st')
                  <-> ok = false).
    { rewrite Ht. split.
      - intros Hex. apply Exists_app in Hex as [Hex|Hex].
        + exfalso. eapply Exists_not_Forall; [exact Hex|].
          eapply Forall_impl; [exact Hquiet|]. intros e He. apply He.
        + apply Exists_cons in Hex as [Hex|Hex];
            [destruct ok; [discriminate Hex|reflexivity]|].
          apply Exists_nil in Hex. contradiction.
      - intros ->. apply Exists_app. right. find_event. }
    assert (Hr : forall a, r = Raise (OSError a) ->
                           ok = false /\ a = Rmtree (temp_name W)).
    { intros a Hr. clear Hok Hrm.
      destruct ok; destruct Hres as [(_ & _ & [s|] & _ & ->)|(_ & _ & ->)];
        simpl in Hr; try discriminate Hr.
      all: injection Hr as <-; split; reflexivity. }
    split_and!.
    + split.
      * intros [a Ha]. right. apply Hrm. apply (Hr a Ha).
      * intros [Hex|Hex]; [destruct (Hns Hex)|]. apply Hrm in Hex.
        clear Hok Hrm Hr. subst ok.
        destruct Hres as [(_ & _ & status & _ & ->)|(_ & _ & ->)];
          eexists; reflexivity.
    + intros Hex. destruct (Hns Hex).
    + intros a Ha. destruct (Hr a Ha) as [Hokf ->]. split_and!.
      * do 3 right. reflexivity.
      * rewrite Ht, Hokf. apply elem_of_app. right. find_in_list.
      * split; [intros _; apply Hrm, Hokf|reflexivity].
Qed.

(** X7: [check] never returns normally.  It raises the error of a failed
    set-up action or of a failed removal of the temporary directory, or
    exits with status 2, or exits with the status that the diff tool
    returned, or, when the diff tool could not be started, raises that
    error, the call of the tool being outside the [try] block.  A
    [KeyError] of the loop and the [CalledProcessError] of a mount, an
    unmount or a build command never leave [check]. *)
Theorem X7_outcomes_of_check cmd art root vs environ r st' :
  check W cmd art root vs (initial_state environ) = (r, st') ->
  ((exists a, r = Raise (OSError a) /\
              (is_setup_failure (EvIO a false) = true \/
               a = Rmtree (temp_name W))) \/
   r = Raise (SystemExit 2) \/
   (exists status t,
       r = Raise (SystemExit status) /\
       trace st' = t ++ [EvRun (diffoscope (temp_name W)) None None (Some status);
                         EvIO (Rmtree (temp_name W)) true]) \/
   (r = Raise (SpawnError (diffoscope (temp_name W))) /\
    exists t,
      trace st' = t ++ [EvRun (diffoscope (temp_name W)) None None None;
                        EvIO (Rmtree (temp_name W)) true])) /\
  r <> Ok tt /\
  (forall k, r <> Raise (KeyError k)) /\
  (forall status c, r <> Raise (CalledProcessError status c)).
Proof.
  intros Hrun. check_runs Hrun.
  - split; [left; eexists; split; [reflexivity|left; reflexivity]
           |split_and!; discriminate].
  - clear Hok. destruct ok; unfold after_removal;
      (split; [left; eexists; split;
                 [reflexivity|first [left; reflexivity|right; reflexivity]]
              |split_and!; discriminate]).
  - clear Hok. destruct ok; unfold after_removal;
      (split; [left; eexists; split;
                 [reflexivity|first [left; reflexivity|right; reflexivity]]
              |split_and!; discriminate]).
  - clear Hok.
    destruct ok; destruct Hres as [(_ & _ & [s|] & -> & ->)|(_ & -> & ->)];
      unfold after_removal.
    all: split; [|split_and!; discriminate].
    + right. right. left.
      exists s, (setup_events (temp_name W) root ++ d1 ++ d2 ++ d3).
      split; [reflexivity|]. rewrite Ht, <- !app_assoc. reflexivity.
    + right. right. right. split; [reflexivity|].
      exists (setup_events (temp_name W) root ++ d1 ++ d2 ++ d3).
      rewrite Ht, <- !app_assoc. reflexivity.
    + right. left. reflexivity.
    + left. eexists. split; [reflexivity|right; reflexivity].
    + left. eexists. split; [reflexivity|right; reflexivity].
    + left. eexists. split; [reflexivity|right; reflexivity].
Qed.

(** X8: the temporary directory is created first and, once it exists, its
    removal is attempted exactly once, as the last thing [check] does,
    whether [check] is about to exit or to raise; no temporary directory is
    created or removed in between.  The world answers the removal, and
    [check] raises the error of the removal exactly when it fails. *)
Theorem X8_temporary_directory_removed_last cmd art root vs environ r st' :
  check W cmd art root vs (initial_state environ) = (r, st') ->
  (trace st' = [EvIO Mkdtemp false] /\ r = Raise (OSError Mkdtemp)) \/
  exists t ok,
    trace st' = EvIO Mkdtemp true :: t ++ [EvIO (Rmtree (temp_name W)) ok] /\
    Forall (fun e => is_tempdir e = false) t /\
    ok = io_ok W (EvIO Mkdtemp true :: t) (Rmtree (temp_name W)) /\
    (ok = false <-> r = Raise (OSError (Rmtree (temp_name W)))).
Proof.
  intros Hrun. check_runs Hrun.
  - left. split; [exact Ht|reflexivity].
  - right. eexists [_], ok. split; [exact Ht|]. split; [repeat constructor|].
    split; [exact Hok|]. clear Hok. destruct ok; simpl; split; try reflexivity;
      discriminate.
  - right. eexists [_; _], ok. split; [exact Ht|]. split; [repeat constructor|].
    split; [exact Hok|]. clear Hok. destruct ok; simpl; split; try reflexivity;
      discriminate.
  - right. pose proof (tail_is_diff _ _ _ _ _ _ _ Hres) as Htail.
    exists ([EvIO (Copytree (pathlib.str root) (temp_name W +:+ "/tree1")) true;
             EvIO (Copytree (pathlib.str root) (temp_name W +:+ "/tree2")) true]
            ++ d1 ++ d2 ++ d3 ++ tail), ok.
    split_and!.
    + rewrite Ht. reflexivity.
    + repeat apply Forall_app_2; [repeat constructor| | | | ];
        (eapply Forall_impl; [eassumption|]); class_facts.
    + exact Hok.
    + clear Hok.
      destruct ok; destruct Hres as [(_ & _ & [s|] & _ & ->)|(_ & _ & ->)]; simpl;
        split; try reflexivity; discriminate.
Qed.

(** X9: the events of the two builds are, in order, the steps of one
    script, up to the first step that fails, which is then the last: the
    store of build A is opened, the command is run as it was given in the
    first copy of the tree, its artifact is opened and read, the store is
    written and flushed; then the same for build B with the prefixed
    command, in the second copy or in the mount point of its overlay, the
    artifact being read from the second copy in both cases.  No build step
    is taken unless every listed name is known and every variation was
    entered. *)
Theorem X9_builds_follow_script cmd art root vs environ r st' :
  check W cmd art root vs (initial_state environ) = (r, st') ->
  let body := List.filter is_build_step (trace st') in
  (body = [] \/ follows (check_script (temp_name W) cmd art vs environ) body) /\
  (body <> [] ->
   Forall (fun n => is_Some (assoc n (VARIATIONS W))) vs /\
   scopes st' = map Entered vs ++ map Left (rev vs) /\
   documented_trace (setup_ctx (temp_name W) cmd) vs
     = List.filter is_overlay_setup (trace st')).
Proof.
  intros Hrun body. subst body. check_runs Hrun.
  1-3: rewrite Ht; simpl; split; [left; reflexivity|intros []; reflexivity].
  pose proof (tail_is_diff _ _ _ _ _ _ _ Hres) as Htail.
  assert (Hb : List.filter is_build_step (trace st') = d2).
  { rewrite Ht, !List.filter_app.
    rewrite (filter_none _ (setup_events _ _)), (filter_none _ d1),
      (filter_all _ d2), (filter_none _ d3), (filter_none _ tail);
      try assumption.
    - simpl. rewrite ?app_nil_r. reflexivity.
    - eapply Forall_impl; [exact Htail|]. class_facts.
    - eapply Forall_impl; [exact Hc3|]. class_facts.
    - eapply Forall_impl; [exact Hc1|]. class_facts.
    - repeat constructor. }
  rewrite Hb. split.
  - destruct Hbody as [->|(Hf & _)]; [left; reflexivity|right; exact Hf].
  - intros Hne.
    destruct Hbody as [->|(_ & Hk & Hd & Hscs & _)]; [destruct Hne; reflexivity|].
    split_and!; try assumption.
    rewrite Ht, !List.filter_app.
    rewrite (filter_none _ (setup_events _ _)), (filter_all _ d1),
      (filter_none _ d2), (filter_none _ d3), (filter_none _ tail);
      try assumption.
    + simpl. rewrite !app_nil_r. symmetry. exact Hd.
    + eapply Forall_impl; [exact Htail|]. class_facts.
    + eapply Forall_impl; [exact Hc3|]. class_facts.
    + eapply Forall_impl; [exact Hc2|]. class_facts.
    + repeat constructor.
Qed.

(** X10: an exit status other than 2 is the status that the diff tool
    returned, and the tool was then run after all twelve steps of the two
    builds succeeded, every listed variation was entered and left, and no
    unmount failed; the call of the tool and the removal of the temporary
    directory are the last two events. *)
Theorem X10_other_status_means_compared cmd art root vs environ r st' code :
  check W cmd art root vs (initial_state environ) = (r, st') ->
  r = Raise (SystemExit code) -> code <> 2%Z ->
  List.filter is_build_step (trace st')
  = check_script (temp_name W) cmd art vs environ /\
  Forall (fun e => is_unmount_failure e = false) (trace st') /\
  Forall (fun n => is_Some (assoc n (VARIATIONS W))) vs /\
  scopes st' = map Entered vs ++ map Left (rev vs) /\
  exists t,
    trace st' = t ++ [EvRun (diffoscope (temp_name W)) None None (Some code);
                      EvIO (Rmtree (temp_name W)) true] /\
    Forall (fun e => is_diff e = false) t.
Proof.
  intros Hrun Hr Hcode. check_runs Hrun; try discriminate Hr.
  1-2: clear Hok; destruct ok; discriminate Hr.
  clear Hok.
  destruct ok; destruct Hres as [(Hd & Hnu & [s|] & -> & ->)|(_ & _ & ->)];
    simpl in Hr; try discriminate Hr.
  2:{ injection Hr as <-. destruct Hcode. reflexivity. }
  injection Hr as ->.
  destruct Hbody as [->|(_ & Hk & _ & Hscs & _)]; [discriminate Hd|].
  split_and!; try assumption.
  - rewrite Ht, <- Hd, !List.filter_app.
    rewrite (filter_none _ (setup_events _ _)), (filter_none _ d1),
      (filter_all _ d2), (filter_none _ d3); try assumption.
    + simpl. rewrite ?app_nil_r. reflexivity.
    + eapply Forall_impl; [exact Hc3|]. class_facts.
    + eapply Forall_impl; [exact Hc1|]. class_facts.
    + repeat constructor.
  - rewrite Ht. repeat apply Forall_app_2.
    + repeat constructor.
    + eapply Forall_impl; [exact Hc1|]. class_facts.
    + eapply Forall_impl; [exact Hc2|]. class_facts.
    + exact Hnu.
    + constructor; [destruct code; reflexivity|constructor].
    + repeat constructor.
  - exists (setup_events (temp_name W) root ++ d1 ++ d2 ++ d3). split.
    + rewrite Ht, <- !app_assoc. reflexivity.
    + repeat apply Forall_app_2.
      * repeat constructor.
      * eapply Forall_impl; [exact Hc1|]. class_facts.
      * eapply Forall_impl; [exact Hc2|]. class_facts.
      * eapply Forall_impl; [exact Hc3|]. class_facts.
Qed.

(** X11: when [path] is among the variations and [PATH] is not set in the
    process environment, [check] takes no build step and never runs the
    diff tool, whatever else is selected: once the set-up is done it
    removes the temporary directory and exits with status 2, or raises the
    error of the removal when the removal fails. *)
Theorem X11_path_without_PATH cmd art root vs environ r st' :
  check W cmd art root vs (initial_state environ) = (r, st') ->
  "path" ∈ vs -> environ !! "PATH" = None ->
  Forall (fun e => is_build_step e = false /\ is_diff e = false) (trace st') /\
  ((setup_events (temp_name W) root `prefix_of` trace st' /\
    exists ok,
      last (trace st') = Some (EvIO (Rmtree (temp_name W)) ok) /\
      r = if ok then Raise (SystemExit 2)
          else Raise (OSError (Rmtree (temp_name W)))) \/
   (exists a, r = Raise (OSError a) /\
              Exists (fun e => is_setup_failure e = true) (trace st'))).
Proof.
  intros Hrun Hin Hnone. check_runs Hrun.
  - rewrite Ht. split; [repeat constructor|].
    right. eexists. split; [reflexivity|find_event].
  - rewrite Ht. clear Hok. destruct ok; simpl; (split; [repeat constructor|]);
      right; eexists; (split; [reflexivity|find_event]).
  - rewrite Ht. clear Hok. destruct ok; simpl; (split; [repeat constructor|]);
      right; eexists; (split; [reflexivity|find_event]).
  - destruct Hbody as [->|(_ & _ & _ & _ & Hp)].
    2:{ destruct (Hp Hin) as [p Hp']. rewrite Hnone in Hp'. discriminate Hp'. }
    destruct Hres as [(Hd & _)|(_ & -> & ->)]; [discriminate Hd|].
    rewrite Ht. split.
    + repeat apply Forall_app_2; try apply Forall_nil_2.
      * repeat constructor.
      * eapply Forall_impl; [exact Hc1|]. class_facts.
      * eapply Forall_impl; [exact Hc3|]. class_facts.
      * repeat constructor.
    + left. split.
      * rewrite <- app_assoc. apply prefix_app_r. reflexivity.
      * exists ok. split; [apply last_snoc|]. destruct ok; reflexivity.
Qed.
End RunsOfCheck.

Lemma X6_setup_failure_is_raised_witness :
  ((exists a, fst run_copy_fails = Raise (OSError a)) <->
   Exists (fun e => is_setup_failure e = true) (trace (snd run_copy_fails)) \/
   Exists (fun e => is_removal_failure e = true) (trace (snd run_copy_fails))) /\
  (Exists (fun e => is_setup_failure e = true) (trace (snd run_copy_fails)) ->
   Forall (fun e => is_setup_step e = true) (trace (snd run_copy_fails)) /\
   scopes (snd run_copy_fails) = []) /\
  (forall a, fst run_copy_fails = Raise (OSError a) ->
     (a = Mkdtemp \/
      a = Copytree (pathlib.str ex_root) (temp_name ex_copy_world +:+ "/tree1") \/
      a = Copytree (pathlib.str ex_root) (temp_name ex_copy_world +:+ "/tree2") \/
      a = Rmtree (temp_name ex_copy_world)) /\
     EvIO a false ∈ trace (snd run_copy_fails) /\
     (a = Rmtree (temp_name ex_copy_world) <->
      Exists (fun e => is_removal_failure e = true) (trace (snd run_copy_fails)))).
Proof.
  apply (X6_setup_failure_is_raised ex_copy_world ["make"] "out.bin" ex_root
           ["home"] ex_environ (fst run_copy_fails) (snd run_copy_fails)).
  vm_compute. reflexivity.
Defined.

Lemma X7_outcomes_of_check_witness :
  fst run_no_diff_tool = Raise (SpawnError (diffoscope "/tmp/t")) /\
  fst run_no_diff_tool <> Ok tt /\
  (forall k, fst run_no_diff_tool <> Raise (KeyError k)) /\
  (forall status c, fst run_no_diff_tool <> Raise (CalledProcessError status c)).
Proof.
  split; [vm_compute; reflexivity|].
  apply (X7_outcomes_of_check ex_nodiff_world ["make"] "out.bin" ex_root
           ["kernel"] ex_environ (fst run_no_diff_tool) (snd run_no_diff_tool)).
  vm_compute. reflexivity.
Defined.

Lemma X8_temporary_directory_removed_last_witness :
  (trace (snd run_build_fails_temp_kept) = [EvIO Mkdtemp false] /\
   fst run_build_fails_temp_kept = Raise (OSError Mkdtemp)) \/
  exists t ok,
    trace (snd run_build_fails_temp_kept)
    = EvIO Mkdtemp true
      :: t ++ [EvIO (Rmtree (temp_name (world_keeps_temp ["make"] 0))) ok] /\
    Forall (fun e => is_tempdir e = false) t /\
    ok = io_ok (world_keeps_temp ["make"] 0) (EvIO Mkdtemp true :: t)
               (Rmtree (temp_name (world_keeps_temp ["make"] 0))) /\
    (ok = false <->
     fst run_build_fails_temp_kept
     = Raise (OSError (Rmtree (temp_name (world_keeps_temp ["make"] 0))))).
Proof.
  apply (X8_temporary_directory_removed_last (world_keeps_temp ["make"] 0) ["make"]
           "out.bin" ex_root [] ex_environ
           (fst run_build_fails_temp_kept) (snd run_build_fails_temp_kept)).
  vm_compute. reflexivity.
Defined.

Lemma X9_builds_follow_script_witness :
  let body := List.filter is_build_step (trace (snd run_build_fails)) in
  (body = [] \/
   follows (check_script (temp_name (world ["make"] 0)) ["make"] "out.bin" []
                         ex_environ) body) /\
  (body <> [] ->
   Forall (fun n => is_Some (assoc n (VARIATIONS (world ["make"] 0)))) [] /\
   scopes (snd run_build_fails) = map Entered [] ++ map Left (rev []) /\
   documented_trace (setup_ctx (temp_name (world ["make"] 0)) ["make"]) []
     = List.filter is_overlay_setup (trace (snd run_build_fails))).
Proof.
  apply (X9_builds_follow_script (world ["make"] 0) ["make"] "out.bin" ex_root
           [] ex_environ (fst run_build_fails) (snd run_build_fails)).
  vm_compute. reflexivity.
Defined.

Lemma X10_other_status_means_compared_witness :
  fst run_differs = Raise (SystemExit 3) /\ 3%Z <> 2%Z /\
  List.filter is_build_step (trace (snd run_differs))
  = check_script (temp_name (world [] 3)) ["make"] "out.bin"
                 ["fileordering"; "kernel"] ex_environ /\
  Forall (fun e => is_unmount_failure e = false) (trace (snd run_differs)) /\
  Forall (fun n => is_Some (assoc n (VARIATIONS (world [] 3))))
         ["fileordering"; "kernel"] /\
  scopes (snd run_differs)
  = map Entered ["fileordering"; "kernel"] ++ map Left (rev ["fileordering"; "kernel"]) /\
  exists t,
    trace (snd run_differs)
    = t ++ [EvRun (diffoscope (temp_name (world [] 3))) None None (Some 3%Z);
            EvIO (Rmtree (temp_name (world [] 3))) true] /\
    Forall (fun e => is_diff e = false) t.
Proof.
  assert (H1 : fst run_differs = Raise (SystemExit 3)) by (vm_compute; reflexivity).
  assert (H2 : 3%Z <> 2%Z) by lia.
  split; [exact H1|]. split; [exact H2|].
  apply (X10_other_status_means_compared (world [] 3) ["make"] "out.bin" ex_root
           ["fileordering"; "kernel"] ex_environ (fst run_differs) (snd run_differs)
           3%Z).
  - vm_compute. reflexivity.
  - exact H1.
  - exact H2.
Defined.

Lemma X11_path_without_PATH_witness :
  "path" ∈ ["home"; "path"] /\ (∅ : Env) !! "PATH" = None /\
  Forall (fun e => is_build_step e = false /\ is_diff e = false)
         (trace (snd run_no_PATH)) /\
  ((setup_events (temp_name (world [] 0)) ex_root `prefix_of` trace (snd run_no_PATH) /\
    exists ok,
      last (trace (snd run_no_PATH))
      = Some (EvIO (Rmtree (temp_name (world [] 0))) ok) /\
      fst run_no_PATH = if ok then Raise (SystemExit 2)
                        else Raise (OSError (Rmtree (temp_name (world [] 0))))) \/
   (exists a, fst run_no_PATH = Raise (OSError a) /\
              Exists (fun e => is_setup_failure e = true) (trace (snd run_no_PATH)))).
Proof.
  assert (H1 : "path" ∈ ["home"; "path"]) by (repeat constructor).
  assert (H2 : (∅ : Env) !! "PATH" = None) by reflexivity.
  split; [exact H1|]. split; [exact H2|].
  apply (X11_path_without_PATH (world [] 0) ["make"] "out.bin" ex_root
           ["home"; "path"] ∅ (fst run_no_PATH) (snd run_no_PATH)).
  - vm_compute. reflexivity.
  - exact H1.
  - exact H2.
Defined.

(** * The options *)

Lemma CONFIG_OPTIONS_eq :
  CONFIG_OPTIONS = ["build_command"; "artifact"; "source_root"; "variations";
                    "dont_vary"; "verbosity"].
Proof. vm_compute. reflexivity. Qed.

Lemma odict_set_fresh options k v :
  k ∉ map fst options -> odict_set options k v = options ++ [(k, v)].
Proof.
  induction options as [|[k' v'] options IH]; intros Hk; [reflexivity|].
  simpl in *. apply not_elem_of_cons in Hk as [Hne Hk].
  destruct (decide (k = k')) as [->|_]; [congruence|].
  rewrite IH by exact Hk. reflexivity.
Qed.

Lemma str_of_string (src : string) :
  src <> "" -> pathlib.str (pathlib.mkPath "" [src]) = src.
Proof.
  intros Hne. unfold pathlib.str. cbn. rewrite bool_decide_eq_false_2 by exact Hne.
  reflexivity.
Qed.


Section ConfigFacts.
Variable str_split : string -> list string.

Lemma config_loop_step basics option rest options :
  config_loop str_split basics (option :: rest) options =
  match basics !! option with
  | Some (Reads _) =>
      config_loop str_split basics rest
                  (odict_set options option (stored str_split basics option))
  | Some (Refuses error) => Failed (ParserError error)
  | None => Failed (MissingOption option)
  end.
Proof.
  cbn [config_loop]. unfold section_getitem, stored.
  destruct (basics !! option) as [[v|error]|] eqn:Hv.
  - rewrite (bool_decide_eq_true_2 (is_Some (Some (Reads v))))
      by (eexists; reflexivity).
    cbn [andb]. destruct (bool_decide (option ∈ MULTIPLET_OPTIONS)); reflexivity.
  - destruct (_ && _); reflexivity.
  - destruct (_ && _); reflexivity.
Qed.

Lemma config_loop_spec basics todo : forall options,
  NoDup todo -> (forall k, k ∈ todo -> k ∉ map fst options) ->
  match config_loop str_split basics todo options with
  | Got options' =>
      Forall (fun k => exists v, basics !! k = Some (Reads v)) todo /\
      options' = options ++ map (fun k => (k, stored str_split basics k)) todo
  | Failed e =>
      exists l1 k l2,
        todo = l1 ++ k :: l2 /\
        Forall (fun k => exists v, basics !! k = Some (Reads v)) l1 /\
        ((basics !! k = None /\ e = MissingOption k) \/
         (exists error, basics !! k = Some (Refuses error) /\ e = ParserError error))
  end.
Proof.
  induction todo as [|k todo IH]; intros options Hnd Hfresh.
  { simpl. rewrite app_nil_r. split; [constructor|reflexivity]. }
  rewrite config_loop_step. apply NoDup_cons in Hnd as [Hk Hnd].
  destruct (basics !! k) as [[v|error]|] eqn:Hv.
  - rewrite odict_set_fresh by (apply Hfresh; left).
    specialize (IH (options ++ [(k, stored str_split basics k)]) Hnd).
    destruct (config_loop str_split basics todo
                          (options ++ [(k, stored str_split basics k)]))
      as [options'|e].
    + destruct IH as [Hall ->].
      * intros k' Hk'. rewrite map_app. simpl. intros Hin.
        apply elem_of_app in Hin as [Hin|Hin].
        -- apply (Hfresh k'); [right; exact Hk'|exact Hin].
        -- apply list_elem_of_singleton in Hin. subst. contradiction.
      * split; [constructor; [rewrite Hv; eexists; reflexivity|exact Hall]|].
        rewrite <- app_assoc. reflexivity.
    + destruct IH as (l1 & k0 & l2 & -> & Hall & Hwhy).
      * intros k' Hk'. rewrite map_app. simpl. intros Hin.
        apply elem_of_app in Hin as [Hin|Hin].
        -- apply (Hfresh k'); [right; exact Hk'|exact Hin].
        -- apply list_elem_of_singleton in Hin. subst. contradiction.
      * exists (k :: l1), k0, l2. split_and!; [reflexivity| |exact Hwhy].
        constructor; [rewrite Hv; eexists; reflexivity|exact Hall].
  - exists [], k, todo. split_and!; [reflexivity|constructor|].
    right. exists error. split; [exact Hv|reflexivity].
  - exists [], k, todo. split_and!; [reflexivity|constructor|].
    left. split; [exact Hv|reflexivity].
Qed.

Lemma config_spec basics :
  match config str_split (Parsed (Some basics)) with
  | Got options =>
      Forall (fun k => exists v, basics !! k = Some (Reads v)) CONFIG_OPTIONS /\
      options = map (fun k => (k, stored str_split basics k)) CONFIG_OPTIONS
  | Failed e =>
      exists l1 k l2,
        CONFIG_OPTIONS = l1 ++ k :: l2 /\
        Forall (fun k => exists v, basics !! k = Some (Reads v)) l1 /\
        ((basics !! k = None /\ e = MissingOption k) \/
         (exists error, basics !! k = Some (Refuses error) /\ e = ParserError error))
  end.
Proof.
  unfold config. apply (config_loop_spec basics CONFIG_OPTIONS []).
  - rewrite CONFIG_OPTIONS_eq. apply (bool_decide_unpack _). vm_compute. exact I.
  - intros k _ Hin. apply elem_of_nil in Hin. contradiction.
Qed.

(** X13: what [config] returns, by what the parser of the configuration
    file answers.  When the parser raises on reading the file, that is the
    exception of [config].  Without a section [basics], [config] returns no
    option.  With one, it reads the six options of [CONFIG_OPTIONS] in
    their order: when each of them is set and its value can be read, it
    returns the six, the three of [MULTIPLET_OPTIONS] as what [str.split]
    makes of their values and the others as they are read; otherwise it
    raises for the first of them that is not set ([KeyError]) or whose
    value the parser refuses (its exception), the later ones not being
    read.  What else the section holds plays no role. *)
Theorem X13_config_needs_every_option basics error :
  config str_split (Unparsed error) = Failed (ParserError error) /\
  config str_split (Parsed None) = Got [] /\
  (Forall (fun k => exists v, basics !! k = Some (Reads v)) CONFIG_OPTIONS <->
   exists options, config str_split (Parsed (Some basics)) = Got options) /\
  match config str_split (Parsed (Some basics)) with
  | Got options =>
      options = map (fun k => (k, stored str_split basics k)) CONFIG_OPTIONS /\
      map fst options = ["build_command"; "artifact"; "source_root";
                         "variations"; "dont_vary"; "verbosity"] /\
      (forall k l, assoc k options = Some (Words l) ->
                   k ∈ MULTIPLET_OPTIONS /\
                   exists v, basics !! k = Some (Reads v) /\ l = str_split v) /\
      (forall k s, assoc k options = Some (Str s) ->
                   (k ∉ MULTIPLET_OPTIONS) /\ basics !! k = Some (Reads s))
  | Failed e =>
      exists l1 k l2,
        CONFIG_OPTIONS = l1 ++ k :: l2 /\
        Forall (fun k => exists v, basics !! k = Some (Reads v)) l1 /\
        ((basics !! k = None /\ e = MissingOption k) \/
         (exists error, basics !! k = Some (Refuses error) /\ e = ParserError error))
  end.
Proof.
  split; [reflexivity|]. split; [reflexivity|].
  pose proof (config_spec basics) as Hspec.
  destruct (config str_split (Parsed (Some basics))) as [options|e].
  - destruct Hspec as [Hall ->]. split; [split; [eauto|intros _; exact Hall]|].
    split; [reflexivity|]. rewrite CONFIG_OPTIONS_eq in Hall |- *.
    split; [reflexivity|].
    assert (Hval : forall k val,
               assoc k (map (fun k => (k, stored str_split basics k))
                            ["build_command"; "artifact"; "source_root";
                             "variations"; "dont_vary"; "verbosity"]) = Some val ->
               val = stored str_split basics k /\
               exists v, basics !! k = Some (Reads v)).
    { intros k val. rewrite !Forall_cons in Hall. simpl.
      repeat (destruct (decide _) as [->|_];
              [intros [= <-]; split; [reflexivity|tauto]|]).
      discriminate. }
    split.
    + intros k l Hk. destruct (Hval k _ Hk) as [Hst [v Hv]].
      unfold stored in Hst. rewrite Hv in Hst.
      destruct (bool_decide (k ∈ MULTIPLET_OPTIONS)) eqn:Hm; [|discriminate Hst].
      apply bool_decide_eq_true_1 in Hm. injection Hst as ->. eauto.
    + intros k s Hk. destruct (Hval k _ Hk) as [Hst [v Hv]].
      unfold stored in Hst. rewrite Hv in Hst.
      destruct (bool_decide (k ∈ MULTIPLET_OPTIONS)) eqn:Hm; [discriminate Hst|].
      apply bool_decide_eq_false_1 in Hm. injection Hst as ->. auto.
  - split; [|exact Hspec].
    destruct Hspec as (l1 & k & l2 & Heq & _ & Hwhy).
    split; [|intros [? ?]; discriminate].
    intros Hall. exfalso. rewrite Heq in Hall.
    apply Forall_app in Hall as [_ Hall]. apply Forall_cons in Hall as [[v Hv] _].
    destruct Hwhy as [[Hnone _]|(err & Href & _)]; congruence.
Qed.

Section Main.
Variable W : World.

(** [check] on a path is [check_str] on the string of the path, and every
    string but the empty one is the string of some path. *)
Lemma check_str_is_check cmd art src vs :
  src <> "" ->
  check_str W cmd art src vs = check W cmd art (pathlib.mkPath "" [src]) vs.
Proof.
  intros Hne. unfold check, check_str. rewrite (str_of_string src Hne). reflexivity.
Qed.


Lemma restore_order_known (S : gset string) :
  Forall (fun n => is_Some (assoc n (VARIATIONS W))) (restore_order W S) /\
  NoDup (restore_order W S) /\
  restore_order W S `sublist_of` VARIATIONS_keys W.
Proof.
  unfold restore_order. split_and!.
  - apply Forall_forall. intros n Hn.
    apply (list_elem_of_filter (fun v => v ∈ S)) in Hn as [_ Hn].
    apply assoc_is_Some. exact Hn.
  - apply NoDup_filter. apply (bool_decide_unpack _). vm_compute. exact I.
  - apply sublist_filter.
Qed.

(** X14: what [main] does, by what the parser of the configuration file,
    [argparse] and [Path.cwd()] answer.  A run is one of five.  The
    exception of [config] leaves [main] before the command line is looked
    at.  Or, [config] having returned, [argparse] leaves the program with
    its own status.  Or [Path.cwd()] fails and its error leaves [main].
    Or [main] prints that the build command, or the artifact, is missing
    and exits with status 2.  In these four nothing has been run and
    logging is not configured.  Or [main] calls [check] with a build
    command of at least one word, an artifact name that is not empty, and
    variations that all are names of the registry, in its order and
    without repetition, none of them named by [--dont-vary]: a name that
    the registry does not have is dropped and never reaches [check].  On
    that last path [main] prints nothing itself, the level of logging
    comes from the command line alone, and the run ends as [check] does. *)
Theorem X14_main_cases file parsed cwd st :
  let run := main str_split W file parsed cwd st in
  (exists e, config str_split file = Failed e /\
             run = mkMainRun [] None (ConfigRaised e) st) \/
  (exists options code,
      config str_split file = Got options /\ parsed = ParserExit code /\
      run = mkMainRun [] None (ArgparseExited code) st) \/
  (exists options found error,
      config str_split file = Got options /\ parsed = Namespace found /\
      cwd = CwdFails error /\
      run = mkMainRun [] None (CwdRaised error) st) \/
  (exists options found here m,
      config str_split file = Got options /\ parsed = Namespace found /\
      cwd = CwdIs here /\
      (m = "No build command provided." \/
       m = "No build artifact to test for differences provided.") /\
      run = mkMainRun [m] None (Ended (Raise (SystemExit 2))) st) \/
  (exists options found here cmd art src vs,
      config str_split file = Got options /\ parsed = Namespace found /\
      cwd = CwdIs here /\
      cmd <> [] /\ art <> "" /\
      Forall (fun n => is_Some (assoc n (VARIATIONS W))) vs /\
      NoDup vs /\ vs `sublist_of` VARIATIONS_keys W /\
      (forall s v, arg_dont_vary found = Some s -> v ∈ names s -> v ∉ vs) /\
      printed run = [] /\
      log_level run = Some (30 - 10 * default 0 (arg_verbosity found))%Z /\
      result run = Ended (fst (check_str W cmd art src vs st)) /\
      final run = snd (check_str W cmd art src vs st) /\
      (src <> "" ->
       check_str W cmd art src vs = check W cmd art (pathlib.mkPath "" [src]) vs)).
Proof.
  intros run. subst run. unfold main.
  destruct (config str_split file) as [options|e] eqn:Hcfg.
  2:{ left. exists e. auto. }
  right. destruct parsed as [code|found]; cbn [command_line].
  { left. exists options, code. auto. }
  right. destruct cwd as [here|error].
  2:{ left. exists options, found, error. auto. }
  right. cbn [cl_build_command cl_artifact cl_source_root cl_variations
              cl_dont_vary cl_verbosity].
  set (S := selected W _ _ _ _).
  destruct (match str_split <$> arg_build_command found with
            | Some l => Some l
            | None => get_words "build_command" options
            end) as [[|w cmd]|].
  1,3: left; exists options, found, here; eexists;
       split_and!; [reflexivity|reflexivity|reflexivity|left; reflexivity|reflexivity].
  destruct (match arg_artifact found with
            | Some a => Some a
            | None => get_str "artifact" options
            end) as [[|a art]|].
  1,3: left; exists options, found, here; eexists;
       split_and!; [reflexivity|reflexivity|reflexivity|right; reflexivity|reflexivity].
  right. destruct (restore_order_known S) as (Hk & Hnd & Hsub).
  exists options, found, here.
  match goal with
  | |- context [check_str W ?c ?a ?s ?v st] => exists c, a, s, v
  end.
  split_and!; try discriminate; try assumption; try reflexivity.
  - intros s v Hs Hv Hin.
    apply (list_elem_of_filter (fun v => v ∈ S)) in Hin as [Hsel _].
    subst S. unfold selected in Hsel. rewrite Hs in Hsel.
    cbn [fmap option_fmap option_map] in Hsel.
    apply elem_of_difference in Hsel as [_ Hn]. contradiction.
  - apply check_str_is_check.
Qed.
End Main.
End ConfigFacts.

(** * The run in which nothing fails *)

Lemma known_cases W n :
  is_Some (assoc n (VARIATIONS W)) ->
  is_plain n = true \/ n = "fileordering" \/ n = "path".
Proof.
  unfold VARIATIONS. cbn [assoc].
  repeat (destruct (decide _) as [-> | ?]; [intros _; auto|]).
  intros [? H]. discriminate H.
Qed.

Section Cooperative.
Variable W : World.
Variable d : Z.
Hypothesis Hcoop : cooperative W d.

Lemma step_total n c st e1 :
  is_Some (assoc n (VARIATIONS W)) ->
  heap st !! env1 c = Some e1 ->
  (n = "path" -> is_Some (e1 !! "PATH")) ->
  exists c1 st1, step W n c st = (Ok c1, st1).
Proof.
  destruct Hcoop as (Hio & _ & Hsp).
  intros Hn He1 Hp. destruct (known_cases W n Hn) as [Hpl|[-> | -> ]].
  - apply step_plain_total, Hpl.
  - destruct (fileordering_total W c st) as (c1 & st1 & H).
    + apply Hio.
    + unfold mount_cmd. rewrite Hsp. reflexivity.
    + rewrite enter_variations_cons in H.
      destruct (step W "fileordering" c st) as [[c2|e] st2]; [eauto|discriminate H].
  - destruct (Hp eq_refl) as [p Hpath].
    destruct (path_total W c st p) as (c1 & st1 & H).
    + rewrite (deref_Some _ _ _ He1). exact Hpath.
    + rewrite enter_variations_cons in H.
      destruct (step W "path" c st) as [[c2|e] st2]; [eauto|discriminate H].
Qed.

Lemma enter_total vs : forall c st e1 e2,
  Forall (fun n => is_Some (assoc n (VARIATIONS W))) vs ->
  heap st !! env1 c = Some e1 -> heap st !! env2 c = Some e2 ->
  env1 c <> env2 c ->
  ("path" ∈ vs -> is_Some (e1 !! "PATH")) ->
  exists c' st', enter_variations W vs c st = (Ok c', st').
Proof.
  induction vs as [|n vs IH]; intros c st e1 e2 Hk He1 He2 Hne Hp.
  { simpl. unfold ret. eauto. }
  apply Forall_cons in Hk as [Hn Hk].
  rewrite enter_variations_cons.
  destruct (step_total n c st e1 Hn He1) as (c1 & st1 & Hstep).
  { intros ->. apply Hp. left. }
  rewrite Hstep.
  destruct (step_heap _ _ _ _ _ _ Hstep) as (_ & _ & _ & Hab).
  destruct (step_inv _ _ _ _ _ _ Hstep) as (_ & _ & _ & _ & -> & _).
  destruct (Hab e1 e2 He1 He2 Hne) as [HA HB].
  apply (IH (documented_ctx n c) st1 _ _ Hk HA HB Hne).
  intros Hin. rewrite documented_envA_PATH. apply Hp. right. exact Hin.
Qed.

Lemma both_builds_total temp art c st :
  exists st', both_builds W temp art c st = (Ok tt, st').
Proof.
  destruct Hcoop as (Hio & Hsh & _).
  unfold both_builds, build, open_wb.
  cbv [bind ret raise snapshot io call check_call].
  repeat (rewrite ?Hio, ?Hsh; cbn [Z.eqb log trace]).
  eexists. reflexivity.
Qed.

Lemma run_callbacks_total k : forall st,
  exists st', run_callbacks W k None st = (Ok None, st').
Proof.
  destruct Hcoop as (_ & _ & Hsp).
  induction k as [|[name g] k IH]; intros st; [simpl; unfold ret; eauto|].
  cbn [run_callbacks]. unfold bind, try_.
  destruct g as [|mp]; cbn [resume].
  - unfold ret. apply IH.
  - cbv [check_call call bind ret raise]. rewrite Hsp. cbn [String.eqb Z.eqb].
    replace ("fusermount" =? "diffoscope")%string with false by reflexivity.
    cbn [Z.eqb]. apply IH.
Qed.

Lemma guarded_total temp art vs c st e1 e2 :
  Forall (fun n => is_Some (assoc n (VARIATIONS W))) vs ->
  heap st !! env1 c = Some e1 -> heap st !! env2 c = Some e2 ->
  env1 c <> env2 c ->
  ("path" ∈ vs -> is_Some (e1 !! "PATH")) ->
  exists st', guarded W temp art vs c st = (Ok tt, st').
Proof.
  intros Hk He1 He2 Hne Hp. unfold guarded, with_ExitStack.
  unfold bind at 1. unfold try_ at 1. unfold bind at 1.
  destruct (enter_total vs c (set_exit_stack [] st) e1 e2 Hk He1 He2 Hne Hp)
    as (c1 & st1 & ->).
  destruct (both_builds_total temp art c1 st1) as (st2 & ->).
  unfold bind at 1.
  destruct (run_callbacks_total (exit_stack st2) st2) as (st3 & ->).
  unfold reraise, ret. eauto.
Qed.

(** X15: in a world in which nothing fails, with names of the registry
    only and [PATH] set when [path] is among them, [check] goes all the way:
    it sets up, enters every variation, takes the twelve steps of the two
    builds, leaves the variations, runs the diff tool and removes the
    temporary directory, and it exits with the status of the diff tool. *)
Theorem X15_nothing_fails cmd art root vs environ :
  Forall (fun n => is_Some (assoc n (VARIATIONS W))) vs ->
  ("path" ∈ vs -> is_Some (environ !! "PATH")) ->
  exists st' d_exit,
    check W cmd art root vs (initial_state environ) = (Raise (SystemExit d), st') /\
    trace st' = setup_events (temp_name W) root
                ++ documented_trace (setup_ctx (temp_name W) cmd) vs
                ++ check_script (temp_name W) cmd art vs environ
                ++ d_exit
                ++ [EvRun (diffoscope (temp_name W)) None None (Some d);
                    EvIO (Rmtree (temp_name W)) true] /\
    Forall (fun e => is_unmount e = true) d_exit /\
    Forall (fun e => is_unmount_failure e = false) d_exit /\
    scopes st' = map Entered vs ++ map Left (rev vs).
Proof.
  intros Hk Hp.
  destruct (guarded_total (temp_name W) art vs (setup_ctx (temp_name W) cmd)
              (setup_state (temp_name W) root environ) environ environ Hk)
    as (stg & Hg); [reflexivity|reflexivity|simpl; lia|exact Hp|].
  destruct (guarded_script W _ _ _ _ _ _ _ environ environ Hg)
    as (d1 & d2 & d3 & Ht & Hc1 & Hc2 & Hc3 & Hbody & Hd & Hnu);
    [reflexivity|reflexivity|simpl; lia|].
  rewrite check_script_eq in Hbody, Hd. simpl in Ht, Hbody. subst d2.
  destruct Hbody as [Hnil|(_ & _ & -> & Hsc & _)]; [discriminate Hnil|].
  destruct Hcoop as (Hio & _ & Hsp).
  eexists _, d3. split; [|split; [|split_and!; [exact Hc3|exact Hnu|]]].
  - unfold check, with_TemporaryDirectory, copytree.
    cbv [bind ret raise try_ reraise dict_copy io sys_exit].
    simpl. rewrite Hio. simpl. rewrite Hio. simpl. rewrite Hio. simpl.
    match goal with
    | |- context [guarded W ?a ?b ?c ?x ?s] =>
        change s with (setup_state (temp_name W) root environ);
        change x with (setup_ctx (temp_name W) cmd)
    end.
    rewrite Hg. unfold call, diffoscope. rewrite Hsp.
    replace ("diffoscope" =? "diffoscope")%string with true by reflexivity.
    rewrite !Hio. reflexivity.
  - cbn [trace log]. rewrite Ht. unfold setup_events, diffoscope. cbn [app].
    rewrite <- !app_assoc. reflexivity.
  - cbn [scopes log]. exact Hsc.
Qed.
End Cooperative.

Lemma X15_nothing_fails_witness :
  cooperative (world [] 1) 1 /\
  Forall (fun n => is_Some (assoc n (VARIATIONS (world [] 1))))
         (VARIATIONS_keys (world [] 1)) /\
  ("path" ∈ VARIATIONS_keys (world [] 1) -> is_Some (ex_environ !! "PATH")) /\
  exists st' d_exit,
    check (world [] 1) ["make"] "out.bin" ex_root (VARIATIONS_keys (world [] 1))
          (initial_state ex_environ) = (Raise (SystemExit 1), st') /\
    trace st' = setup_events (temp_name (world [] 1)) ex_root
                ++ documented_trace (setup_ctx (temp_name (world [] 1)) ["make"])
                                    (VARIATIONS_keys (world [] 1))
                ++ check_script (temp_name (world [] 1)) ["make"] "out.bin"
                                (VARIATIONS_keys (world [] 1)) ex_environ
                ++ d_exit
                ++ [EvRun (diffoscope (temp_name (world [] 1))) None None (Some 1%Z);
                    EvIO (Rmtree (temp_name (world [] 1))) true] /\
    Forall (fun e => is_unmount e = true) d_exit /\
    Forall (fun e => is_unmount_failure e = false) d_exit /\
    scopes st' = map Entered (VARIATIONS_keys (world [] 1))
                 ++ map Left (rev (VARIATIONS_keys (world [] 1))).
Proof.
  assert (H0 : cooperative (world [] 1) 1).
  { split_and!; intros; try reflexivity.
    cbn [world spawn existsb]. destruct (String.eqb prog "diffoscope"); reflexivity. }
  assert (H1 : Forall (fun n => is_Some (assoc n (VARIATIONS (world [] 1))))
                      (VARIATIONS_keys (world [] 1))).
  { apply Forall_forall. intros n Hn. apply assoc_is_Some. exact Hn. }
  assert (H2 : "path" ∈ VARIATIONS_keys (world [] 1) ->
               is_Some (ex_environ !! "PATH")).
  { intros _. exists "/usr/bin". reflexivity. }
  split; [exact H0|]. split; [exact H1|]. split; [exact H2|].
  apply (X15_nothing_fails (world [] 1) 1 H0 ["make"] "out.bin" ex_root
           (VARIATIONS_keys (world [] 1)) ex_environ H1 H2).
Defined.

(** * Examples of the options *)

Example config_ex1 str_split :
  config str_split (Parsed (Some ex_rc))
  = Got [("build_command", Words (str_split "make")); ("artifact", Str "out.bin");
         ("source_root", Str "src"); ("variations", Words (str_split "home"));
         ("dont_vary", Words (str_split "kernel")); ("verbosity", Str "1")].
Proof. vm_compute. reflexivity. Qed.

Example config_ex2 str_split :
  config str_split (Parsed (Some ex_rc_short)) = Failed (MissingOption "source_root").
Proof. vm_compute. reflexivity. Qed.

Example config_ex3 str_split :
  config str_split (Parsed (Some ex_rc_percent))
  = Failed (ParserError "InterpolationSyntaxError").
Proof. vm_compute. reflexivity. Qed.

Example main_ex1 str_split :
  main str_split (world [] 0) (Parsed None) (ParserExit 2) (CwdIs ex_root)
       (initial_state ex_environ)
  = mkMainRun [] None (ArgparseExited 2) (initial_state ex_environ).
Proof. reflexivity. Qed.

Example main_ex2 str_split :
  main str_split (world [] 0) (Parsed None)
       (Namespace (mkFound None (Some "out.bin") None None None None))
       (CwdIs ex_root) (initial_state ex_environ)
  = mkMainRun ["No build command provided."] None (Ended (Raise (SystemExit 2)))
              (initial_state ex_environ).
Proof. reflexivity. Qed.

Example main_ex3 str_split :
  main str_split (world [] 0) (Parsed (Some ex_rc_percent))
       (Namespace (mkFound (Some "make") (Some "out.bin") None None None None))
       (CwdIs ex_root) (initial_state ex_environ)
  = mkMainRun [] None (ConfigRaised (ParserError "InterpolationSyntaxError"))
              (initial_state ex_environ).
Proof. vm_compute. reflexivity. Qed.
